(** * scisample: samplers, base-sampler checks, downselection and helpers

    A shallow embedding of the Python sources
      - [scisample/utils.py]
      - [scisample/interface.py]
      - [scisample/base_sampler.py]
      - [scisample/random.py]
      - [bin/pgen_scisample.py]
    together with the properties their specification states about them.

    Conventions of the embedding.
      - A Python [dict] keeps insertion order, so it is an association list
        whose keys are pairwise different ([dict_wf]); [dict_set] overwrites
        in place or appends, as Python does.
      - A raised exception is the [Raise] case of [result]; code that can
        raise lives in the error monad [result].
      - Python floats are IEEE 754 binary64 numbers, [spec_float] at
        precision 53 with its rounded operations; an integer too large for
        a float raises [OverflowError] when it is converted.
      - [random.random()] is a stream of fractions read through a counter
        that is threaded through the code. *)

From Stdlib Require Import ZArith Lia String Ascii List.
From Stdlib Require Import Floats.SpecFloat.
From Stdlib Require Import DecimalString.
From stdpp Require Import base option list strings.

Set Default Proof Using "Type".
Local Open Scope string_scope.

(* ===================================================================== *)
(** * Python values, exceptions and dictionaries *)
(* ===================================================================== *)

Module Py.

(** Exceptions raised by the modelled code; each carries what the source
    puts into it. *)
Inductive exn : Type :=
| KeyError (key : string)
| IndexError
| TypeError
| ValueError
| OverflowError
| AttributeError (msg : string)
| FileNotFoundError (path : string)
| ValidationError
| SamplingError (msg : string)      (* raised by [log_and_raise_exception] *)
| Exception (msg : string).         (* a plain [raise Exception(msg)]     *)

Inductive result (A : Type) : Type :=
| Ok (a : A)
| Raise (e : exn).
Arguments Ok {A} a.
Arguments Raise {A} e.

#[export] Instance result_ret : MRet result := fun A a => Ok a.
#[export] Instance result_bind : MBind result := fun A B k m =>
  match m with
  | Ok a => k a
  | Raise e => Raise e
  end.

(** [mapM f l]: a list comprehension whose body can raise; the first
    exception ends it. *)
Fixpoint mapM {A B} (f : A -> result B) (l : list A) : result (list B) :=
  match l with
  | [] => Ok []
  | a :: l' => b ← f a; bs ← mapM f l'; Ok (b :: bs)
  end.

(** A [for] loop whose body can raise, threading an accumulator. *)
Fixpoint foldlM {A B} (f : B -> A -> result B) (l : list A) (b : B)
  : result B :=
  match l with
  | [] => Ok b
  | a :: l' => b' ← f b a; foldlM f l' b'
  end.

(** ** Floats

    A Python float is a binary64 number: a signed zero, a signed infinity,
    a NaN, or a finite number with a mantissa of at most 53 bits.  The
    operations round to nearest, ties to even; a comparison with a NaN is
    false. *)
Definition float : Type := spec_float.

Definition float_prec : Z := 53.
Definition float_emax : Z := 1024.

Definition float_add : float -> float -> float := SFadd float_prec float_emax.
Definition float_sub : float -> float -> float := SFsub float_prec float_emax.
Definition float_mul : float -> float -> float := SFmul float_prec float_emax.
Definition float_sqrt : float -> float := SFsqrt float_prec float_emax.

(** [x < y] and [x <= y] as tests. *)
Definition float_lt (x y : float) : bool := SFltb x y.
Definition float_le (x y : float) : bool := SFleb x y.

(** [0.0] *)
Definition float_zero : float := S754_zero false.

(** [m * 2**e] rounded to a float; [float_of_Z z] is [float(z)] before
    the overflow check. *)
Definition float_of_dyadic (m e : Z) : float :=
  binary_normalize float_prec float_emax m e false.

Definition float_of_Z (z : Z) : float := float_of_dyadic z 0.

(** [math.isfinite(x)] *)
Definition isfinite (x : float) : bool :=
  match x with
  | S754_zero _ | S754_finite _ _ _ => true
  | S754_infinity _ | S754_nan => false
  end.

(** Scalars as YAML delivers them: integers, floats and strings. *)
Inductive scalar : Type :=
| SInt (z : Z)
| SFloat (q : float)
| SStr (s : string).

(** Dictionary keys.  YAML keys may be integers, which is what
    [_check_variables_strings] guards against. *)
Inductive key : Type :=
| KStr (s : string)
| KInt (z : Z).

#[export] Instance key_eq_dec : EqDecision key.
Proof. solve_decision. Defined.

#[export] Instance float_eq_dec : EqDecision float.
Proof. solve_decision. Defined.

#[export] Instance scalar_eq_dec : EqDecision scalar.
Proof. solve_decision. Defined.

(** [str(n)] for an integer. *)
Definition str_of_Z (z : Z) : string :=
  NilZero.string_of_int (Z.to_int z).

(** [str(k)] for a key; a string is its own [str]. *)
Definition str_of_key (k : key) : string :=
  match k with
  | KStr s => s
  | KInt z => str_of_Z z
  end.

Definition isinstance_str (k : key) : bool :=
  match k with KStr _ => true | KInt _ => false end.

(** ** Insertion-ordered dictionaries *)

Definition dict (V : Type) : Type := list (key * V).

Definition keys {V} (d : dict V) : list key := d.*1.

Definition dict_wf {V} (d : dict V) : Prop := NoDup (keys d).

Fixpoint dict_get {V} (d : dict V) (k : key) : option V :=
  match d with
  | [] => None
  | (k', v) :: d' => if decide (k = k') then Some v else dict_get d' k
  end.

Definition dict_mem {V} (d : dict V) (k : key) : bool :=
  bool_decide (is_Some (dict_get d k)).

(** [d[k] = v]: overwrite where the key stands, otherwise append. *)
Fixpoint dict_set {V} (d : dict V) (k : key) (v : V) : dict V :=
  match d with
  | [] => [(k, v)]
  | (k', v') :: d' =>
      if decide (k = k') then (k', v) :: d' else (k', v') :: dict_set d' k v
  end.

(** [d.update(e)]. *)
Definition dict_update {V} (d e : dict V) : dict V :=
  fold_left (fun acc kv => dict_set acc kv.1 kv.2) e d.

(** [d[k]] as an expression: [KeyError] when the key is missing. *)
Definition dict_index {V} (d : dict V) (k : key) : result V :=
  match dict_get d k with
  | Some v => Ok v
  | None => Raise (KeyError (str_of_key k))
  end.

End Py.
Export Py.

(* ===================================================================== *)
(** * [scisample/utils.py] *)
(* ===================================================================== *)

Module Utils.

(** ** Strings as the helpers use them

    Strings are byte strings; [is_space] is Python's [str.isspace] on the
    ASCII range (tab, line feed, vertical tab, form feed, carriage return,
    the four separators 28..31 and the blank). *)

Definition is_space (c : ascii) : bool :=
  let n := nat_of_ascii c in
  ((9 <=? n)%nat && (n <=? 13)%nat) || ((28 <=? n)%nat && (n <=? 32)%nat).

Definition comma : ascii := ","%char.
Definition newline : ascii := ascii_of_nat 10.

Fixpoint lstrip (s : string) : string :=
  match s with
  | "" => ""
  | String c s' => if is_space c then lstrip s' else s
  end.

Fixpoint rstrip (s : string) : string :=
  match s with
  | "" => ""
  | String c s' =>
      match rstrip s' with
      | "" => if is_space c then "" else String c ""
      | r => String c r
      end
  end.

(** [s.strip()] *)
Definition strip (s : string) : string := rstrip (lstrip s).

(** [s.split(sep)] for a one-character separator; the empty string splits
    into one empty field. *)
Fixpoint split (sep : ascii) (s : string) : list string :=
  match s with
  | "" => [""]
  | String c s' =>
      if Ascii.eqb c sep then "" :: split sep s'
      else match split sep s' with
           | h :: t => String c h :: t
           | [] => [String c ""]
           end
  end.

(** [sep.join(l)] *)
Definition join (sep : string) (l : list string) : string :=
  String.concat sep l.

(** [f.readlines()]: the lines of a text, each with its line feed. *)
Fixpoint readlines (content : string) : list string :=
  match content with
  | "" => []
  | String c s' =>
      if Ascii.eqb c newline then String c "" :: readlines s'
      else match readlines s' with
           | h :: t => String c h :: t
           | [] => [String c ""]
           end
  end.

(** [fmt.format] over unpacked arguments, for format strings made of literal text and the
    replacement field [{}], which is all [list_to_csv] builds.  A field
    without an argument left raises [IndexError]; surplus arguments are
    ignored. *)
Fixpoint str_format (fmt : string) (args : list string) : result string :=
  match fmt with
  | "" => Ok ""
  | String c rest =>
      match rest with
      | String c' rest' =>
          if Ascii.eqb c "{"%char && Ascii.eqb c' "}"%char then
            match args with
            | a :: args' => r ← str_format rest' args'; Ok (a ++ r)
            | [] => Raise IndexError
            end
          else r ← str_format rest args; Ok (String c r)
      | "" => Ok (String c "")
      end
  end.

(** ** The helpers *)

Section ReadCsv.
(** The file system: the text of a file, if it can be opened. *)
Variable fs : string -> option string.

Definition open_read (filename : string) : result (list string) :=
  match fs filename with
  | Some content => Ok (readlines content)
  | None => Raise (FileNotFoundError filename)
  end.

Definition read_csv (filename : string) : result (list (list string)) :=
  content ← open_read filename;
  Ok (map (fun line => split comma (strip line)) content).
End ReadCsv.

(** [zip] over the unpacked rows: one tuple per position, up to the shortest row; no rows
    give no tuples. *)
Fixpoint zip_star {A} (n : nat) (rows : list (list A)) : list (list A) :=
  match n with
  | O => []
  | S n' =>
      match mapM (fun r => match r with
                           | x :: _ => Ok x
                           | [] => Raise IndexError
                           end) rows with
      | Ok heads => heads :: zip_star n' (map (drop 1) rows)
      | Raise _ => []
      end
  end.

Definition transpose_tabular {A} (rows : list (list A)) : list (list A) :=
  zip_star (match rows with r :: _ => length r | [] => 0 end) rows.

(** The items of [row] are strings, which [format] inserts unchanged. *)
Definition list_to_csv (row : list string) : result string :=
  let format_string := join "," (repeat "{}" (length row)) in
  str_format format_string row.

(** One entry of the per-parameter structure handed to the orchestrator. *)
Record pentry : Type := { values : list scalar; label : string }.

Definition _convert_dict_to_maestro_params (samples : list (dict scalar))
  : result (dict pentry) :=
  first ← match samples with
          | s :: _ => Ok s
          | [] => Raise IndexError
          end;
  foldlM (fun parameters key =>
            vs ← mapM (fun sample => dict_index sample key) samples;
            Ok (dict_set parameters key
                  {| values := vs; label := str_of_key key ++ ".%%" |}))
         (keys first) [].

Definition find_duplicates (lst : list key) : list key :=
  (fold_left (fun '(seen, dupes) x =>
                match dict_get seen x with
                | None => (dict_set seen x 1%Z, dupes)
                | Some n =>
                    (dict_set seen x (n + 1)%Z,
                     if (n =? 1)%Z then (dupes ++ [x])%list else dupes)
                end) lst (([] : dict Z), ([] : list key))).2.

End Utils.

(* ===================================================================== *)
(** * Sampler data and sampler objects *)
(* ===================================================================== *)

Module Sampler.
Export Utils.

(** A sample: parameter name to value. *)
Definition sample : Type := dict scalar.

(** The configuration block [self.data].  Each field is a key of the
    Python dictionary and is [None] when the key is absent.  An entry of
    ['parameters'] is itself a dictionary, with keys ["min"] and ["max"]
    for the random strategy. *)
Record data : Type := {
  d_type : option scalar;
  d_num_samples : option scalar;
  d_previous_samples : option string;
  d_constants : option (dict scalar);
  d_parameters : option (dict (dict scalar));
}.

(** [self.data[name]] *)
Definition data_index {A} (field : option A) (name : string) : result A :=
  match field with
  | Some a => Ok a
  | None => Raise (KeyError name)
  end.

(** The orchestrator's [ParameterGenerator]: the triples registered with
    [add_parameter], in order of registration. *)
Definition pgen : Type := list (key * list scalar * string).

(** The instance attributes set by [BaseSampler.__init__]. *)
Record sampler : Type := {
  _data : data;
  _samples : option (list sample);
  _parameter_block : option (dict pentry);
  _pgen : option pgen;
}.

Definition __init__ (data : data) : sampler :=
  {| _data := data; _samples := None;
     _parameter_block := None; _pgen := None |}.

Definition set_samples (self : sampler) (s : list sample) : sampler :=
  {| _data := _data self; _samples := Some s;
     _parameter_block := _parameter_block self; _pgen := _pgen self |}.

Definition set_parameter_block (self : sampler) (b : dict pentry) : sampler :=
  {| _data := _data self; _samples := _samples self;
     _parameter_block := Some b; _pgen := _pgen self |}.

Definition set_pgen (self : sampler) (g : pgen) : sampler :=
  {| _data := _data self; _samples := _samples self;
     _parameter_block := _parameter_block self; _pgen := Some g |}.

(** ** Python arithmetic on scalars: integers stay integers and exact, a
    float operand makes the result a float, the integer operand being
    converted first, and a string operand raises.  [float(z)] raises
    [OverflowError] for an integer beyond the range of floats. *)
Definition to_float (v : scalar) : result float :=
  match v with
  | SInt z =>
      let x := float_of_Z z in
      if isfinite x then Ok x else Raise OverflowError
  | SFloat q => Ok q
  | SStr _ => Raise TypeError
  end.

Definition py_arith (fz : Z -> Z -> Z) (fq : float -> float -> float)
  (a b : scalar) : result scalar :=
  match a, b with
  | SInt x, SInt y => Ok (SInt (fz x y))
  | SStr _, _ | _, SStr _ => Raise TypeError
  | _, _ => x ← to_float a; y ← to_float b; Ok (SFloat (fq x y))
  end.

Definition py_sub : scalar -> scalar -> result scalar :=
  py_arith Z.sub float_sub.
Definition py_add : scalar -> scalar -> result scalar :=
  py_arith Z.add float_add.
Definition py_mul : scalar -> scalar -> result scalar :=
  py_arith Z.mul float_mul.

(** [str(v)].  The text of a float is left to [repr_float]. *)
Definition py_str (repr_float : float -> string) (v : scalar) : string :=
  match v with
  | SInt z => str_of_Z z
  | SFloat q => repr_float q
  | SStr s => s
  end.

(** [s.isnumeric()] on the ASCII range: at least one character, all of them
    decimal digits. *)
Definition is_digit (c : ascii) : bool :=
  let n := nat_of_ascii c in (48 <=? n)%nat && (n <=? 57)%nat.

Fixpoint all_chars (p : ascii -> bool) (s : string) : bool :=
  match s with
  | "" => true
  | String c s' => p c && all_chars p s'
  end.

Definition isnumeric (s : string) : bool :=
  match s with
  | "" => false
  | _ => all_chars is_digit s
  end.

(** [range(v)]: the number of iterations; only an integer is accepted, and
    a negative one gives none. *)
Definition py_range (v : scalar) : result nat :=
  match v with
  | SInt z => Ok (Z.to_nat z)
  | _ => Raise TypeError
  end.

(** Modelled from the spec: [log_and_raise_exception] of [scisample.utils]
    is imported by the samplers but its body is not in the sources; the
    specification says every raised condition is logged and then raised
    with the same message.  Logging leaves no trace in the model. *)
Definition log_and_raise_exception {A} (msg : string) : result A :=
  Raise (SamplingError msg).

(** ** The classes and what each defines

    [class_dict c] lists the names bound in the body of class [c];
    [mro c] is its method resolution order.  [abc.ABC] and [object] come
    from Python itself. *)
Inductive class : Type :=
| CRandomSampler
| CBaseSampler
| CSamplerInterface
| CABC
| Cobject.

#[export] Instance class_eq_dec : EqDecision class.
Proof. solve_decision. Defined.

Definition class_dict (c : class) : list string :=
  match c with
  | CRandomSampler =>
      ["is_valid"; "parameters"; "get_samples"]
  | CBaseSampler =>
      ["_ALLOWED_SAMPLING_DICT"; "ALLOWED_SAMPLING_KEYS"; "__init__";
       "check_validity"; "data"; "_parameters_constants_parameters_only";
       "_check_variables"; "_check_variables_strings";
       "_check_variables_existence"; "_check_variables_for_dups";
       "parameter_block"; "maestro_pgen"; "downselect"]
  | CSamplerInterface =>
      ["data"; "check_validity"; "get_samples"; "parameters";
       "parameter_block"]
  | CABC => ["__slots__"]
  | Cobject =>
      ["__class__"; "__delattr__"; "__dir__"; "__doc__"; "__eq__";
       "__format__"; "__ge__"; "__getattribute__"; "__gt__"; "__hash__";
       "__init__"; "__init_subclass__"; "__le__"; "__lt__"; "__ne__";
       "__new__"; "__reduce__"; "__reduce_ex__"; "__repr__";
       "__setattr__"; "__sizeof__"; "__str__"; "__subclasshook__"]
  end.

Definition mro (c : class) : list class :=
  match c with
  | CRandomSampler =>
      [CRandomSampler; CBaseSampler; CSamplerInterface; CABC; Cobject]
  | CBaseSampler => [CBaseSampler; CSamplerInterface; CABC; Cobject]
  | CSamplerInterface => [CSamplerInterface; CABC; Cobject]
  | CABC => [CABC; Cobject]
  | Cobject => [Cobject]
  end.

Fixpoint after {A} `{EqDecision A} (x : A) (l : list A) : list A :=
  match l with
  | [] => []
  | y :: l' => if decide (x = y) then l' else after x l'
  end.

(** [super(c, self).name] for an instance of [obj_class]: the first class
    after [c] in the resolution order of [obj_class] whose body binds
    [name]. *)
Definition super_getattr (c obj_class : class) (name : string)
  : option class :=
  List.find (fun c' => bool_decide (name ∈ class_dict c'))
            (after c (mro obj_class)).

End Sampler.

(* ===================================================================== *)
(** * [scisample/base_sampler.py] *)
(* ===================================================================== *)

Module BaseSampler.
Export Sampler.

Definition _ALLOWED_SAMPLING_DICT : list (string * string) :=
  [("best_candidate", "BestCandidateSampler");
   ("column_list", "ColumnListSampler");
   ("cross_product", "CrossProductSampler");
   ("csv", "CsvSampler");
   ("custom", "CustomSampler");
   ("list", "ListSampler");
   ("random", "RandomSampler")].

Definition ALLOWED_SAMPLING_KEYS : list string := _ALLOWED_SAMPLING_DICT.*1.

(** A method that may change the object and draw random numbers: it runs
    on the object and the position in the stream of random fractions, and
    returns its outcome with what it leaves of both, also when it raises. *)
Definition method (A : Type) : Type :=
  sampler -> nat -> result A * sampler * nat.

Section CheckValidity.
(** [repr] of a float and [str] of the configuration dictionary are
    Python's own; their text is not fixed here. *)
Variable repr_float : float -> string.
Variable str_data : data -> string.
(** The outcome of validating a block against the schema of its type. *)
Variable schema_ok : string -> data -> bool.

(** Modelled from the spec: [validate_sampler] of [scisample.schema] is
    called by [check_validity] but its body is not in the sources.  The
    specification distinguishes three failures: no ['type'] key, a
    ['type'] that is not among the allowed strategy keys, and data that
    does not fit the schema of its type; [check_validity] catches them
    as [ValueError], [KeyError] and [ValidationError]. *)
Definition validate_sampler (d : data) : result unit :=
  match d_type d with
  | None => Raise ValueError
  | Some (SStr t) =>
      if bool_decide (t ∈ ALLOWED_SAMPLING_KEYS) then
        if schema_ok t d then Ok tt else Raise ValidationError
      else Raise (KeyError t)
  | Some v => Raise (KeyError (py_str repr_float v))
  end.

Definition check_validity (self : sampler) : result unit :=
  match validate_sampler (_data self) with
  | Ok _ => Ok tt
  | Raise ValueError =>
      log_and_raise_exception
        ("No 'type' entry found in sampler data " ++ str_data (_data self))
  | Raise (KeyError _) =>
      t ← data_index (d_type (_data self)) "type";
      log_and_raise_exception
        ("Sampler type " ++ py_str repr_float t ++ " not found in schema")
  | Raise ValidationError =>
      log_and_raise_exception "Sampler data is invalid"
  | Raise e => Raise e
  end.
End CheckValidity.

(** [with suppress(KeyError): parameters.extend(list(block.keys()))] *)
Definition extend_keys {V} (parameters : list key) (block : option (dict V))
  : list key :=
  match block with
  | Some d => (parameters ++ keys d)%list
  | None => parameters
  end.

Definition _parameters_constants_parameters_only (self : sampler)
  : list key :=
  let parameters := [] in
  let parameters := extend_keys parameters (d_constants (_data self)) in
  let parameters := extend_keys parameters (d_parameters (_data self)) in
  parameters.

Section Abstract.
(** The members [BaseSampler] leaves to the concrete sampler. *)
Variable parameters : sampler -> list key.
Variable get_samples : method (list sample).
(** [str] of a Python set with the given elements; the order in which a
    set prints is not fixed here. *)
Variable str_set : list key -> string.

Definition _check_variables_strings (self : sampler) : result unit :=
  foldlM (fun _ parameter =>
            if negb (isinstance_str parameter) then
              log_and_raise_exception
                "constants and parameters must be strings"
            else Ok tt)
         (parameters self) tt.

Definition _check_variables_existence (self : sampler) : result unit :=
  if decide (length (parameters self) = 0) then
    log_and_raise_exception
      ("Either constants or parameters must be included in the " ++
       "sampler data")
  else Ok tt.

Definition _check_variables_for_dups (self : sampler) : result unit :=
  if decide (length (parameters self)
             ≠ length (remove_dups (parameters self))) then
    let dupes := find_duplicates (parameters self) in
    log_and_raise_exception
      ("The following constants or parameters are defined more " ++
       "than once: " ++ str_set dupes)
  else Ok tt.

Definition _check_variables (self : sampler) : result unit :=
  _ ← _check_variables_strings self;
  _ ← _check_variables_existence self;
  _check_variables_for_dups self.

(** One step of the inner loop of [parameter_block]. *)
Definition add_value (block : dict pentry) (key : key) (value : scalar)
  : dict pentry :=
  let block :=
    if dict_mem block key then block
    else dict_set block key
           {| values := []; label := str_of_key key ++ ".%%" |} in
  match dict_get block key with
  | Some e =>
      dict_set block key
        {| values := (values e ++ [value])%list; label := label e |}
  | None => block
  end.

Definition block_of_samples (samples : list sample) : dict pentry :=
  fold_left (fun block sample =>
               fold_left (fun b kv => add_value b kv.1 kv.2) sample block)
            samples [].

Definition parameter_block : method (dict pentry) := fun self n =>
  match _parameter_block self with
  | Some b => (Ok b, self, n)
  | None =>
      let self := set_parameter_block self [] in
      match get_samples self n with
      | (Ok samples, self, n) =>
          let b := block_of_samples samples in
          (Ok b, set_parameter_block self b, n)
      | (Raise e, self, n) => (Raise e, self, n)
      end
  end.

(** Whether [maestrowf] could be imported. *)
Variable MAESTROWF : bool.

Definition maestro_pgen : method pgen := fun self n =>
  if negb MAESTROWF then
    (Raise (Exception ("maestrowf is not installed" ++ String newline
                         "the maestro_pgen is not supported")), self, n)
  else
    match _pgen self with
    | Some g => (Ok g, self, n)
    | None =>
        match get_samples self n with
        | (Raise e, self, n) => (Raise e, self, n)
        | (Ok samples, self, n) =>
            match _convert_dict_to_maestro_params samples with
            | Raise e => (Raise e, self, n)
            | Ok params =>
                let g : pgen :=
                  fold_left
                    (fun (g : pgen) kv =>
                       (g ++ [(kv.1, values kv.2, label kv.2)])%list)
                    params [] in
                (Ok g, set_pgen self g, n)
            end
        end
    end.
End Abstract.

(** ** Downselection

    What the model keeps of pandas, numpy and scipy.
      - A data frame is its column labels, the keys of the records in
        order of first appearance, and its rows.  Selecting columns raises
        [KeyError] for a label the frame does not have.  The frames that
        occur are rectangular; a cell missing from a row, where pandas
        would store NaN, raises [KeyError] when it is read.
      - A point is the list of its coordinates as floats.  The tree of
        scipy takes finite coordinates only, in its data and in the
        positions it is asked about, and raises [ValueError] otherwise;
        the model makes that check where the coordinates become floats.
      - [KDTree(px).query(pos)[0]] is the distance, in floats, from [pos]
        to the nearest point of [px]: the least of the distances
        [distance pos q], each the rounded square root of the rounded sum
        of the rounded squares of the coordinate differences. *)

Record DataFrame : Type := { df_columns : list key; df_rows : list sample }.

Definition from_dict (records : list sample) : DataFrame :=
  {| df_columns :=
       fold_left (fun cols r =>
                    fold_left (fun cols k =>
                                 if bool_decide (k ∈ cols) then cols
                                 else (cols ++ [k])%list)
                              (keys r) cols)
                 records [];
     df_rows := records |}.

(** [df[columns].values.tolist()] *)
Definition df_values (df : DataFrame) (columns : list key)
  : result (list (list scalar)) :=
  _ ← foldlM (fun _ c =>
                if bool_decide (c ∈ df_columns df) then Ok tt
                else Raise (KeyError (str_of_key c)))
             columns tt;
  mapM (fun row => mapM (dict_index row) columns) (df_rows df).

(** [df.iloc[i]] as the record [to_dict(orient='records')] makes of it. *)
Definition iloc (df : DataFrame) (i : nat) : result sample :=
  match df_rows df !! i with
  | Some row =>
      Ok (omap (fun c => pair c <$> dict_get row c) (df_columns df))
  | None => Raise IndexError
  end.

Definition point : Type := list float.

(** A coordinate: a number, and a finite one.  scipy's [KDTree] takes
    finite numbers only, and so does its query ([ValueError] otherwise). *)
Definition to_coordinate (v : scalar) : result float :=
  x ← to_float v;
  if isfinite x then Ok x else Raise ValueError.

(** [np.asarray] of coordinate lists; a string is not a number.  The
    check that the tree and its query make of their points is made here,
    once for every point: a pool with an infinite or NaN coordinate
    raises in the model also when the source builds no tree. *)
Definition asarray (pts : list (list scalar)) : result (list point) :=
  mapM (mapM to_coordinate) pts.

(** The Euclidean distance in floats: every difference, square, sum and
    the root are rounded.  The squares are summed from the last
    coordinate on. *)
Definition sqdist (p q : point) : float :=
  foldr float_add float_zero
        (zip_with (fun a b => float_mul (float_sub a b) (float_sub a b)) p q).

Definition distance (p q : point) : float := float_sqrt (sqdist p q).

Definition float_min (x y : float) : float := if float_lt y x then y else x.

(** A tree is the list of its points; it cannot be built on none. *)
Definition KDTree (px : list point) : result (point * list point) :=
  match px with
  | [] => Raise ValueError
  | p :: ps => Ok (p, ps)
  end.

(** [tree.query(pos)[0]]: the least of the distances from [pos] to the
    points of the tree. *)
Definition tree_query (tree : point * list point) (pos : point) : float :=
  fold_left (fun m q => float_min m (distance pos q)) tree.2
            (distance pos tree.1).

Definition exhausted : string :=
  "During 'downselect', failed to find any candidates in the tree.".

(** The inner loop [for i in range(1, bign)]: the state is [(j, d)]. *)
Definition scan (tree : point * list point) (candidates : list point)
  (bign : nat) : nat * float :=
  fold_left (fun '(j, d) i =>
               match candidates !! i with
               | Some pos =>
                   let dist := tree_query tree pos in
                   if float_lt d dist then (i, dist) else (j, d)
               | None => (j, d)
               end)
            (seq 1 (bign - 1)) (bign, float_zero).

(** The loop [for n in range(n0, num_points)], [count] iterations long.
    [new_sample_points] is filled by the source but never read, so the
    state is [sample_points] and [new_sample_ids]. *)
Fixpoint select (count : nat) (candidates : list point) (bign : nat)
  (sample_points : list point) (new_sample_ids : list nat)
  : result (list nat) :=
  match count with
  | O => Ok new_sample_ids
  | S count' =>
      tree ← KDTree sample_points;
      let '(j, d) := scan tree candidates bign in
      if decide (j = bign) then Raise (Exception exhausted)
      else
        match candidates !! j with
        | Some c =>
            select count' candidates bign
                   (sample_points ++ [c]) (new_sample_ids ++ [j])
        | None => Raise IndexError
        end
  end.

Section Downselect.
Variable parameters : sampler -> list key.
(** Whether pandas, numpy and scipy could be imported. *)
Variable PANDAS_PLUS : bool.
(** [pd.read_csv]: the records of a file, or the exception it raises. *)
Variable pd_read_csv : string -> result (list sample).

(** The seed of the selection: [(sample_points, new_sample_ids, n0)]. *)
Definition seed (self : sampler) (columns : list key)
  (candidates : list (list scalar))
  : result (list (list scalar) * list nat * Z) :=
  match d_previous_samples (_data self) with
  | None =>
      match candidates with
      | c0 :: _ => Ok ([c0], [0%nat], 1%Z)
      | [] => Raise IndexError
      end
  | Some path =>
      previous_samples ←
        match pd_read_csv path with
        | Raise ValueError =>
            Raise (Exception
                     ("Error opening previous_samples datafile:" ++ path))
        | r => r
        end;
      sample_points ← df_values (from_dict previous_samples) columns;
      Ok (sample_points, [], 0%Z)
  end.

(** [downselect(self, samples)] returns nothing and replaces
    [self._samples]; the result is the object it leaves.  The extrema
    [mins] and [maxs] are only printed; computing them stores or
    compares every coordinate as a float, which is where a coordinate
    that is not a number raises. *)
Definition downselect (self : sampler) (samples : Z) : result sampler :=
  _ ← (if negb PANDAS_PLUS then
         log_and_raise_exception
           "This function requires pandas, numpy & scipy packages"
       else Ok tt);
  let df := from_dict (default [] (_samples self)) in
  let columns := parameters self in
  candidates ← df_values df columns;
  let num_points := samples in
  '(sample_points, new_sample_ids, n0) ← seed self columns candidates;
  candidates ← asarray candidates;
  let bign := length candidates in
  sample_points ← asarray sample_points;
  new_sample_ids ←
    select (Z.to_nat (num_points - n0)) candidates bign
           sample_points new_sample_ids;
  new_samples ← mapM (iloc df) new_sample_ids;
  Ok (set_samples self new_samples).
End Downselect.

End BaseSampler.

(* ===================================================================== *)
(** * [scisample/random.py] *)
(* ===================================================================== *)

Module RandomSampler.
Export BaseSampler.

(** [RandomSampler.parameters] *)
Definition parameters (self : sampler) : list key :=
  let parameters := [] in
  let parameters := extend_keys parameters (d_constants (_data self)) in
  let parameters := extend_keys parameters (d_parameters (_data self)) in
  parameters.

Section IsValid.
Variable repr_float : float -> string.
Variable str_set : list key -> string.
(** How an [is_valid] found in a class above [RandomSampler] would run.
    It stands for a method the sources do not contain. *)
Variable inherited_is_valid : class -> sampler -> result bool.

(** The loop over [self.data["parameters"].items()]. *)
Definition check_bounds (self : sampler) : result unit :=
  params ← data_index (d_parameters (_data self)) "parameters";
  foldlM (fun _ '(key, value) =>
            mn ← dict_index value (KStr "min");
            _ ← (if negb (isnumeric (py_str repr_float mn)) then
                   log_and_raise_exception
                     "parameter must have a numeric minimum"
                 else Ok tt);
            mx ← dict_index value (KStr "max");
            if negb (isnumeric (py_str repr_float mx)) then
              log_and_raise_exception
                "parameter must have a numeric maximum"
            else Ok tt)
         params tt.

Definition is_valid (self : sampler) : result bool :=
  match super_getattr CRandomSampler CRandomSampler "is_valid" with
  | None =>
      Raise (AttributeError "'super' object has no attribute 'is_valid'")
  | Some c =>
      b ← inherited_is_valid c self;
      if negb b then Ok false
      else
        _ ← _check_variables parameters str_set self;
        _ ← check_bounds self;
        Ok true
  end.
End IsValid.

Section GetSamples.
(** [random_random i] is what the [i]-th call of [random.random()]
    returns, counting from 0. *)
Variable random_random : nat -> float.

(** The first loop: [min_dict] and [range_dict]. *)
Definition bounds_dicts (params : dict (dict scalar))
  : result (dict scalar * dict scalar) :=
  foldlM (fun '(min_dict, range_dict) '(key, value) =>
            mn ← dict_index value (KStr "min");
            mx ← dict_index value (KStr "max");
            mn' ← dict_index value (KStr "min");
            r ← py_sub mx mn';
            Ok (dict_set min_dict key mn, dict_set range_dict key r))
         params ([], []).

(** One [random_dictionary]: the loop over the parameters, drawing one
    fraction per parameter. *)
Fixpoint draw_dictionary (items : dict (dict scalar))
  (min_dict range_dict : dict scalar) (random_dictionary : dict scalar)
  (n : nat) : result (dict scalar) * nat :=
  match items with
  | [] => (Ok random_dictionary, n)
  | (key, _) :: items' =>
      match dict_index min_dict key with
      | Raise e => (Raise e, n)
      | Ok mn =>
          let f := random_random n in
          match (r ← dict_index range_dict key;
                 x ← py_mul (SFloat f) r;
                 py_add mn x) with
          | Raise e => (Raise e, S n)
          | Ok v =>
              draw_dictionary items' min_dict range_dict
                (dict_set random_dictionary key v) (S n)
          end
      end
  end.

(** [random_list]: the loop [for i in range(num_samples)]. *)
Fixpoint draw_list (count : nat) (items : dict (dict scalar))
  (min_dict range_dict : dict scalar) (random_list : list (dict scalar))
  (n : nat) : result (list (dict scalar)) * nat :=
  match count with
  | O => (Ok random_list, n)
  | S count' =>
      match draw_dictionary items min_dict range_dict [] n with
      | (Raise e, n) => (Raise e, n)
      | (Ok random_dictionary, n) =>
          draw_list count' items min_dict range_dict
                    (random_list ++ [random_dictionary]) n
      end
  end.

(** The constants first, then the drawn values. *)
Definition new_sample (d : data) (random_dictionary : dict scalar)
  : sample :=
  let new_sample := [] in
  let new_sample :=
    match d_constants d with
    | Some c => dict_update new_sample c
    | None => new_sample
    end in
  fold_left (fun s kv => dict_set s kv.1 kv.2) random_dictionary new_sample.

Definition get_samples : method (list sample) := fun self n =>
  match _samples self with
  | Some s => (Ok s, self, n)
  | None =>
      let self := set_samples self [] in
      let d := _data self in
      match (params ← data_index (d_parameters d) "parameters";
             dicts ← bounds_dicts params;
             num ← data_index (d_num_samples d) "num_samples";
             count ← py_range num;
             Ok (params, dicts, count)) with
      | Raise e => (Raise e, self, n)
      | Ok (params, (min_dict, range_dict), count) =>
          match draw_list count params min_dict range_dict [] n with
          | (Raise e, n) => (Raise e, self, n)
          | (Ok random_list, n) =>
              let samples := map (new_sample d) random_list in
              (Ok samples, set_samples self samples, n)
          end
      end
  end.
End GetSamples.

End RandomSampler.

(* ===================================================================== *)
(** * [bin/pgen_scisample.py] *)
(* ===================================================================== *)

Module PgenScisample.
Export Sampler.

(** The orchestrator's environment: [env.find(name)] returns a variable,
    here the value it holds, returns [None], or raises. *)
Definition environment : Type := string -> result (option data).

(** [env.find(name).value] *)
Definition find_value (env : environment) (name : string) : result data :=
  v ← env name;
  match v with
  | Some d => Ok d
  | None =>
      Raise (AttributeError "'NoneType' object has no attribute 'value'")
  end.

(** [kwargs.get(name, default)] *)
Definition kwargs_get (kwargs : list (string * data)) (name : string)
  (default : data) : data :=
  match List.find (fun kv => String.eqb kv.1 name) kwargs with
  | Some kv => kv.2
  | None => default
  end.

Definition required : string :=
  "this pgen code requires SAMPLE_DICTIONARY " ++
  "to be defined in the yaml specification".

(** The [try] block.  The arguments of [kwargs.get] are evaluated before
    the call, so the environment is read first. *)
Definition resolve (env : environment) (kwargs : list (string * data))
  : result data :=
  match find_value env "SAMPLE_DICTIONARY" with
  | Ok default => Ok (kwargs_get kwargs "sample_dictionary" default)
  | Raise ValueError => Raise (Exception required)
  | Raise e => Raise e
  end.

Section Generator.
(** [new_sampler(d).maestro_pgen]: the factory of [scisample.samplers]
    is not in the sources. *)
Variable new_sampler_maestro_pgen : data -> result pgen.

Definition get_custom_generator (env : environment)
  (kwargs : list (string * data)) : result pgen :=
  SAMPLE_DICTIONARY ← resolve env kwargs;
  new_sampler_maestro_pgen SAMPLE_DICTIONARY.
End Generator.

End PgenScisample.

(* ===================================================================== *)
(** * Notions used to state the properties *)
(* ===================================================================== *)

Module Props.
Export RandomSampler PgenScisample.

(** ** Fields of a CSV row

    A field that a row can carry through the format: no comma in it, and
    neither its first nor its last character is white space. *)
Fixpoint last_char (s : string) : option ascii :=
  match s with
  | "" => None
  | String c s' =>
      match last_char s' with
      | Some c' => Some c'
      | None => Some c
      end
  end.

Definition first_char (s : string) : option ascii :=
  match s with
  | "" => None
  | String c _ => Some c
  end.

Definition not_space (o : option ascii) : bool :=
  match o with
  | Some c => negb (is_space c)
  | None => true
  end.

Definition no_comma (s : string) : bool :=
  all_chars (fun c => negb (Ascii.eqb c comma)) s.

Definition clean_field (s : string) : bool :=
  no_comma s && not_space (first_char s) && not_space (last_char s).

(** ** The parameter block of a sample list

    [column samples k] lists the values the samples give to [k], in sample
    order; [block_entry] is the entry the block should hold for [k]. *)
Definition column (samples : list sample) (k : key) : list scalar :=
  omap (fun s => dict_get s k) samples.

Definition block_entry (samples : list sample) (k : key) : pentry :=
  {| values := column samples k; label := str_of_key k ++ ".%%" |}.

(** What the block holds for [k] once the samples [pre] and the items
    [it] of the next sample have been read. *)
Definition block_get (pre : list sample) (it : sample) (k : key)
  : option pentry :=
  match (column pre k ++ option_list (dict_get it k))%list with
  | [] => None
  | vs => Some {| values := vs; label := str_of_key k ++ ".%%" |}
  end.

(** Keys in order of first appearance. *)
Definition first_seen (ks seen : list key) : list key :=
  fold_left (fun cols k =>
               if bool_decide (k ∈ cols) then cols else (cols ++ [k])%list)
            ks seen.

(** ** The messages of [check_validity] *)

Definition missing_type_message (str_data : data -> string) (d : data)
  : string :=
  "No 'type' entry found in sampler data " ++ str_data d.

Definition unknown_type_message (repr_float : float -> string) (t : scalar)
  : string :=
  "Sampler type " ++ py_str repr_float t ++ " not found in schema".

Definition invalid_message : string := "Sampler data is invalid".

(** ** Ranged parameters

    [has_range value]: the entry [value] of ['parameters'] has a ["min"]
    and a ["max"] of which Python computes [max - min], as the first loop
    of [get_samples] does. *)
Definition has_range (value : dict scalar) : Prop :=
  exists a b r,
    dict_get value (KStr "min") = Some a
    /\ dict_get value (KStr "max") = Some b
    /\ py_sub b a = Ok r.

(** [has_bounds value mn rg]: moreover Python computes a draw from them:
    [min] and [max - min] are floats or integers within the range of
    floats, [mn] and [rg] as floats. *)
Definition has_bounds (value : dict scalar) (mn rg : float) : Prop :=
  exists a b r,
    dict_get value (KStr "min") = Some a
    /\ dict_get value (KStr "max") = Some b
    /\ py_sub b a = Ok r
    /\ to_float a = Ok mn /\ to_float r = Ok rg.

(** What the first loop of [get_samples] stores for an entry, and what a
    draw with the fraction [f] gives. *)
Definition min_of (value : dict scalar) : scalar :=
  default (SInt 0) (dict_get value (KStr "min")).

Definition range_of (value : dict scalar) : scalar :=
  match py_sub (default (SInt 0) (dict_get value (KStr "max")))
               (min_of value) with
  | Ok r => r
  | Raise _ => SInt 0
  end.

Definition float_of (v : scalar) : float :=
  match to_float v with
  | Ok q => q
  | Raise _ => float_zero
  end.

(** [min + f * (max - min)] in floats: the product is rounded, then the
    sum. *)
Definition draw (mn rg f : float) : float :=
  float_add mn (float_mul f rg).

Definition draw_of (value : dict scalar) (f : float) : scalar :=
  SFloat (draw (float_of (min_of value)) (float_of (range_of value)) f).

(** The [random_dictionary] drawn from position [m] of the stream. *)
Definition row_at (random_random : nat -> float) (params : dict (dict scalar))
  (m : nat) : dict scalar :=
  imap (fun j kv => (kv.1, draw_of kv.2 (random_random (m + j)%nat))) params.

(** ** Downselection

    [points_at candidates ids] are the candidate points with the indices
    [ids]; [selectable candidates sp] counts the different points among
    the candidates after the first that are not among the points [sp];
    [nearest sel pos d] says that [d] is the distance from [pos] to a
    point of [sel] and that no point of [sel] is at a smaller distance;
    [reported sel pos] is what the tree built on [sel] answers for [pos];
    [apart candidates others] says that every candidate is at a positive
    distance, in floats, from each of the [others] that is a different
    point. *)
Definition points_at (candidates : list point) (ids : list nat)
  : list point :=
  omap (fun i => candidates !! i) ids.

Definition selectable (candidates sp : list point) : nat :=
  length (remove_dups (filter (fun p => p ∉ sp) (drop 1 candidates))).

Definition nearest (sel : list point) (pos : point) (d : float) : Prop :=
  (exists q, q ∈ sel /\ d = distance pos q)
  /\ forall q, q ∈ sel -> float_lt (distance pos q) d = false.

Definition reported (sel : list point) (pos : point) : option float :=
  match sel with
  | [] => None
  | p :: ps => Some (tree_query (p, ps) pos)
  end.

Definition apart (candidates others : list point) : bool :=
  forallb (fun c =>
             forallb (fun q =>
                        bool_decide (c = q)
                        || float_lt float_zero (distance c q))
                     others)
          candidates.

(** The record that [iloc] makes of a row. *)
Definition df_record (columns : list key) (row : sample) : sample :=
  omap (fun c => pair c <$> dict_get row c) columns.

(** ** The messages of the shared parameter checks *)

Definition duplicates_prefix : string :=
  "The following constants or parameters are defined more than once: ".

Definition not_strings_message : string :=
  "constants and parameters must be strings".

(** The keys of a block that may be missing. *)
Definition block_keys {V} (block : option (dict V)) : list key :=
  match block with
  | Some d => keys d
  | None => []
  end.

(** The state of the loop of [find_duplicates] after the elements [pre]:
    [seen] counts every element met, [dupes] holds those met twice or
    more, once each. *)
Definition dup_inv (pre : list key) (st : dict Z * list key) : Prop :=
  (forall k, dict_get st.1 k
             = if decide (count_occ key_eq_dec pre k = 0)%nat then None
               else Some (Z.of_nat (count_occ key_eq_dec pre k)))
  /\ (forall k, k ∈ st.2 <-> (2 <= count_occ key_eq_dec pre k)%nat)
  /\ NoDup st.2.

(** ** Example data *)

(** Pools of candidates over the columns [x] and [y]: five different
    points, and the same point twice. *)
Definition xy_data : data :=
  {| d_type := Some (SStr "best_candidate");
     d_num_samples := Some (SInt 3);
     d_previous_samples := None;
     d_constants := None;
     d_parameters :=
       Some [(KStr "x", [(KStr "min", SInt 0); (KStr "max", SInt 5)]);
             (KStr "y", [(KStr "min", SInt 0); (KStr "max", SInt 5)])] |}.

Definition xy (x y : Z) : sample := [(KStr "x", SInt x); (KStr "y", SInt y)].

Definition spread_pool : list sample :=
  [xy 0 0; xy 1 0; xy 5 5; xy 0 1; xy 3 3].

Definition twin_pool : list sample := [xy 2 2; xy 2 2].

(** Pools with coordinates that are floats: two different points so close
    that the squares of their coordinate differences round to zero, and a
    pool in which the second point is at distance 5 from the first and
    the third a little farther, by less than rounding keeps. *)
Definition xy_float (x y : float) : sample :=
  [(KStr "x", SFloat x); (KStr "y", SFloat y)].

Definition close_pool : list sample :=
  [xy_float float_zero float_zero;
   xy_float (float_of_dyadic 1 (-700)) float_zero].

Definition tie_pool : list sample :=
  [xy_float float_zero float_zero;
   xy_float (float_of_Z 3) (float_of_Z 4);
   xy_float (float_of_Z 5) (float_of_dyadic 1 (-30))].

(** The largest value of [random.random()], [1 - 2**-53], and the
    fractions [0, 1/8, 2/8, ...]. *)
Definition largest_fraction : float := float_of_dyadic (2 ^ 53 - 1) (-53).

Definition eighths (i : nat) : float := float_of_dyadic (Z.of_nat i) (-3).

(** The configuration of the docstring with [X1] also among the ranged
    parameters. *)
Definition docstring_shared_name_data : data :=
  {| d_type := Some (SStr "random");
     d_num_samples := Some (SInt 30);
     d_previous_samples := None;
     d_constants := Some [(KStr "X1", SInt 20)];
     d_parameters :=
       Some [(KStr "X1", [(KStr "min", SInt 5); (KStr "max", SInt 10)]);
             (KStr "X3", [(KStr "min", SInt 5); (KStr "max", SInt 10)])] |}.

(** A configuration with an integer name and with [X1] in both blocks. *)
Definition integer_name_data : data :=
  {| d_type := Some (SStr "random");
     d_num_samples := Some (SInt 2);
     d_previous_samples := None;
     d_constants := Some [(KInt 1, SInt 0); (KStr "X1", SInt 20)];
     d_parameters :=
       Some [(KStr "X1", [(KStr "min", SInt 5); (KStr "max", SInt 10)])] |}.

(** The text of a file with the lines [1,2,3] and [4,5,6]. *)
Definition two_rows : string :=
  "1,2,3" ++ String newline ("4,5,6" ++ String newline "").

(** A configuration of two samples over two ranged parameters, one with
    integer and one with float bounds. *)
Definition two_samples_data : data :=
  {| d_type := Some (SStr "random");
     d_num_samples := Some (SInt 2);
     d_previous_samples := None;
     d_constants := Some [(KStr "X1", SInt 20)];
     d_parameters :=
       Some [(KStr "X2", [(KStr "min", SInt 5); (KStr "max", SInt 10)]);
             (KStr "X3", [(KStr "min", SFloat (float_of_Z 8));
                          (KStr "max", SFloat (float_of_Z 0))])] |}.

(** A configuration with decimal bounds, as in the docstring of
    [RandomSampler]. *)
Definition docstring_data : data :=
  {| d_type := Some (SStr "random");
     d_num_samples := Some (SInt 30);
     d_previous_samples := None;
     d_constants := Some [(KStr "X1", SInt 20)];
     d_parameters :=
       Some [(KStr "X2", [(KStr "min", SInt 5); (KStr "max", SInt 10)]);
             (KStr "X3", [(KStr "min", SInt 5); (KStr "max", SInt 10)])] |}.

(** ** The messages of the existence check and of the bound checks *)

Definition existence_message : string :=
  "Either constants or parameters must be included in the sampler data".

Definition minimum_message : string :=
  "parameter must have a numeric minimum".

Definition maximum_message : string :=
  "parameter must have a numeric maximum".

(** An entry of ['parameters'] whose bounds are the scalars [a] and [b]. *)
Definition bounds_are (value : dict scalar) (a b : scalar) : Prop :=
  dict_get value (KStr "min") = Some a
  /\ dict_get value (KStr "max") = Some b.

(** Whether [str(v).isnumeric()] holds. *)
Definition numeric_text (repr_float : float -> string) (v : scalar) : bool :=
  isnumeric (py_str repr_float v).

(** A configuration whose second parameter has a negative minimum. *)
Definition negative_minimum_data : data :=
  {| d_type := Some (SStr "random");
     d_num_samples := Some (SInt 2);
     d_previous_samples := None;
     d_constants := None;
     d_parameters :=
       Some [(KStr "X2", [(KStr "min", SInt 5); (KStr "max", SInt 10)]);
             (KStr "X3", [(KStr "min", SInt (-5)); (KStr "max", SInt 10)])] |}.

(** A configuration without ranged parameters, and one that asks for no
    samples. *)
Definition constants_only_data : data :=
  {| d_type := Some (SStr "random");
     d_num_samples := Some (SInt 2);
     d_previous_samples := None;
     d_constants := Some [(KStr "X1", SInt 20)];
     d_parameters := None |}.

Definition no_samples_data : data :=
  {| d_type := Some (SStr "random");
     d_num_samples := Some (SInt 0);
     d_previous_samples := None;
     d_constants := Some [(KStr "X1", SInt 20)];
     d_parameters :=
       Some [(KStr "X2", [(KStr "min", SInt 5); (KStr "max", SInt 10)])] |}.

(** The message of [maestro_pgen] without the orchestrator. *)
Definition not_installed_message : string :=
  "maestrowf is not installed" ++ String newline
    "the maestro_pgen is not supported".

(** The triple registered for a key of the sample list. *)
Definition registered (samples : list sample) (k : key)
  : key * list scalar * string :=
  (k, column samples k, str_of_key k ++ ".%%").

(** The samples [get_samples] makes of the stream from position [n0]:
    [count] of them, each from the next fractions, one per parameter. *)
Definition samples_at (random_random : nat -> float) (d : data)
  (params : dict (dict scalar)) (n0 count : nat) : list sample :=
  (fun i => new_sample d (row_at random_random params
                                 (n0 + i * length params)%nat))
    <$> seq 0 count.

(** The messages of [downselect] before the selection starts. *)
Definition requires_pandas_message : string :=
  "This function requires pandas, numpy & scipy packages".

Definition previous_samples_message (path : string) : string :=
  "Error opening previous_samples datafile:" ++ path.

(** The records [downselect] leaves for the selected indices. *)
Definition selected_rows (samples : list sample) (ids : list nat)
  : list sample :=
  (fun j => df_record (df_columns (from_dict samples))
                      (default [] (samples !! j))) <$> ids.

(** A configuration that names a file of previous samples. *)
Definition xy_previous_data : data :=
  {| d_type := Some (SStr "best_candidate");
     d_num_samples := Some (SInt 3);
     d_previous_samples := Some "samples.csv";
     d_constants := None;
     d_parameters :=
       Some [(KStr "x", [(KStr "min", SInt 0); (KStr "max", SInt 5)]);
             (KStr "y", [(KStr "min", SInt 0); (KStr "max", SInt 5)])] |}.

(** The names of the keys of every sample of the random sampler. *)
Definition sample_keys (d : data) (params : dict (dict scalar)) : list key :=
  block_keys (d_constants d)
  ++ filter (fun k => k ∉ block_keys (d_constants d)) (keys params).

(** A configuration with an integer bound beyond the range of floats. *)
Definition huge_bound_data : data :=
  {| d_type := Some (SStr "random");
     d_num_samples := Some (SInt 1);
     d_previous_samples := None;
     d_constants := None;
     d_parameters :=
       Some [(KStr "X1", [(KStr "min", SInt 0);
                          (KStr "max", SInt (10 ^ 400))])] |}.

(** A factory for examples: its generator names the [num_samples] of the
    dictionary it is built from. *)
Definition num_samples_generator (d : data) : result pgen :=
  match d_num_samples d with
  | Some v => Ok [(KStr "num_samples", [v], "")]
  | None => Raise ValueError
  end.

End Props.

(* ===================================================================== *)
(** * Facts about dictionaries and loops *)
(* ===================================================================== *)

Module PyFacts.
Local Open Scope list_scope.

Section Dict.
Context {V : Type}.
Implicit Types (d e : dict V) (k : key) (v : V).

Lemma dict_get_set d k v k' :
  dict_get (dict_set d k v) k' =
  if decide (k' = k) then Some v else dict_get d k'.
Proof.
  induction d as [|[k0 v0] d IH]; simpl.
  - done.
  - destruct (decide (k = k0)) as [->|Hne]; simpl.
    + destruct (decide (k' = k0)); done.
    + rewrite IH. destruct (decide (k' = k0)) as [->|]; [|done].
      rewrite decide_False; [done|congruence].
Qed.

Lemma dict_get_None d k : dict_get d k = None <-> k ∉ keys d.
Proof.
  unfold keys. induction d as [|[k0 v0] d IH]; simpl.
  - split; [intros _; apply not_elem_of_nil|done].
  - rewrite not_elem_of_cons. destruct (decide (k = k0)); [|tauto].
    split; [done|tauto].
Qed.

Lemma dict_get_is_Some d k : is_Some (dict_get d k) <-> k ∈ keys d.
Proof.
  rewrite <- not_eq_None_Some, dict_get_None.
  split; [apply dec_stable|tauto].
Qed.

Lemma dict_get_elem_of d k v :
  dict_wf d -> (k, v) ∈ d -> dict_get d k = Some v.
Proof.
  unfold dict_wf, keys. induction d as [|[k0 v0] d IH]; simpl.
  - intros _ H. by apply elem_of_nil in H.
  - intros Hnd Hin. apply NoDup_cons in Hnd as [Hk0 Hnd].
    apply elem_of_cons in Hin as [Heq|Hin].
    + inversion Heq; subst. by rewrite decide_True.
    + rewrite decide_False; [by apply IH|].
      intros ->. apply Hk0. apply list_elem_of_fmap. by exists (k0, v).
Qed.

Lemma dict_get_Some_elem_of d k v : dict_get d k = Some v -> (k, v) ∈ d.
Proof.
  induction d as [|[k0 v0] d IH]; simpl; [done|].
  destruct (decide (k = k0)) as [->|].
  - intros [= ->]. apply elem_of_cons; by left.
  - intros H. apply elem_of_cons; right; by apply IH.
Qed.

(** Setting a key that is not there appends it. *)
Lemma dict_set_fresh d k v : k ∉ keys d -> dict_set d k v = d ++ [(k, v)].
Proof.
  unfold keys. induction d as [|[k0 v0] d IH]; simpl; [done|].
  rewrite not_elem_of_cons. intros [Hne Hnin].
  rewrite decide_False by done. by rewrite IH.
Qed.

(** Setting a key never changes the keys already there, nor their order. *)
Lemma keys_dict_set d k v :
  keys (dict_set d k v) = if decide (k ∈ keys d) then keys d else keys d ++ [k].
Proof.
  unfold keys. induction d as [|[k0 v0] d IH].
  - cbn. destruct (decide (k ∈ [])) as [H|]; [by apply elem_of_nil in H|done].
  - cbn [dict_set]. destruct (decide (k = k0)) as [->|Hne].
    + destruct (decide (k0 ∈ ((k0, v0) :: d).*1)) as [|H]; [done|].
      exfalso. apply H. cbn. apply elem_of_cons; by left.
    + rewrite fmap_cons, IH, fmap_cons. cbn [fst].
      destruct (decide (k ∈ d.*1)), (decide (k ∈ k0 :: d.*1)) as [H|H];
        try done.
      * exfalso. apply H. apply elem_of_cons; by right.
      * apply elem_of_cons in H as [|]; done.
Qed.

Lemma dict_wf_set d k v : dict_wf d -> dict_wf (dict_set d k v).
Proof.
  unfold dict_wf. rewrite keys_dict_set. intros Hnd.
  destruct (decide (k ∈ keys d)); [done|].
  apply NoDup_app. split_and!; [done| |apply NoDup_singleton].
  intros x Hx Hx'. apply list_elem_of_singleton in Hx'. by subst.
Qed.

Lemma dict_get_update_notin d e k :
  k ∉ keys e -> dict_get (dict_update d e) k = dict_get d k.
Proof.
  unfold dict_update, keys. revert d.
  induction e as [|[k0 v0] e IH]; intros d; simpl; [done|].
  rewrite not_elem_of_cons. intros [Hne Hnin].
  rewrite IH by done. rewrite dict_get_set. by rewrite decide_False.
Qed.

Lemma dict_get_update_in d e k v :
  dict_wf e -> (k, v) ∈ e -> dict_get (dict_update d e) k = Some v.
Proof.
  unfold dict_update, dict_wf, keys. revert d.
  induction e as [|[k0 v0] e IH]; intros d; simpl.
  - intros _ H. by apply elem_of_nil in H.
  - intros Hnd Hin. apply NoDup_cons in Hnd as [Hk0 Hnd].
    apply elem_of_cons in Hin as [Heq|Hin].
    + inversion Heq; subst.
      pose proof (dict_get_update_notin (dict_set d k0 v0) e k0 Hk0) as H.
      unfold dict_update in H. rewrite H, dict_get_set.
      by rewrite decide_True.
    + by apply IH.
Qed.

Lemma dict_update_is_Some d e k :
  is_Some (dict_get (dict_update d e) k)
  <-> is_Some (dict_get d k) \/ k ∈ keys e.
Proof.
  unfold dict_update, keys. revert d.
  induction e as [|[k0 v0] e IH]; intros d; simpl.
  - split; [by left|]. intros [H|H]; [done|by apply elem_of_nil in H].
  - rewrite IH, dict_get_set, elem_of_cons.
    destruct (decide (k = k0)) as [->|]; [|tauto].
    split; [intros _; right; by left|intros _; left; by eexists].
Qed.

Lemma dict_get_app d e k :
  dict_get (d ++ e) k = match dict_get d k with
                        | Some v => Some v
                        | None => dict_get e k
                        end.
Proof.
  induction d as [|[k0 v0] d IH]; simpl; [done|].
  by destruct (decide (k = k0)).
Qed.

(** Two dictionaries with the same keys in the same order and the same
    value at each key are the same. *)
Lemma dict_ext d e :
  keys d = keys e -> dict_wf d ->
  (forall k, k ∈ keys d -> dict_get d k = dict_get e k) -> d = e.
Proof.
  unfold dict_wf, keys. revert e.
  induction d as [|[k0 v0] d IH]; intros [|[k1 v1] e]; simpl; try done.
  intros [= <- Hk] Hnd Hget. apply NoDup_cons in Hnd as [Hk0 Hnd].
  pose proof (Hget k0 ltac:(apply elem_of_cons; by left)) as H0.
  rewrite !decide_True in H0 by done. injection H0 as <-.
  f_equal. apply IH; [done..|].
  intros k Hin. specialize (Hget k ltac:(apply elem_of_cons; by right)).
  rewrite !decide_False in Hget by (intros ->; done). done.
Qed.

Lemma dict_wf_update d e : dict_wf d -> dict_wf (dict_update d e).
Proof.
  unfold dict_update. revert d.
  induction e as [|[k0 v0] e IH]; intros d Hd; simpl; [done|].
  apply IH. by apply dict_wf_set.
Qed.
End Dict.

Lemma keys_fmap_snd {V W} (g : V -> W) (d : dict V) :
  keys (prod_map id g <$> d) = keys d.
Proof.
  unfold keys. rewrite <- list_fmap_compose. apply list_fmap_ext.
  by intros _ [k v] _.
Qed.

Lemma dict_get_fmap_snd {V W} (g : V -> W) (d : dict V) k :
  dict_get (prod_map id g <$> d) k = g <$> dict_get d k.
Proof.
  induction d as [|[k0 v0] d IH]; simpl; [done|].
  destruct (decide (k = k0)); [done|apply IH].
Qed.

(** ** Loops in the error monad *)

Lemma bind_Ok {A B} (a : A) (k : A -> result B) : (Ok a ≫= k) = k a.
Proof. reflexivity. Qed.

Lemma omap_cons_Some {A B} (f : A -> option B) a b l :
  f a = Some b -> omap f (a :: l) = b :: omap f l.
Proof. intros H. simpl. by rewrite H. Qed.

Lemma mapM_cons {A B} (f : A -> result B) a l :
  mapM f (a :: l) = b ← f a; bs ← mapM f l; Ok (b :: bs).
Proof. reflexivity. Qed.

Lemma mapM_Ok_length {A B} (f : A -> result B) l l' :
  mapM f l = Ok l' -> length l' = length l.
Proof.
  revert l'. induction l as [|a l IH]; intros l'; simpl.
  - by intros [= <-].
  - destruct (f a); simpl; [|done].
    destruct (mapM f l); simpl; [|done].
    intros [= <-]. simpl. f_equal. by apply IH.
Qed.

Lemma mapM_Ok_lookup {A B} (f : A -> result B) l l' i a :
  mapM f l = Ok l' -> l !! i = Some a ->
  exists b, l' !! i = Some b /\ f a = Ok b.
Proof.
  revert l' i. induction l as [|a0 l IH]; intros l' i; simpl; [done|].
  destruct (f a0) as [b0|] eqn:Hf; simpl; [|done].
  destruct (mapM f l) as [bs|] eqn:Hm; simpl; [|done].
  intros [= <-]. destruct i as [|i]; simpl.
  - intros [= ->]. by exists b0.
  - intros Hi. by apply (IH bs).
Qed.

Lemma mapM_Ok_Forall2 {A B} (f : A -> result B) l l' :
  mapM f l = Ok l' -> Forall2 (fun a b => f a = Ok b) l l'.
Proof.
  revert l'. induction l as [|a l IH]; intros l'; rewrite ?mapM_cons.
  - intros [= <-]. constructor.
  - destruct (f a) as [b|] eqn:Hf; [|done]. rewrite bind_Ok.
    destruct (mapM f l) as [bs|]; [|done]. rewrite bind_Ok.
    intros [= <-]. constructor; [done|by apply IH].
Qed.

Lemma mapM_all_Ok {A B} (f : A -> result B) (g : A -> B) l :
  (forall a, a ∈ l -> f a = Ok (g a)) -> mapM f l = Ok (g <$> l).
Proof.
  induction l as [|a l IH]; intros H; simpl; [done|].
  rewrite H by (apply elem_of_cons; by left). simpl.
  rewrite IH; [done|]. intros b Hb. apply H. apply elem_of_cons; by right.
Qed.

End PyFacts.

(* ===================================================================== *)
(** * [RandomSampler.is_valid] and the classes above it *)
(* ===================================================================== *)

Module IsValidFacts.
Import Props.

Lemma super_is_valid_missing :
  super_getattr CRandomSampler CRandomSampler "is_valid" = None.
Proof. reflexivity. Qed.

(** C10.  For every [RandomSampler] instance, whatever its configuration,
    [is_valid] raises an attribute-lookup error: it asks the classes above
    [RandomSampler] for [is_valid], and none of [BaseSampler],
    [SamplerInterface], [ABC] and [object] binds that name ([BaseSampler]
    binds [check_validity]).  The outcome does not depend on how an
    inherited [is_valid] would run, nor on the configuration, so neither
    the shared parameter checks nor the bound checks are ever reached. *)
Theorem is_valid_raises_attribute_error
  (repr_float : float -> string) (str_set : list key -> string)
  (inherited_is_valid : class -> sampler -> result bool) (self : sampler) :
  is_valid repr_float str_set inherited_is_valid self
  = Raise (AttributeError "'super' object has no attribute 'is_valid'")
  /\ (forall c, c ∈ mro CRandomSampler -> c ≠ CRandomSampler ->
                "is_valid" ∉ class_dict c)
  /\ "check_validity" ∈ class_dict CBaseSampler.
Proof.
  split; [|split].
  - unfold is_valid. by rewrite super_is_valid_missing.
  - intros c Hc Hne.
    assert (Hb : bool_decide ("is_valid" ∈ class_dict c) = false).
    { destruct c; [done|reflexivity..]. }
    by apply (bool_decide_eq_false _) in Hb.
  - by apply (bool_decide_unpack _).
Qed.

(** C4 (evaluation at the failing input).  On the configuration of the
    docstring every bound is a decimal number and the shared checks and
    the bound checks pass, yet [is_valid] does not return [True]: it
    raises the attribute-lookup error. *)
Theorem is_valid_docstring_data_raises
  (repr_float : float -> string) (str_set : list key -> string)
  (inherited_is_valid : class -> sampler -> result bool) :
  let self := __init__ docstring_data in
  _check_variables parameters str_set self = Ok tt
  /\ check_bounds repr_float self = Ok tt
  /\ is_valid repr_float str_set inherited_is_valid self
     = Raise (AttributeError "'super' object has no attribute 'is_valid'").
Proof. split; [|split]; reflexivity. Qed.

End IsValidFacts.

(* ===================================================================== *)
(** * [get_custom_generator] *)
(* ===================================================================== *)

Module PgenFacts.
Import Props.

(** C3 (evaluation at the failing input).  With the keyword argument
    supplied and an environment whose lookup raises [ValueError], the
    adapter does not use the keyword: it raises the error that asks for
    SAMPLE_DICTIONARY.  With an environment whose lookup finds nothing it
    raises an attribute error instead. *)
Theorem keyword_lost_when_lookup_fails
  (build : data -> result pgen) (d : data) :
  get_custom_generator build (fun _ => Raise ValueError)
                       [("sample_dictionary", d)]
  = Raise (Exception required)
  /\ get_custom_generator build (fun _ => Ok None)
                          [("sample_dictionary", d)]
     = Raise (AttributeError "'NoneType' object has no attribute 'value'").
Proof. split; reflexivity. Qed.

End PgenFacts.

(* ===================================================================== *)
(** * [BaseSampler.check_validity] *)
(* ===================================================================== *)

Module ValidityFacts.
Import Props.

(** C7.  [check_validity] returns normally when validation succeeds, and
    otherwise raises with the missing-type message when there is no
    ['type'] key, with the unknown-type message, which embeds the
    ['type'] value of the configuration, when the type is not an allowed
    strategy key, and with the invalid-schema message when the block does
    not fit the schema of its type.  The three messages are pairwise
    different whatever text is embedded in them. *)
Theorem check_validity_three_messages
  (repr_float : float -> string) (str_data : data -> string)
  (schema_ok : string -> data -> bool) (self : sampler) :
  check_validity repr_float str_data schema_ok self
  = match d_type (_data self) with
    | None =>
        Raise (SamplingError (missing_type_message str_data (_data self)))
    | Some t =>
        match t with
        | SStr s =>
            if bool_decide (s ∈ ALLOWED_SAMPLING_KEYS) then
              if schema_ok s (_data self) then Ok tt
              else Raise (SamplingError invalid_message)
            else Raise (SamplingError (unknown_type_message repr_float t))
        | _ => Raise (SamplingError (unknown_type_message repr_float t))
        end
    end
  /\ (forall d t, missing_type_message str_data d
                  ≠ unknown_type_message repr_float t)
  /\ (forall d, missing_type_message str_data d ≠ invalid_message)
  /\ (forall t, unknown_type_message repr_float t ≠ invalid_message).
Proof.
  split; [|split_and!].
  - unfold check_validity, validate_sampler.
    destruct (d_type (_data self)) as [[z|q|s]|]; simpl; try done.
    destruct (bool_decide (s ∈ ALLOWED_SAMPLING_KEYS)); [|done].
    by destruct (schema_ok s (_data self)).
  - intros d t. unfold missing_type_message, unknown_type_message. simpl.
    discriminate.
  - intros d. unfold missing_type_message, invalid_message. simpl.
    discriminate.
  - intros t. unfold unknown_type_message, invalid_message. simpl.
    discriminate.
Qed.

End ValidityFacts.


(* ===================================================================== *)
(** * The helpers of [scisample/utils.py] *)
(* ===================================================================== *)

Module UtilsFacts.
Import Props.

Lemma append_empty_r (s : string) : s ++ "" = s.
Proof.
  induction s as [|c s IH]; [done|].
  change (String c (s ++ "") = String c s). by rewrite IH.
Qed.

(** ** Formatting *)

Lemma str_format_field a args rest :
  str_format (String "{" (String "}" rest)) (a :: args)
  = r ← str_format rest args; Ok (a ++ r).
Proof. reflexivity. Qed.

Lemma str_format_comma c rest args :
  str_format (String "," (String c rest)) args
  = r ← str_format (String c rest) args; Ok (String "," r).
Proof. reflexivity. Qed.

Lemma format_string_SS n :
  join "," (repeat "{}" (S (S n)))
  = String "{" (String "}" (String "," (join "," (repeat "{}" (S n))))).
Proof. reflexivity. Qed.

Lemma format_string_S n :
  exists c r, join "," (repeat "{}" (S n)) = String c r.
Proof. destruct n; do 2 eexists; reflexivity. Qed.

Lemma str_format_fields (a : string) (row : list string) :
  str_format (join "," (repeat "{}" (S (length row)))) (a :: row)
  = Ok (join "," (a :: row)).
Proof.
  revert a. induction row as [|b row IH]; intros a.
  - cbn. by rewrite append_empty_r.
  - cbn [length]. rewrite format_string_SS, str_format_field.
    destruct (format_string_S (length row)) as (c & r & Hr).
    rewrite Hr, str_format_comma, <- Hr, IH. reflexivity.
Qed.

Lemma list_to_csv_join (row : list string) :
  row ≠ [] -> list_to_csv row = Ok (join "," row).
Proof.
  destruct row as [|a row]; [done|]. intros _. apply str_format_fields.
Qed.

(** ** Stripping *)

Lemma lstrip_id s : not_space (first_char s) = true -> lstrip s = s.
Proof. destruct s as [|c s]; simpl; [done|]. by destruct (is_space c). Qed.

Lemma last_char_None s : last_char s = None -> s = "".
Proof.
  destruct s as [|c s]; simpl; [done|]. by destruct (last_char s).
Qed.

Lemma rstrip_id s : not_space (last_char s) = true -> rstrip s = s.
Proof.
  induction s as [|c s IH]; simpl; [done|].
  destruct (last_char s) as [c'|] eqn:Hl; simpl; intros H.
  - rewrite IH by done. destruct s; [done|reflexivity].
  - apply last_char_None in Hl as ->. simpl.
    by destruct (is_space c).
Qed.

Lemma strip_id s :
  not_space (first_char s) = true -> not_space (last_char s) = true ->
  strip s = s.
Proof.
  intros Hf Hl. unfold strip. rewrite lstrip_id by done. by apply rstrip_id.
Qed.

Lemma first_char_app s t :
  first_char (s ++ t) = match first_char s with
                        | Some c => Some c
                        | None => first_char t
                        end.
Proof. by destruct s. Qed.

Lemma last_char_app s t :
  last_char (s ++ t) = match last_char t with
                       | Some c => Some c
                       | None => last_char s
                       end.
Proof.
  induction s as [|c s IH].
  - change ("" ++ t) with t. by destruct (last_char t).
  - change (String c s ++ t) with (String c (s ++ t)). cbn [last_char].
    rewrite IH. by destruct (last_char t), (last_char s).
Qed.

Lemma join_cons2 sep (a b : string) (l : list string) :
  join sep (a :: b :: l) = a ++ sep ++ join sep (b :: l).
Proof. reflexivity. Qed.

Lemma join_clean (row : list string) :
  row ≠ [] -> Forall (fun s => clean_field s = true) row ->
  not_space (first_char (join "," row)) = true
  /\ not_space (last_char (join "," row)) = true.
Proof.
  induction row as [|a [|b row] IH]; intros Hne Hall; [done| |].
  - apply Forall_cons in Hall as [Ha _]. unfold clean_field in Ha.
    apply andb_prop in Ha as [Ha Hl]. apply andb_prop in Ha as [_ Hf].
    done.
  - apply Forall_cons in Hall as [Ha Hall]. unfold clean_field in Ha.
    apply andb_prop in Ha as [Ha Hl]. apply andb_prop in Ha as [_ Hf].
    destruct (IH ltac:(done) Hall) as [_ IHl].
    rewrite join_cons2, first_char_app, last_char_app.
    change ("," ++ join "," (b :: row))
      with (String comma (join "," (b :: row))).
    cbn [first_char last_char]. split.
    + by destruct (first_char a).
    + by destruct (last_char (join "," (b :: row))).
Qed.

(** ** Splitting *)

Lemma split_no_comma s : no_comma s = true -> split comma s = [s].
Proof.
  unfold no_comma. induction s as [|c s IH]; simpl; [done|].
  intros H. apply andb_prop in H as [Hc Hs].
  apply negb_true_iff in Hc. rewrite Hc, IH by done. done.
Qed.

Lemma split_app_comma a t :
  no_comma a = true -> split comma (a ++ String comma t) = a :: split comma t.
Proof.
  unfold no_comma. induction a as [|c a IH]; intros H.
  - reflexivity.
  - simpl in H. apply andb_prop in H as [Hc Ha].
    apply negb_true_iff in Hc.
    change (String c a ++ String comma t) with (String c (a ++ String comma t)).
    cbn [split]. rewrite Hc, IH by done. done.
Qed.

Lemma split_join (row : list string) :
  row ≠ [] -> Forall (fun s => clean_field s = true) row ->
  split comma (join "," row) = row.
Proof.
  induction row as [|a [|b row] IH]; intros Hne Hall; [done| |].
  - apply Forall_cons in Hall as [Ha _]. unfold clean_field in Ha.
    apply andb_prop in Ha as [Ha _]. apply andb_prop in Ha as [Ha _].
    by apply split_no_comma.
  - apply Forall_cons in Hall as [Ha Hall]. unfold clean_field in Ha.
    apply andb_prop in Ha as [Ha _]. apply andb_prop in Ha as [Ha _].
    rewrite join_cons2.
    change ("," ++ join "," (b :: row))
      with (String comma (join "," (b :: row))).
    rewrite split_app_comma by done. by rewrite IH.
Qed.

(** C9.  Reading a file whose lines are [1,2,3] and [4,5,6] gives the two
    rows of three fields; transposing them gives the three columns; and a
    non-empty row of fields without commas and without white space at
    either end, formatted by [list_to_csv] and split as [read_csv] splits
    a line, comes back unchanged. *)
Theorem csv_read_transpose_round_trip :
  (forall (fs : string -> option string) (filename : string),
      fs filename = Some two_rows ->
      read_csv fs filename = Ok [["1"; "2"; "3"]; ["4"; "5"; "6"]])
  /\ transpose_tabular [["1"; "2"; "3"]; ["4"; "5"; "6"]]
     = [["1"; "4"]; ["2"; "5"]; ["3"; "6"]]
  /\ (forall row : list string,
         row ≠ [] ->
         Forall (fun s => clean_field s = true) row ->
         exists line,
           list_to_csv row = Ok line /\ split comma (strip line) = row).
Proof.
  split_and!.
  - intros fs filename Hfs. unfold read_csv, open_read. by rewrite Hfs.
  - reflexivity.
  - intros row Hne Hall. exists (join "," row). split.
    + by apply list_to_csv_join.
    + destruct (join_clean row Hne Hall) as [Hf Hl].
      rewrite strip_id by done. by apply split_join.
Qed.

Lemma csv_read_transpose_round_trip_witness :
  exists line,
    list_to_csv ["X1"; "5.5"; ""; "a b"] = Ok line
    /\ split comma (strip line) = ["X1"; "5.5"; ""; "a b"].
Proof.
  apply (proj2 (proj2 csv_read_transpose_round_trip)).
  - discriminate.
  - repeat constructor.
Defined.

End UtilsFacts.

(* ===================================================================== *)
(** * The parameter block *)
(* ===================================================================== *)

Module BlockFacts.
Import Props PyFacts.
Local Open Scope list_scope.

Lemma keys_add_value (B : dict pentry) k v :
  keys (add_value B k v)
  = if bool_decide (k ∈ keys B) then keys B else keys B ++ [k].
Proof.
  unfold add_value, dict_mem.
  destruct (dict_get B k) as [e|] eqn:Hg.
  - rewrite bool_decide_eq_true_2 by eauto. rewrite Hg.
    assert (Hin : k ∈ keys B) by (apply dict_get_is_Some; eauto).
    rewrite keys_dict_set, decide_True by done.
    by rewrite bool_decide_eq_true_2.
  - rewrite bool_decide_eq_false_2 by (intros [? ?]; congruence).
    assert (Hnin : k ∉ keys B) by by apply dict_get_None.
    rewrite dict_get_set, decide_True by done.
    rewrite keys_dict_set, (keys_dict_set B).
    rewrite (decide_False (P := k ∈ keys B)) by done.
    rewrite decide_True
      by (apply elem_of_app; right; by apply list_elem_of_singleton).
    by rewrite bool_decide_eq_false_2.
Qed.

Lemma dict_get_add_value (B : dict pentry) k v k' :
  dict_get (add_value B k v) k'
  = if decide (k' = k) then
      Some {| values := match dict_get B k with
                        | Some e => values e
                        | None => []
                        end ++ [v];
              label := match dict_get B k with
                       | Some e => label e
                       | None => (str_of_key k ++ ".%%")%string
                       end |}
    else dict_get B k'.
Proof.
  unfold add_value, dict_mem.
  destruct (dict_get B k) as [e|] eqn:Hg.
  - rewrite bool_decide_eq_true_2 by eauto. rewrite Hg.
    by rewrite dict_get_set.
  - rewrite bool_decide_eq_false_2 by (intros [? ?]; congruence).
    rewrite dict_get_set, decide_True by done.
    rewrite !dict_get_set. destruct (decide (k' = k)); [done|].
    done.
Qed.

Lemma keys_fold_add_value (it : sample) (B : dict pentry) :
  keys (fold_left (fun b kv => add_value b kv.1 kv.2) it B)
  = first_seen (keys it) (keys B).
Proof.
  revert B. induction it as [|[k v] it IH]; intros B; [done|].
  cbn [fold_left]. rewrite IH, keys_add_value. reflexivity.
Qed.

(** The keys of the block are the column labels of the data frame of the
    same samples: all keys, in order of first appearance. *)
Lemma keys_block_of_samples (samples : list sample) :
  keys (block_of_samples samples) = df_columns (from_dict samples).
Proof.
  unfold block_of_samples, from_dict. cbn [df_columns].
  assert (Hgen : forall B : dict pentry,
             keys (fold_left
                     (fun block sample =>
                        fold_left (fun b kv => add_value b kv.1 kv.2)
                                  sample block) samples B)
             = fold_left (fun cols r => first_seen (keys r) cols)
                         samples (keys B)).
  { induction samples as [|s samples IH]; intros B; [done|].
    cbn [fold_left]. rewrite IH, keys_fold_add_value. reflexivity. }
  apply (Hgen []).
Qed.

Lemma block_get_step (pre : list sample) (it1 : sample) (B : dict pentry)
  k0 v0 :
  k0 ∉ keys it1 ->
  (forall k, dict_get B k = block_get pre it1 k) ->
  forall k, dict_get (add_value B k0 v0) k
            = block_get pre (it1 ++ [(k0, v0)]) k.
Proof.
  intros Hnin HB k. rewrite dict_get_add_value. unfold block_get.
  rewrite dict_get_app. destruct (decide (k = k0)) as [->|Hne].
  - rewrite HB. unfold block_get.
    apply dict_get_None in Hnin. rewrite Hnin. cbn [option_list].
    rewrite app_nil_r. cbn. rewrite decide_True by done. cbn.
    by destruct (column pre k0).
  - rewrite HB. unfold block_get. cbn. rewrite decide_False by done.
    by destruct (dict_get it1 k).
Qed.

Lemma block_get_fold (pre : list sample) (it2 it1 : sample)
  (B : dict pentry) :
  dict_wf (it1 ++ it2) ->
  (forall k, dict_get B k = block_get pre it1 k) ->
  forall k, dict_get (fold_left (fun b kv => add_value b kv.1 kv.2) it2 B) k
            = block_get pre (it1 ++ it2) k.
Proof.
  revert it1 B. induction it2 as [|[k0 v0] it2 IH]; intros it1 B Hwf HB k.
  - by rewrite app_nil_r.
  - cbn [fold_left fst snd].
    replace (it1 ++ (k0, v0) :: it2) with ((it1 ++ [(k0, v0)]) ++ it2)
      by by rewrite <- app_assoc.
    apply IH.
    + by rewrite <- app_assoc.
    + apply block_get_step; [|done].
      unfold dict_wf, keys in Hwf. rewrite fmap_app in Hwf.
      apply NoDup_app in Hwf as (_ & Hdis & _). intros Hin.
      apply (Hdis k0 Hin). cbn. apply elem_of_cons; by left.
Qed.

Lemma block_get_next (pre : list sample) (s : sample) k :
  block_get pre s k = block_get (pre ++ [s]) [] k.
Proof.
  unfold block_get, column. rewrite omap_app. cbn.
  rewrite !app_nil_r. by destruct (dict_get s k).
Qed.

(** What the block holds for a key: the values the samples give to it, in
    sample order, under the label made of the key; no entry when no sample
    has the key. *)
Lemma dict_get_block_of_samples (samples : list sample) k :
  Forall dict_wf samples ->
  dict_get (block_of_samples samples) k = block_get samples [] k.
Proof.
  unfold block_of_samples. intros Hwf.
  assert (Hgen : forall pre (B : dict pentry),
             (forall k, dict_get B k = block_get pre [] k) ->
             forall k,
               dict_get (fold_left
                           (fun block sample =>
                              fold_left (fun b kv => add_value b kv.1 kv.2)
                                        sample block) samples B) k
               = block_get (pre ++ samples) [] k).
  { induction Hwf as [|s samples Hs Hwf IH]; intros pre B HB k'.
    - by rewrite app_nil_r.
    - cbn [fold_left].
      replace (pre ++ s :: samples) with ((pre ++ [s]) ++ samples)
        by by rewrite <- app_assoc.
      apply IH. intros k''. rewrite <- block_get_next.
      by apply (block_get_fold pre s []). }
  apply (Hgen [] []). intros k'. reflexivity.
Qed.

(** ** Samples that share their keys *)

Lemma first_seen_subset (ks seen : list key) :
  (forall k, k ∈ ks -> k ∈ seen) -> first_seen ks seen = seen.
Proof.
  unfold first_seen. induction ks as [|k ks IH]; intros H; [done|].
  cbn [fold_left].
  rewrite bool_decide_eq_true_2 by (apply H, elem_of_cons; by left).
  apply IH. intros k' Hk'. apply H, elem_of_cons. by right.
Qed.

Lemma first_seen_fresh (ks seen : list key) :
  NoDup (seen ++ ks) -> first_seen ks seen = seen ++ ks.
Proof.
  unfold first_seen. revert seen.
  induction ks as [|k ks IH]; intros seen Hnd.
  - by rewrite app_nil_r.
  - cbn [fold_left]. apply NoDup_app in Hnd as Hnd'.
    destruct Hnd' as (_ & Hdis & _).
    rewrite bool_decide_eq_false_2.
    + rewrite IH; rewrite <- app_assoc; done.
    + intros Hin. apply (Hdis k Hin). apply elem_of_cons; by left.
Qed.

Lemma df_columns_shared (s0 : sample) (rest : list sample) :
  dict_wf s0 ->
  Forall (fun s => keys s ≡ₚ keys s0) rest ->
  df_columns (from_dict (s0 :: rest)) = keys s0.
Proof.
  intros Hwf Hall. unfold from_dict. cbn [df_columns fold_left].
  fold (first_seen (keys s0) []). rewrite first_seen_fresh by done.
  cbn [app]. induction Hall as [|s rest Hs Hall IH]; [done|].
  cbn [fold_left]. fold (first_seen (keys s) (keys s0)).
  rewrite first_seen_subset; [done|]. intros k Hk. by rewrite <- Hs.
Qed.

Lemma column_total (samples : list sample) k :
  Forall (fun s => k ∈ keys s) samples ->
  length (column samples k) = length samples
  /\ forall i s, samples !! i = Some s ->
                 column samples k !! i = dict_get s k.
Proof.
  unfold column. induction 1 as [|s samples Hs Hall [IHl IHi]]; [done|].
  apply dict_get_is_Some in Hs as [v Hv]. cbn. rewrite Hv. cbn. split.
  - by rewrite IHl.
  - intros [|i] s'; cbn; [by intros [= <-]|apply IHi].
Qed.

Lemma mapM_dict_index (samples : list sample) k :
  Forall (fun s => k ∈ keys s) samples ->
  mapM (fun sample => dict_index sample k) samples = Ok (column samples k).
Proof.
  unfold column. induction 1 as [|s samples Hs Hall IH]; [done|].
  apply dict_get_is_Some in Hs as [v Hv]. rewrite mapM_cons, IH.
  rewrite (omap_cons_Some (fun s => dict_get s k) s v samples Hv).
  unfold dict_index. by rewrite Hv.
Qed.

Lemma dict_get_tabulate {V} (g : key -> V) (ks : list key) k :
  dict_get ((fun k => (k, g k)) <$> ks) k
  = if decide (k ∈ ks) then Some (g k) else None.
Proof.
  induction ks as [|k0 ks IH]; cbn.
  - rewrite decide_False; [done|apply not_elem_of_nil].
  - destruct (decide (k = k0)) as [->|Hne].
    + rewrite decide_True; [done|apply elem_of_cons; by left].
    + rewrite IH. destruct (decide (k ∈ ks)), (decide (k ∈ k0 :: ks)) as [H|H];
        try done.
      * exfalso. apply H, elem_of_cons. by right.
      * apply elem_of_cons in H as [|]; done.
Qed.

Lemma keys_tabulate {V} (g : key -> V) (ks : list key) :
  keys ((fun k => (k, g k)) <$> ks) = ks.
Proof.
  unfold keys. rewrite <- list_fmap_compose. apply list_fmap_id.
Qed.

Lemma all_have_key (s0 : sample) (samples : list sample) k :
  Forall (fun s => keys s ≡ₚ keys s0) samples -> k ∈ keys s0 ->
  Forall (fun s => k ∈ keys s) samples.
Proof.
  intros Hall Hk. eapply Forall_impl; [exact Hall|].
  intros s Hs. cbn in Hs. by rewrite Hs.
Qed.

(** With shared keys the block is the table of the columns, keyed in the
    order of the first sample. *)
Lemma block_of_samples_shared (s0 : sample) (rest : list sample) :
  Forall dict_wf (s0 :: rest) ->
  Forall (fun s => keys s ≡ₚ keys s0) (s0 :: rest) ->
  block_of_samples (s0 :: rest)
  = (fun k => (k, block_entry (s0 :: rest) k)) <$> keys s0.
Proof.
  intros Hwf Hall.
  assert (Hk : keys (block_of_samples (s0 :: rest)) = keys s0).
  { rewrite keys_block_of_samples. apply df_columns_shared.
    - by apply Forall_cons in Hwf as [? _].
    - by apply Forall_cons in Hall as [_ ?]. }
  apply dict_ext.
  - by rewrite keys_tabulate.
  - unfold dict_wf. rewrite Hk. by apply Forall_cons in Hwf as [? _].
  - intros k Hin. rewrite Hk in Hin.
    rewrite dict_get_block_of_samples, dict_get_tabulate by done.
    rewrite decide_True by done. unfold block_get, block_entry.
    cbn [dict_get option_list]. rewrite app_nil_r.
    destruct (column_total (s0 :: rest) k) as [Hlen _].
    { by eapply all_have_key. }
    destruct (column (s0 :: rest) k); [done|reflexivity].
Qed.

Lemma convert_shared (s0 : sample) (rest : list sample) :
  Forall dict_wf (s0 :: rest) ->
  Forall (fun s => keys s ≡ₚ keys s0) (s0 :: rest) ->
  _convert_dict_to_maestro_params (s0 :: rest)
  = Ok ((fun k => (k, block_entry (s0 :: rest) k)) <$> keys s0).
Proof.
  intros Hwf Hall. unfold _convert_dict_to_maestro_params. cbn [mbind].
  unfold mbind, result_bind.
  apply Forall_cons in Hwf as [Hwf0 _]. unfold dict_wf in Hwf0.
  set (samples := s0 :: rest) in *.
  assert (Hgen : forall ks (acc : dict pentry),
             NoDup (keys acc ++ ks) ->
             (forall k, k ∈ ks -> k ∈ keys s0) ->
             foldlM (fun parameters key =>
                       vs ← mapM (fun sample => dict_index sample key) samples;
                       Ok (dict_set parameters key
                             {| values := vs;
                                label := (str_of_key key ++ ".%%")%string |}))
                    ks acc
             = Ok (acc ++ ((fun k => (k, block_entry samples k)) <$> ks))).
  { induction ks as [|k ks IH]; intros acc Hnd Hsub.
    - cbn. by rewrite app_nil_r.
    - cbn [foldlM]. rewrite mapM_dict_index.
      2:{ eapply all_have_key; [exact Hall|].
          apply Hsub, elem_of_cons. by left. }
      cbn. apply NoDup_app in Hnd as Hnd'. destruct Hnd' as (_ & Hdis & _).
      rewrite dict_set_fresh.
      2:{ intros Hin. apply (Hdis k Hin), elem_of_cons. by left. }
      unfold mbind, result_bind in IH. rewrite IH.
      + rewrite <- app_assoc. reflexivity.
      + unfold keys. rewrite fmap_app. cbn. rewrite <- app_assoc. done.
      + intros k' Hk'. apply Hsub, elem_of_cons. by right. }
  apply (Hgen (keys s0) []); [done|done].
Qed.

(** C8.  For a sample list of [N >= 1] samples that share their [K] keys,
    the parameter block has exactly [K] entries, keyed in the order of the
    first sample; the entry of a key holds [N] values, the values the
    samples give to that key in sample order, and its label is the key
    followed by [.%%].  [_convert_dict_to_maestro_params] returns the same
    structure, and the [parameter_block] property returns it and caches
    it. *)
Theorem parameter_block_shape (s0 : sample) (rest : list sample) :
  Forall dict_wf (s0 :: rest) ->
  Forall (fun s => keys s ≡ₚ keys s0) (s0 :: rest) ->
  let samples := s0 :: rest in
  let block := block_of_samples samples in
  keys block = keys s0
  /\ length block = length (keys s0)
  /\ (forall k, k ∈ keys s0 ->
        exists e, dict_get block k = Some e
                  /\ label e = (str_of_key k ++ ".%%")%string
                  /\ length (values e) = length samples
                  /\ forall i s, samples !! i = Some s ->
                                 values e !! i = dict_get s k)
  /\ _convert_dict_to_maestro_params samples = Ok block
  /\ (forall (get_samples : method (list sample)) self n self' n',
        _parameter_block self = None ->
        get_samples (set_parameter_block self []) n = (Ok samples, self', n') ->
        parameter_block get_samples self n
        = (Ok block, set_parameter_block self' block, n')).
Proof.
  intros Hwf Hall samples block.
  assert (Hb : block = (fun k => (k, block_entry samples k)) <$> keys s0)
    by by apply block_of_samples_shared.
  split_and!.
  - by rewrite Hb, keys_tabulate.
  - by rewrite Hb, length_fmap.
  - intros k Hk. exists (block_entry samples k).
    rewrite Hb, dict_get_tabulate, decide_True by done.
    destruct (column_total samples k) as [Hlen Hi].
    { by eapply all_have_key. }
    done.
  - rewrite Hb. by apply convert_shared.
  - intros get_samples self n self' n' Hnone Hget.
    unfold parameter_block. by rewrite Hnone, Hget.
Qed.

Lemma parameter_block_shape_witness :
  let samples := [[(KStr "X1", SInt 20); (KStr "X2", SInt 5)];
                  [(KStr "X2", SInt 7); (KStr "X1", SInt 20)]] in
  keys (block_of_samples samples) = [KStr "X1"; KStr "X2"]
  /\ _convert_dict_to_maestro_params samples = Ok (block_of_samples samples).
Proof.
  intros samples.
  assert (Hwf : Forall dict_wf samples).
  { repeat constructor; by apply (bool_decide_unpack _). }
  assert (Hall : Forall (fun s => keys s ≡ₚ [KStr "X1"; KStr "X2"]) samples).
  { repeat constructor. }
  destruct (parameter_block_shape _ _ Hwf Hall) as (H1 & _ & _ & H4 & _).
  split; [exact H1|exact H4].
Defined.

End BlockFacts.

(* ===================================================================== *)
(** * The parameter names and the shared checks *)
(* ===================================================================== *)

Module NamesFacts.
Import Props PyFacts.
Local Open Scope list_scope.

(** ** [find_duplicates] *)

Lemma dup_inv_step (pre : list key) (st : dict Z * list key) (x : key) :
  dup_inv pre st ->
  dup_inv (pre ++ [x])
    (let '(seen, dupes) := st in
     match dict_get seen x with
     | None => (dict_set seen x 1%Z, dupes)
     | Some n =>
         (dict_set seen x (n + 1)%Z,
          if (n =? 1)%Z then dupes ++ [x] else dupes)
     end).
Proof.
  destruct st as [seen dupes]. intros (Hseen & Hdup & Hnd). cbn in *.
  assert (Hc : forall k, count_occ key_eq_dec (pre ++ [x]) k
                         = (count_occ key_eq_dec pre k
                            + if decide (k = x) then 1 else 0)%nat).
  { intros k. rewrite count_occ_app. cbn.
    destruct (key_eq_dec x k), (decide (k = x)); congruence || lia. }
  pose proof (Hseen x) as Hx.
  destruct (dict_get seen x) as [n|] eqn:Hg; unfold dup_inv; cbn.
  - destruct (decide (count_occ key_eq_dec pre x = 0)%nat) as [|Hpos];
      [done|]. injection Hx as ->. split_and!.
    + intros k. rewrite dict_get_set, Hc, Hseen.
      destruct (decide (k = x)) as [->|].
      * rewrite decide_False by lia. f_equal. lia.
      * rewrite Nat.add_0_r. done.
    + intros k. rewrite Hc.
      destruct (Z.of_nat (count_occ key_eq_dec pre x) =? 1)%Z eqn:E.
      * apply Z.eqb_eq in E. rewrite elem_of_app, list_elem_of_singleton, Hdup.
        destruct (decide (k = x)) as [->|];
          (split; [intros [?|?]; [lia|done || lia]
                  |intros ?; first [left; lia|by right]]).
      * apply Z.eqb_neq in E. rewrite Hdup.
        destruct (decide (k = x)) as [->|]; lia.
    + destruct (Z.of_nat (count_occ key_eq_dec pre x) =? 1)%Z eqn:E; [|done].
      apply Z.eqb_eq in E. apply NoDup_app. split_and!; [done| |].
      * intros k Hk Hk'. apply list_elem_of_singleton in Hk' as ->.
        apply Hdup in Hk. lia.
      * apply NoDup_singleton.
  - destruct (decide (count_occ key_eq_dec pre x = 0)%nat) as [Hz|];
      [|done]. split_and!.
    + intros k. rewrite dict_get_set, Hc, Hseen.
      destruct (decide (k = x)) as [->|].
      * rewrite Hz. cbn. done.
      * rewrite Nat.add_0_r. done.
    + intros k. rewrite Hc, Hdup.
      destruct (decide (k = x)) as [->|]; lia.
    + done.
Qed.

(** [find_duplicates] returns the elements that occur at least twice, each
    of them once. *)
Lemma find_duplicates_spec (lst : list key) :
  (forall k, k ∈ find_duplicates lst <-> (2 <= count_occ key_eq_dec lst k)%nat)
  /\ NoDup (find_duplicates lst).
Proof.
  unfold find_duplicates.
  assert (Hgen : forall l pre st,
             dup_inv pre st ->
             dup_inv (pre ++ l)
               (fold_left
                  (fun '(seen, dupes) x =>
                     match dict_get seen x with
                     | None => (dict_set seen x 1%Z, dupes)
                     | Some n =>
                         (dict_set seen x (n + 1)%Z,
                          if (n =? 1)%Z then dupes ++ [x] else dupes)
                     end) l st)).
  { induction l as [|x l IH]; intros pre st Hinv.
    - by rewrite app_nil_r.
    - cbn [fold_left].
      replace (pre ++ x :: l) with ((pre ++ [x]) ++ l)
        by by rewrite <- app_assoc.
      apply IH. destruct st as [seen dupes].
      by apply (dup_inv_step pre (seen, dupes) x). }
  destruct (Hgen lst [] ([], [])) as (_ & Hdup & Hnd).
  - split_and!; cbn.
    + done.
    + intros k. split; [intros H; by apply elem_of_nil in H|lia].
    + apply NoDup_nil_2.
  - done.
Qed.

(** ** The checks *)

Lemma remove_dups_length_le (l : list key) :
  length (remove_dups l) <= length l.
Proof.
  induction l as [|x l IH]; cbn; [done|].
  destruct (decide_rel elem_of x l); cbn; lia.
Qed.

Lemma remove_dups_length_NoDup (l : list key) :
  length (remove_dups l) = length l <-> NoDup l.
Proof.
  split.
  - induction l as [|x l IH]; cbn; [intros _; apply NoDup_nil_2|].
    pose proof (remove_dups_length_le l).
    destruct (decide_rel elem_of x l); cbn; intros Hlen; [lia|].
    apply NoDup_cons. split; [done|]. apply IH. lia.
  - induction 1 as [|x l Hx Hnd IH]; cbn; [done|].
    destruct (decide_rel elem_of x l); [done|]. cbn. by rewrite IH.
Qed.

Lemma count_occ_NoDup (l : list key) k :
  NoDup l ->
  count_occ key_eq_dec l k = if decide (k ∈ l) then 1 else 0.
Proof.
  induction 1 as [|x l Hx Hnd IH]; cbn.
  - rewrite decide_False; [done|apply not_elem_of_nil].
  - destruct (key_eq_dec x k) as [->|Hne].
    + rewrite decide_True by (apply elem_of_cons; by left).
      rewrite IH, decide_False by done. done.
    + rewrite IH. destruct (decide (k ∈ l)), (decide (k ∈ x :: l)) as [H|H];
        try done.
      * exfalso. apply H, elem_of_cons. by right.
      * apply elem_of_cons in H as [|]; congruence.
Qed.

Lemma parameters_block_keys (self : sampler) :
  parameters self
  = block_keys (d_constants (_data self))
    ++ block_keys (d_parameters (_data self)).
Proof.
  unfold parameters, extend_keys, block_keys.
  destruct (d_constants (_data self)), (d_parameters (_data self)); cbn;
    by rewrite ?app_nil_r.
Qed.

Lemma check_strings_ok (names : sampler -> list key) (self : sampler) :
  Forall (fun k => isinstance_str k = true) (names self) ->
  _check_variables_strings names self = Ok tt.
Proof.
  unfold _check_variables_strings.
  induction 1 as [|k l Hk Hall IH]; [done|].
  cbn [foldlM]. rewrite Hk. cbn. exact IH.
Qed.

Lemma check_strings_raises (names : sampler -> list key) (self : sampler) :
  ~ Forall (fun k => isinstance_str k = true) (names self) ->
  _check_variables_strings names self
  = Raise (SamplingError not_strings_message).
Proof.
  unfold _check_variables_strings.
  induction (names self) as [|k l IH]; intros Hnot.
  - destruct Hnot. constructor.
  - cbn [foldlM]. destruct (isinstance_str k) eqn:Hk; cbn; [|done].
    apply IH. intros Hall. apply Hnot. by constructor.
Qed.

(** C5 (as amended).  The derived parameter list is the keys of
    ['constants'] followed by the keys of ['parameters'], a missing block
    giving no entries and no error.  When every name is a string and some
    name stands in both blocks, the shared checks raise the
    duplicate-naming error, whose message is the fixed text followed by
    [str] of the set of exactly the names that stand in both blocks.  When
    some name is not a string, the checks raise the error about strings
    instead. *)
Theorem parameters_and_duplicate_names :
  (forall self,
      parameters self
      = block_keys (d_constants (_data self))
        ++ block_keys (d_parameters (_data self))
      /\ _parameters_constants_parameters_only self = parameters self)
  /\ (forall (str_set : list key -> string) self,
         let cs := block_keys (d_constants (_data self)) in
         let ps := block_keys (d_parameters (_data self)) in
         NoDup cs -> NoDup ps ->
         Forall (fun k => isinstance_str k = true) (parameters self) ->
         (exists k, k ∈ cs /\ k ∈ ps) ->
         _check_variables parameters str_set self
         = Raise (SamplingError
                    (duplicates_prefix
                     ++ str_set (find_duplicates (parameters self)))%string)
         /\ NoDup (find_duplicates (parameters self))
         /\ forall k, k ∈ find_duplicates (parameters self)
                       <-> k ∈ cs /\ k ∈ ps)
  /\ (forall (str_set : list key -> string) self,
         ~ Forall (fun k => isinstance_str k = true) (parameters self) ->
         _check_variables parameters str_set self
         = Raise (SamplingError not_strings_message)).
Proof.
  split_and!.
  - intros self. split; [apply parameters_block_keys|reflexivity].
  - intros str_set self cs ps Hcs Hps Hstr (k & Hkc & Hkp).
    destruct (find_duplicates_spec (parameters self)) as [Hdup Hnd].
    assert (Hin : forall k', k' ∈ find_duplicates (parameters self)
                             <-> k' ∈ cs /\ k' ∈ ps).
    { intros k'. rewrite Hdup, parameters_block_keys, count_occ_app.
      fold cs ps. rewrite !count_occ_NoDup by done.
      destruct (decide (k' ∈ cs)), (decide (k' ∈ ps)); split;
        (lia || tauto). }
    split_and!; [|done|done].
    unfold _check_variables. rewrite check_strings_ok by done. cbn.
    unfold _check_variables_existence, _check_variables_for_dups.
    assert (Hk : k ∈ parameters self).
    { rewrite parameters_block_keys. apply elem_of_app. by left. }
    rewrite (decide_False (P := length (parameters self) = 0)).
    2:{ intros Hlen. apply nil_length_inv in Hlen. rewrite Hlen in Hk.
        by apply elem_of_nil in Hk. }
    cbn. rewrite decide_True; [done|].
    intros Hlen. symmetry in Hlen.
    apply remove_dups_length_NoDup in Hlen.
    rewrite parameters_block_keys in Hlen.
    apply NoDup_app in Hlen as (_ & Hdis & _). by apply (Hdis k).
  - intros str_set self Hnot. unfold _check_variables.
    by rewrite check_strings_raises.
Qed.

Lemma parameters_and_duplicate_names_witness :
  let self := __init__ docstring_shared_name_data in
  _check_variables parameters (fun _ => "{'X1'}") self
  = Raise (SamplingError (duplicates_prefix ++ "{'X1'}")%string)
  /\ forall k, k ∈ find_duplicates (parameters self) <-> k = KStr "X1".
Proof.
  intros self.
  destruct (proj1 (proj2 parameters_and_duplicate_names)
              (fun _ => "{'X1'}") self) as (H1 & _ & H3).
  - by apply (bool_decide_unpack _).
  - by apply (bool_decide_unpack _).
  - repeat constructor.
  - exists (KStr "X1"). split; by apply (bool_decide_unpack _).
  - split; [exact H1|]. intros k. rewrite H3. split.
    + intros [H _]. change (k ∈ [KStr "X1"]) in H.
      by apply list_elem_of_singleton in H.
    + intros ->. split; by apply (bool_decide_unpack _).
Defined.

(** C5 as stated does not hold: a name that stands in both blocks does not
    always give the duplicate-naming error.  With an integer name in the
    configuration the checks stop at the error about strings. *)
Lemma duplicate_error_needs_string_names :
  ~ (forall (str_set : list key -> string) (self : sampler),
        (exists k, k ∈ block_keys (d_constants (_data self))
                   /\ k ∈ block_keys (d_parameters (_data self))) ->
        exists names,
          _check_variables parameters str_set self
          = Raise (SamplingError (duplicates_prefix ++ names)%string)).
Proof.
  intros H.
  destruct (H (fun _ => "") (__init__ integer_name_data)) as [names Hn].
  - exists (KStr "X1"). split; by apply (bool_decide_unpack _).
  - vm_compute in Hn. discriminate Hn.
Qed.

End NamesFacts.

(* ===================================================================== *)
(** * [RandomSampler.get_samples] *)
(* ===================================================================== *)

Module RandomFacts.
Import Props PyFacts.
Local Open Scope list_scope.

(** ** Arithmetic on scalars *)

Lemma py_mul_float (f : float) (r : scalar) (rg : float) :
  to_float r = Ok rg ->
  py_mul (SFloat f) r = Ok (SFloat (float_mul f rg)).
Proof.
  intros Hr. destruct r as [z|q|t]; [| |done].
  - unfold py_mul, py_arith. by rewrite Hr.
  - by injection Hr as ->.
Qed.

Lemma py_add_float (a : scalar) (mn x : float) :
  to_float a = Ok mn ->
  py_add a (SFloat x) = Ok (SFloat (float_add mn x)).
Proof.
  intros Ha. destruct a as [z|q|t]; [| |done].
  - unfold py_add, py_arith. by rewrite Ha.
  - by injection Ha as ->.
Qed.

Lemma has_bounds_facts value mn rg :
  has_bounds value mn rg ->
  dict_index value (KStr "min") = Ok (min_of value)
  /\ (exists b, dict_index value (KStr "max") = Ok b
                 /\ py_sub b (min_of value) = Ok (range_of value))
  /\ float_of (min_of value) = mn
  /\ float_of (range_of value) = rg
  /\ forall f, (x ← py_mul (SFloat f) (range_of value);
                py_add (min_of value) x)
               = Ok (draw_of value f).
Proof.
  intros (a & b & r & Ha & Hb & Hsub & Hfa & Hfr).
  unfold draw_of, range_of, min_of, float_of, dict_index.
  rewrite Ha, Hb. cbn [default from_option id]. rewrite Hsub, Hfa, Hfr.
  split_and!; [done|by eexists|done|done|].
  intros f. rewrite (py_mul_float f r rg Hfr), bind_Ok.
  by rewrite (py_add_float a mn _ Hfa).
Qed.

Lemma has_range_facts value :
  has_range value ->
  dict_index value (KStr "min") = Ok (min_of value)
  /\ exists b, dict_index value (KStr "max") = Ok b
                /\ py_sub b (min_of value) = Ok (range_of value).
Proof.
  intros (a & b & r & Ha & Hb & Hsub).
  unfold range_of, min_of, dict_index.
  rewrite Ha, Hb. cbn [default from_option id]. rewrite Hsub.
  split; [done|by eexists].
Qed.

Lemma has_bounds_range value mn rg : has_bounds value mn rg -> has_range value.
Proof. intros (a & b & r & Ha & Hb & Hsub & _). by exists a, b, r. Qed.

Lemma bounds_dicts_range (params : dict (dict scalar)) :
  dict_wf params ->
  Forall (fun kv => has_range kv.2) params ->
  bounds_dicts params
  = Ok (prod_map id min_of <$> params, prod_map id range_of <$> params).
Proof.
  intros Hwf Hall. unfold bounds_dicts.
  assert (Hgen : forall (ps : dict (dict scalar)) (md rd : dict scalar),
             NoDup (keys md ++ keys ps) -> NoDup (keys rd ++ keys ps) ->
             Forall (fun kv => has_range kv.2) ps ->
             foldlM (fun '(min_dict, range_dict) '(key, value) =>
                       mn ← dict_index value (KStr "min");
                       mx ← dict_index value (KStr "max");
                       mn' ← dict_index value (KStr "min");
                       r ← py_sub mx mn';
                       Ok (dict_set min_dict key mn,
                           dict_set range_dict key r))
                    ps (md, rd)
             = Ok (md ++ (prod_map id min_of <$> ps),
                   rd ++ (prod_map id range_of <$> ps))).
  { induction ps as [|[k value] ps IH]; intros md rd Hmd Hrd Hps.
    - cbn. by rewrite !app_nil_r.
    - apply Forall_cons in Hps as [Hb Hps].
      destruct (has_range_facts _ Hb) as (Hmin & b & Hmax & Hsub).
      cbn [foldlM]. cbn in Hmin, Hmax, Hsub. rewrite Hmin, Hmax. cbn.
      rewrite Hsub. cbn.
      cbn in Hmd, Hrd.
      rewrite !dict_set_fresh.
      + rewrite IH; [by rewrite <- !app_assoc| | |done].
        * unfold keys. rewrite fmap_app, <- app_assoc. done.
        * unfold keys. rewrite fmap_app, <- app_assoc. done.
      + apply NoDup_app in Hrd as (_ & Hdis & _). intros Hin.
        apply (Hdis k Hin), elem_of_cons. by left.
      + apply NoDup_app in Hmd as (_ & Hdis & _). intros Hin.
        apply (Hdis k Hin), elem_of_cons. by left. }
  apply (Hgen params [] []); done.
Qed.

Lemma bounds_dicts_closed (params : dict (dict scalar)) :
  dict_wf params ->
  Forall (fun kv => exists mn rg, has_bounds kv.2 mn rg) params ->
  bounds_dicts params
  = Ok (prod_map id min_of <$> params, prod_map id range_of <$> params).
Proof.
  intros Hwf Hall. apply bounds_dicts_range; [done|].
  eapply Forall_impl; [exact Hall|].
  intros kv (mn & rg & Hb). by eapply has_bounds_range.
Qed.

Lemma imap_cons_shift {A B} (f : nat -> A -> B) a l :
  imap f (a :: l) = f 0 a :: imap (fun j => f (S j)) l.
Proof. reflexivity. Qed.

Lemma draw_dictionary_cons (rr : nat -> float) k (v : dict scalar) items
  (md rgd rd : dict scalar) n mnv r val :
  dict_index md k = Ok mnv -> dict_index rgd k = Ok r ->
  (x ← py_mul (SFloat (rr n)) r; py_add mnv x) = Ok val ->
  draw_dictionary rr ((k, v) :: items) md rgd rd n
  = draw_dictionary rr items md rgd (dict_set rd k val) (S n).
Proof.
  intros H1 H2 H3. cbn [draw_dictionary]. rewrite H1, H2, bind_Ok.
  by rewrite H3.
Qed.

Lemma draw_dictionary_closed (rr : nat -> float) (params : dict (dict scalar))
  (items : dict (dict scalar)) (rd : dict scalar) (n : nat) :
  dict_wf params ->
  (forall kv, kv ∈ items -> kv ∈ params) ->
  Forall (fun kv => exists mn rg, has_bounds kv.2 mn rg) items ->
  NoDup (keys rd ++ keys items) ->
  draw_dictionary rr items (prod_map id min_of <$> params)
                  (prod_map id range_of <$> params) rd n
  = (Ok (rd ++ row_at rr items n), n + length items).
Proof.
  intros Hwf. revert rd n.
  induction items as [|[k value] items IH]; intros rd n Hsub Hall Hnd.
  - cbn. by rewrite app_nil_r, Nat.add_0_r.
  - apply Forall_cons in Hall as [(mn & mx & Hb) Hall].
    destruct (has_bounds_facts _ _ _ Hb) as (_ & _ & _ & _ & Hdraw).
    assert (Hin : (k, value) ∈ params)
      by (apply Hsub, elem_of_cons; by left).
    rewrite (draw_dictionary_cons rr k value items _ _ rd n
               (min_of value) (range_of value) (draw_of value (rr n))).
    2:{ unfold dict_index.
        by rewrite dict_get_fmap_snd, (dict_get_elem_of params k value). }
    2:{ unfold dict_index.
        by rewrite dict_get_fmap_snd, (dict_get_elem_of params k value). }
    2:{ apply Hdraw. }
    cbn in Hnd. rewrite dict_set_fresh.
    2:{ apply NoDup_app in Hnd as (_ & Hdis & _). intros Hk.
        apply (Hdis k Hk), elem_of_cons. by left. }
    rewrite IH.
    + unfold row_at. rewrite imap_cons_shift, <- app_assoc. cbn.
      rewrite Nat.add_0_r. f_equal; [|lia]. do 3 f_equal.
      apply imap_ext. intros j kv _. cbn. do 3 f_equal. lia.
    + intros kv Hkv. apply Hsub, elem_of_cons. by right.
    + done.
    + unfold keys. rewrite fmap_app, <- app_assoc. done.
Qed.

Lemma draw_list_closed (rr : nat -> float) (params : dict (dict scalar))
  (count : nat) (acc : list (dict scalar)) (n : nat) :
  dict_wf params ->
  Forall (fun kv => exists mn rg, has_bounds kv.2 mn rg) params ->
  draw_list rr count params (prod_map id min_of <$> params)
            (prod_map id range_of <$> params) acc n
  = (Ok (acc ++ ((fun i => row_at rr params (n + i * length params))
                   <$> seq 0 count)),
     n + count * length params).
Proof.
  intros Hwf Hall. revert acc n.
  induction count as [|count IH]; intros acc n.
  - cbn. by rewrite app_nil_r, Nat.add_0_r.
  - cbn [draw_list].
    rewrite (draw_dictionary_closed rr params params [] n) by done.
    rewrite IH. cbn [app seq fmap list_fmap]. rewrite <- app_assoc.
    cbn [app]. f_equal; [|lia]. do 3 f_equal.
    + f_equal. lia.
    + rewrite <- fmap_S_seq, <- list_fmap_compose.
      apply list_fmap_ext. intros _ i _. cbn [compose]. f_equal.
      lia.
Qed.

Lemma keys_row_at (rr : nat -> float) (params : dict (dict scalar)) m :
  keys (row_at rr params m) = keys params.
Proof.
  unfold row_at, keys. revert m.
  induction params as [|[k v] params IH]; intros m; [done|].
  rewrite imap_cons_shift. cbn. f_equal.
  rewrite <- (IH (S m)). f_equal. apply imap_ext. intros j kv _. cbn.
  do 3 f_equal. lia.
Qed.

Lemma elem_of_row_at (rr : nat -> float) (params : dict (dict scalar)) m k
  value :
  (k, value) ∈ params ->
  exists j, (k, draw_of value (rr (m + j))) ∈ row_at rr params m.
Proof.
  intros Hin. apply list_elem_of_lookup in Hin as [j Hj]. exists j.
  apply list_elem_of_lookup. exists j. unfold row_at.
  rewrite list_lookup_imap, Hj. reflexivity.
Qed.

(** C1 (as amended).  For a random-sampler configuration with
    [num_samples = N] whose ['parameters'] all have numeric bounds within
    the range of floats, [get_samples] on a new sampler returns exactly
    [N] samples and caches them, having drawn one fraction per parameter
    and sample.  In each sample the value of a ranged parameter is the
    float [min + f * (max - min)] for a fraction [f] of the stream, the
    product and the sum each rounded, also when a constant has the same
    name; and each sample has every key of ['constants'] and of
    ['parameters'].  Nothing is said of [value < max]: rounding can give
    [max] itself. *)
Theorem get_samples_random (random_random : nat -> float) (d : data)
  (params : dict (dict scalar)) (N n0 : nat) :
  d_num_samples d = Some (SInt (Z.of_nat N)) ->
  d_parameters d = Some params ->
  dict_wf params ->
  (forall k value, (k, value) ∈ params ->
                   exists mn rg, has_bounds value mn rg) ->
  exists samples,
    get_samples random_random (__init__ d) n0
    = (Ok samples, set_samples (__init__ d) samples,
       n0 + N * length params)
    /\ length samples = N
    /\ forall s, s ∈ samples ->
         (forall k value mn rg,
             (k, value) ∈ params -> has_bounds value mn rg ->
             exists i,
               dict_get s k = Some (SFloat (draw mn rg (random_random i))))
         /\ (forall k, k ∈ block_keys (d_constants d) \/ k ∈ keys params ->
                       is_Some (dict_get s k)).
Proof.
  intros Hnum Hpar Hwf Hbounds.
  assert (Hall : Forall (fun kv => exists mn rg, has_bounds kv.2 mn rg)
                        params).
  { apply Forall_forall. intros [k value] Hin. by apply (Hbounds k). }
  set (rows := (fun i => row_at random_random params (n0 + i * length params))
                 <$> seq 0 N).
  exists (new_sample d <$> rows). split_and!.
  - unfold get_samples. cbn [_samples __init__ _data set_samples].
    rewrite Hpar, Hnum. cbn [data_index]. rewrite !bind_Ok.
    rewrite bounds_dicts_closed by done. rewrite !bind_Ok.
    cbn [py_range]. rewrite !bind_Ok, Nat2Z.id.
    rewrite draw_list_closed by done. reflexivity.
  - unfold rows. by rewrite !length_fmap, length_seq.
  - intros s Hs. apply list_elem_of_fmap in Hs as (row & -> & Hrow).
    unfold rows in Hrow. apply list_elem_of_fmap in Hrow as (i & -> & _).
    set (m := n0 + i * length params).
    assert (Hnew : forall base : dict scalar,
               fold_left (fun s kv => dict_set s kv.1 kv.2)
                         (row_at random_random params m) base
               = dict_update base (row_at random_random params m))
      by reflexivity.
    split.
    + intros k value mn rg Hin Hb.
      destruct (elem_of_row_at random_random params m k value Hin)
        as [j Hj].
      destruct (has_bounds_facts _ _ _ Hb) as (_ & _ & Hmn & Hrg & _).
      exists (m + j). unfold new_sample. rewrite Hnew.
      rewrite (dict_get_update_in _ _ k (draw_of value (random_random (m + j)))).
      * unfold draw_of. by rewrite Hmn, Hrg.
      * unfold dict_wf. by rewrite keys_row_at.
      * done.
    + intros k Hk. unfold new_sample. rewrite Hnew.
      apply dict_update_is_Some. rewrite keys_row_at.
      destruct Hk as [Hk|Hk]; [left|by right].
      destruct (d_constants d) as [c|]; cbn in Hk.
      * apply dict_update_is_Some. by right.
      * by apply elem_of_nil in Hk.
Qed.

Lemma get_samples_random_witness :
  exists samples,
    get_samples (fun _ => float_of_dyadic 1 (-1)) (__init__ docstring_data) 0
    = (Ok samples, set_samples (__init__ docstring_data) samples, 60)
    /\ length samples = 30.
Proof.
  destruct (get_samples_random (fun _ => float_of_dyadic 1 (-1))
              docstring_data
              [(KStr "X2", [(KStr "min", SInt 5); (KStr "max", SInt 10)]);
               (KStr "X3", [(KStr "min", SInt 5); (KStr "max", SInt 10)])]
              30 0) as (samples & H1 & H2 & _).
  - reflexivity.
  - reflexivity.
  - by apply (bool_decide_unpack _).
  - intros k value Hin. exists (float_of_Z 5), (float_of_Z 5).
    exists (SInt 5), (SInt 10), (SInt 5).
    apply elem_of_cons in Hin as [[= -> ->]|Hin];
      [|apply list_elem_of_singleton in Hin as [= -> ->]];
      by split_and!.
  - exists samples. by split.
Defined.

(** C1 as stated does not hold: [value < max] can fail.  On the
    configuration of the docstring, with bounds 5 and 10, the fraction
    [1 - 2**-53], which is at least 0 and less than 1, gives the value
    [10.0]: the product [f * 5] is rounded, and so is its sum with 5.
    Nor is a sample returned for all numeric bounds with [min < max]:
    with the integer bounds 0 and [10**400] the product of the fraction
    and the range raises [OverflowError]. *)
Lemma get_samples_random_reaches_max :
  float_le float_zero largest_fraction = true
  /\ float_lt largest_fraction (float_of_Z 1) = true
  /\ match get_samples (fun _ => largest_fraction)
                       (__init__ docstring_data) 0 with
     | (Ok (s :: _), _, _) =>
         dict_get s (KStr "X2") = Some (SFloat (float_of_Z 10))
         /\ float_lt (float_of_Z 10) (float_of_Z 10) = false
     | _ => False
     end
  /\ (get_samples (fun _ => float_of_dyadic 1 (-1))
                  (__init__ huge_bound_data) 0).1.1
     = Raise OverflowError.
Proof. vm_compute. by split_and!. Qed.

End RandomFacts.

(* ===================================================================== *)
(** * Distances and the nearest-neighbour query *)
(* ===================================================================== *)

Module DistFacts.
Import Props PyFacts.
Local Open Scope list_scope.

(** ** The order of floats

    A comparison of two floats looks at their signs, then at their
    exponents, then at their mantissas; a NaN compares with nothing. *)

Ltac float_cmp :=
  repeat match goal with
  | H : context [PosDef.Pos.compare_cont Eq ?a ?b] |- _ =>
      change (PosDef.Pos.compare_cont Eq a b) with (Pos.compare a b) in H
  | |- context [PosDef.Pos.compare_cont Eq ?a ?b] =>
      change (PosDef.Pos.compare_cont Eq a b) with (Pos.compare a b)
  | H : context [(?a ?= ?b)%Z] |- _ => destruct (Z.compare_spec a b)
  | |- context [(?a ?= ?b)%Z] => destruct (Z.compare_spec a b)
  | H : context [Pos.compare ?a ?b] |- _ => destruct (Pos.compare_spec a b)
  | |- context [Pos.compare ?a ?b] => destruct (Pos.compare_spec a b)
  end.

Ltac float_cases x y z :=
  unfold float_lt, float_le, SFltb, SFleb, SFcompare;
  destruct x as [[]|[]| |[] ? ?], y as [[]|[]| |[] ? ?],
           z as [[]|[]| |[] ? ?];
  try discriminate; try reflexivity;
  intros; float_cmp; simpl in *;
  try discriminate; try reflexivity; try lia.

Lemma float_lt_irrefl (x : float) : float_lt x x = false.
Proof.
  unfold float_lt, SFltb, SFcompare.
  destruct x as [[]|[]| |[] m e]; try reflexivity;
    float_cmp; simpl; try reflexivity; lia.
Qed.

Lemma float_lt_trans (x y z : float) :
  float_lt x y = true -> float_lt y z = true -> float_lt x z = true.
Proof. float_cases x y z. Qed.

Lemma float_lt_le_trans (x y z : float) :
  float_lt x y = true -> float_le y z = true -> float_lt x z = true.
Proof. float_cases x y z. Qed.

(** Two floats of which neither is a NaN compare one way or the other. *)
Lemma float_lt_total (x y : float) :
  x ≠ S754_nan -> y ≠ S754_nan ->
  float_le x y = false -> float_lt y x = true.
Proof.
  unfold float_lt, float_le, SFltb, SFleb, SFcompare.
  destruct x as [[]|[]| |[] ? ?], y as [[]|[]| |[] ? ?];
    try discriminate; try reflexivity; try done;
    intros; float_cmp; simpl in *;
    try discriminate; try reflexivity; try lia.
Qed.

(** What is behind a distance that another exceeds is behind that one
    too. *)
Lemma float_lt_not_behind (a d x : float) :
  float_lt d x = true -> float_lt d a = false -> float_lt x a = false.
Proof.
  intros Hdx Hda. destruct (float_lt x a) eqn:Hxa; [|done].
  by rewrite (float_lt_trans d x a Hdx Hxa) in Hda.
Qed.

(** ** The distance from a point to itself *)

Lemma float_sub_diag (x : float) :
  isfinite x = true -> float_sub x x = float_zero.
Proof.
  destruct x as [[]|[]| |s m e]; try discriminate; try reflexivity.
  intros _. unfold float_sub. cbn [SFsub]. cbv zeta.
  by rewrite Z.sub_diag.
Qed.

Lemma sqdist_self (p : point) :
  Forall (fun x => isfinite x = true) p -> sqdist p p = float_zero.
Proof.
  unfold sqdist. induction 1 as [|x p Hx Hp IH]; [done|].
  cbn [zip_with foldr]. by rewrite IH, float_sub_diag.
Qed.

Lemma distance_self (p : point) :
  Forall (fun x => isfinite x = true) p -> distance p p = float_zero.
Proof. intros Hp. unfold distance. by rewrite sqdist_self. Qed.

(** ** The query *)

(** [tree_query] returns the distance to a point of the tree, and no
    point of the tree is at a smaller distance. *)
Lemma tree_query_nearest (p : point) (ps : list point) (pos : point) :
  nearest (p :: ps) pos (tree_query (p, ps) pos).
Proof.
  unfold tree_query. cbn [fst snd].
  assert (Hgen : forall l seen m,
             nearest seen pos m ->
             nearest (seen ++ l) pos
               (fold_left (fun m q => float_min m (distance pos q)) l m)).
  { induction l as [|q l IH]; intros seen m Hm.
    - by rewrite app_nil_r.
    - cbn [fold_left].
      replace (seen ++ q :: l) with ((seen ++ [q]) ++ l)
        by by rewrite <- app_assoc.
      apply IH. destruct Hm as [(q0 & Hq0 & Hm) Hleast].
      unfold float_min. destruct (float_lt (distance pos q) m) eqn:Hlt.
      + split.
        * exists q. split; [|done].
          apply elem_of_app. right. by apply list_elem_of_singleton.
        * intros q' Hq'. apply elem_of_app in Hq' as [Hq'|Hq'].
          -- destruct (float_lt (distance pos q') (distance pos q)) eqn:Hq;
               [|done].
             rewrite <- (Hleast q' Hq'). symmetry.
             by apply (float_lt_trans _ (distance pos q)).
          -- apply list_elem_of_singleton in Hq' as ->.
             apply float_lt_irrefl.
      + split.
        * exists q0. split; [|done]. apply elem_of_app. by left.
        * intros q' Hq'. apply elem_of_app in Hq' as [Hq'|Hq'].
          -- by apply Hleast.
          -- by apply list_elem_of_singleton in Hq' as ->. }
  apply (Hgen ps [p]). split.
  - exists p. split; [by apply list_elem_of_singleton|done].
  - intros q Hq. apply list_elem_of_singleton in Hq as ->.
    apply float_lt_irrefl.
Qed.

(** A finite point of the tree is not at a positive distance from it. *)
Lemma tree_query_self (p : point) (ps : list point) (pos : point) :
  pos ∈ p :: ps -> Forall (fun x => isfinite x = true) pos ->
  float_lt float_zero (tree_query (p, ps) pos) = false.
Proof.
  intros Hin Hfin. destruct (tree_query_nearest p ps pos) as [_ Hleast].
  rewrite <- (distance_self pos Hfin). by apply Hleast.
Qed.

(** A point at a positive distance from every point of the tree is at a
    positive distance from the tree. *)
Lemma tree_query_apart (p : point) (ps : list point) (pos : point) :
  (forall q, q ∈ p :: ps -> float_lt float_zero (distance pos q) = true) ->
  float_lt float_zero (tree_query (p, ps) pos) = true.
Proof.
  intros Hall. destruct (tree_query_nearest p ps pos) as [(q & Hq & ->) _].
  by apply Hall.
Qed.

End DistFacts.

(* ===================================================================== *)
(** * [BaseSampler.downselect] *)
(* ===================================================================== *)

Module SelectFacts.
Import Props PyFacts DistFacts.
Local Open Scope list_scope.

(** ** The inner loop *)

(** The loop over the indices [1 .. k]: no candidate met is farther from
    the tree than the distance kept; either nothing was kept, or the index
    kept is that of a candidate at a positive distance, and no candidate
    met before it is as far. *)
Lemma scan_prefix (tree : point * list point) (candidates : list point)
  (M k : nat) (j : nat) (d : float) :
  fold_left (fun (st : nat * float) =>
               let '(j, d) := st in
               fun (i : nat) =>
                 match candidates !! i with
                 | Some pos =>
                     let dist := tree_query tree pos in
                     if float_lt d dist then (i, dist) else (j, d)
                 | None => (j, d)
                 end)
            (seq 1 k) (M, float_zero) = (j, d) ->
  (forall i c, 1 <= i <= k -> candidates !! i = Some c ->
               float_lt d (tree_query tree c) = false)
  /\ ((j = M /\ d = float_zero)
      \/ (1 <= j <= k
          /\ exists c,
               candidates !! j = Some c
               /\ d = tree_query tree c
               /\ float_lt float_zero d = true
               /\ forall i c', 1 <= i < j -> candidates !! i = Some c' ->
                               float_le d (tree_query tree c') = false)).
Proof.
  revert j d. induction k as [|k IH]; intros j d.
  - cbn. intros [= <- <-]. split; [intros; lia|by left].
  - rewrite seq_S, fold_left_app.
    destruct (fold_left _ (seq 1 k) (M, float_zero)) as [j0 d0] eqn:Hfold.
    destruct (IH j0 d0 eq_refl) as [Hall Hkept].
    cbn [fold_left]. change (1 + k) with (S k).
    destruct (candidates !! S k) as [pos|] eqn:Hpos.
    + cbv zeta. destruct (float_lt d0 (tree_query tree pos)) eqn:Hlt.
      * intros [= <- <-]. split.
        -- intros i c Hi Hc. destruct (decide (i = S k)) as [->|Hne].
           ++ rewrite Hpos in Hc. injection Hc as <-. apply float_lt_irrefl.
           ++ apply (float_lt_not_behind _ d0); [done|].
              apply (Hall i c); [lia|done].
        -- right. split; [lia|]. exists pos. split_and!; [done|done| |].
           ++ destruct Hkept as [[_ ->]|(_ & c0 & _ & _ & Hpos0 & _)];
                [done|].
              by apply (float_lt_trans _ d0).
           ++ intros i c' Hi Hc'.
              destruct (float_le (tree_query tree pos) (tree_query tree c'))
                eqn:Hle; [|done].
              rewrite <- (Hall i c'); [|lia|done]. symmetry.
              by apply (float_lt_le_trans _ (tree_query tree pos)).
      * intros [= <- <-]. split.
        -- intros i c Hi Hc. destruct (decide (i = S k)) as [->|Hne].
           ++ rewrite Hpos in Hc. by injection Hc as <-.
           ++ apply (Hall i c); [lia|done].
        -- destruct Hkept as [?|(Hj & Hc)]; [by left|right].
           split; [lia|done].
    + intros [= <- <-]. split.
      * intros i c Hi Hc. destruct (decide (i = S k)) as [->|Hne].
        -- congruence.
        -- apply (Hall i c); [lia|done].
      * destruct Hkept as [?|(Hj & Hc)]; [by left|right].
        split; [lia|done].
Qed.

(** [scan] either finds no candidate after the first at a positive
    distance from the tree, or returns the first of those that no other
    exceeds. *)
Lemma scan_result (tree : point * list point) (candidates : list point)
  (j : nat) (d : float) :
  scan tree candidates (length candidates) = (j, d) ->
  (j = length candidates
   /\ forall i c, 1 <= i -> candidates !! i = Some c ->
                  float_lt float_zero (tree_query tree c) = false)
  \/ (1 <= j < length candidates
      /\ exists c,
           candidates !! j = Some c
           /\ d = tree_query tree c
           /\ float_lt float_zero d = true
           /\ (forall i c', 1 <= i -> candidates !! i = Some c' ->
                            float_lt d (tree_query tree c') = false)
           /\ (forall i c', 1 <= i < j -> candidates !! i = Some c' ->
                            float_le d (tree_query tree c') = false)).
Proof.
  intros Hscan.
  destruct (scan_prefix tree candidates (length candidates)
              (length candidates - 1) j d Hscan) as [Hall Hkept].
  assert (Hall' : forall i c, 1 <= i -> candidates !! i = Some c ->
                              float_lt d (tree_query tree c) = false).
  { intros i c Hi Hc. apply (Hall i c); [|done].
    apply lookup_lt_Some in Hc. lia. }
  destruct Hkept as [[-> ->]|(Hj & c & Hc & Hd & Hpos & Hlow)].
  - by left.
  - right. split.
    + apply lookup_lt_Some in Hc. lia.
    + exists c. by split_and!.
Qed.

(** ** Counting the points that can still be selected *)

Lemma elem_of_drop1 (candidates : list point) (c : point) :
  c ∈ drop 1 candidates <-> exists i, 1 <= i /\ candidates !! i = Some c.
Proof.
  rewrite list_elem_of_lookup. split.
  - intros [i Hi]. rewrite lookup_drop in Hi. exists (1 + i). split; [lia|done].
  - intros (i & Hi & Hc). exists (i - 1). rewrite lookup_drop.
    by replace (1 + (i - 1)) with i by lia.
Qed.

Lemma selectable_zero (candidates sp : list point) :
  selectable candidates sp = 0
  <-> forall c, c ∈ drop 1 candidates -> c ∈ sp.
Proof.
  unfold selectable. split.
  - intros Hlen c Hc. apply nil_length_inv in Hlen.
    destruct (decide (c ∈ sp)) as [|Hnin]; [done|]. exfalso.
    assert (Hin : c ∈ remove_dups
                        (filter (fun p => p ∉ sp) (drop 1 candidates))).
    { apply elem_of_remove_dups, list_elem_of_filter. done. }
    rewrite Hlen in Hin. by apply elem_of_nil in Hin.
  - intros Hall.
    rewrite (elem_of_nil_inv
               (remove_dups (filter (fun p => p ∉ sp) (drop 1 candidates))));
      [done|].
    intros c Hc. apply elem_of_remove_dups, list_elem_of_filter in Hc
      as [Hnin Hc]. by apply Hnin, Hall.
Qed.

Lemma selectable_step (candidates sp : list point) (c : point) :
  c ∈ drop 1 candidates -> c ∉ sp ->
  selectable candidates sp = S (selectable candidates (sp ++ [c])).
Proof.
  intros Hc Hnin. unfold selectable.
  change (S (length ?l)) with (length (c :: l)).
  apply Permutation_length, NoDup_Permutation.
  - apply NoDup_remove_dups.
  - apply NoDup_cons. split; [|apply NoDup_remove_dups].
    rewrite elem_of_remove_dups, list_elem_of_filter, elem_of_app.
    intros [H _]. apply H. right. by apply list_elem_of_singleton.
  - intros x.
    rewrite elem_of_cons, !elem_of_remove_dups, !list_elem_of_filter,
      elem_of_app, list_elem_of_singleton.
    destruct (decide (x = c)) as [->|Hne]; [tauto|]. tauto.
Qed.

Lemma points_at_cons (candidates : list point) j cj l :
  candidates !! j = Some cj ->
  points_at candidates (j :: l) = cj :: points_at candidates l.
Proof. intros H. unfold points_at. cbn. by rewrite H. Qed.

(** ** The outer loop *)

Lemma select_cons (count : nat) (candidates : list point) (p : point)
  (ps : list point) (ids : list nat) :
  select (S count) candidates (length candidates) (p :: ps) ids
  = let '(j, d) := scan (p, ps) candidates (length candidates) in
    if decide (j = length candidates) then Raise (Exception exhausted)
    else match candidates !! j with
         | Some c =>
             select count candidates (length candidates)
                    ((p :: ps) ++ [c]) (ids ++ [j])
         | None => Raise IndexError
         end.
Proof. reflexivity. Qed.

(** Whether every candidate is at a positive distance from each of the
    others that is a different point. *)
Lemma apart_spec (candidates others : list point) (c q : point) :
  apart candidates others = true ->
  c ∈ candidates -> q ∈ others -> c ≠ q ->
  float_lt float_zero (distance c q) = true.
Proof.
  unfold apart. rewrite forallb_forall. intros Hall Hc Hq Hne.
  apply list_elem_of_In in Hc, Hq.
  specialize (Hall c Hc). rewrite forallb_forall in Hall.
  specialize (Hall q Hq). apply orb_true_iff in Hall as [Heq|Hlt]; [|done].
  by apply bool_decide_eq_true in Heq.
Qed.

(** A candidate that the loop selects is not a point of the tree. *)
Lemma selected_not_in_tree (candidates : list point) (p : point)
  (ps : list point) (j : nat) (c : point) :
  Forall (Forall (fun x => isfinite x = true)) candidates ->
  candidates !! j = Some c ->
  float_lt float_zero (tree_query (p, ps) c) = true ->
  c ∉ p :: ps.
Proof.
  intros Hfin Hc Hpos Hin.
  rewrite (tree_query_self p ps c Hin) in Hpos; [done|].
  rewrite Forall_forall in Hfin. apply Hfin.
  by eapply list_elem_of_lookup_2.
Qed.

(** The loop raises when it is asked for more points than can be
    selected. *)
Lemma select_exhausts (candidates : list point) :
  Forall (Forall (fun x => isfinite x = true)) candidates ->
  forall count sp ids,
    sp ≠ [] ->
    selectable candidates sp < count ->
    select count candidates (length candidates) sp ids
    = Raise (Exception exhausted).
Proof.
  intros Hfin count.
  induction count as [|count IH]; intros sp ids Hne Hlt; [lia|].
  destruct sp as [|p ps]; [done|]. rewrite select_cons.
  match goal with
  | |- context [scan ?t ?c ?m] => destruct (scan t c m) as [j d] eqn:Hs
  end.
  apply scan_result in Hs as Hscan.
  destruct Hscan as [[-> _]|(Hj & cj & Hcj & -> & Hdpos & _)].
  - by rewrite decide_True.
  - rewrite (decide_False (P := j = _)) by lia. rewrite Hcj.
    apply IH; [done|].
    assert (Hnin : cj ∉ p :: ps) by by eapply selected_not_in_tree.
    assert (Hdrop : cj ∈ drop 1 candidates).
    { apply elem_of_drop1. exists j. split; [lia|done]. }
    rewrite (selectable_step candidates (p :: ps) cj Hdrop Hnin) in Hlt.
    by apply le_S_n.
Qed.

(** The loop selects [count] further points when the candidates are apart
    and that many can still be selected: each is, at its selection, a
    candidate at a positive distance from the tree that no candidate after
    the first exceeds. *)
Lemma select_selects (candidates others : list point) :
  Forall (Forall (fun x => isfinite x = true)) candidates ->
  apart candidates others = true ->
  (forall c, c ∈ candidates -> c ∈ others) ->
  forall count sp ids,
    sp ≠ [] ->
    (forall q, q ∈ sp -> q ∈ others) ->
    (forall s c, s ∈ ids -> candidates !! s = Some c -> c ∈ sp) ->
    NoDup ids ->
    count <= selectable candidates sp ->
    exists new,
      select count candidates (length candidates) sp ids = Ok (ids ++ new)
      /\ length new = count
      /\ NoDup (ids ++ new)
      /\ (forall j, j ∈ new -> 1 <= j < length candidates)
      /\ forall n j, new !! n = Some j ->
           exists cj dj,
             candidates !! j = Some cj
             /\ reported (sp ++ points_at candidates (take n new)) cj
                = Some dj
             /\ float_lt float_zero dj = true
             /\ forall i ci di,
                  1 <= i -> candidates !! i = Some ci ->
                  reported (sp ++ points_at candidates (take n new)) ci
                  = Some di ->
                  float_lt dj di = false.
Proof.
  intros Hfin Hapart Hsub count.
  induction count as [|count IH]; intros sp ids Hne Hsp Hsel Hnd Hle.
  - exists []. rewrite app_nil_r. split_and!; [done..| |].
    + intros j Hj. by apply elem_of_nil in Hj.
    + intros n j Hn. by rewrite lookup_nil in Hn.
  - destruct sp as [|p ps]; [done|]. rewrite select_cons.
    match goal with
    | |- context [scan ?t ?c ?m] => destruct (scan t c m) as [j d] eqn:Hs
    end.
    apply scan_result in Hs as Hscan.
    destruct Hscan as [[-> Hall]|(Hj & cj & Hcj & -> & Hdpos & Hall & _)].
    + exfalso.
      assert (Hzero : selectable candidates (p :: ps) = 0); [|lia].
      apply selectable_zero. intros c Hc.
      destruct (decide (c ∈ p :: ps)) as [|Hnin]; [done|]. exfalso.
      apply elem_of_drop1 in Hc as (i & Hi & Hc).
      specialize (Hall i c Hi Hc).
      rewrite tree_query_apart in Hall; [done|].
      intros q Hq. apply (apart_spec candidates others).
      * done.
      * by eapply list_elem_of_lookup_2.
      * by apply Hsp.
      * intros ->. done.
    + assert (Hin : cj ∈ candidates) by by eapply list_elem_of_lookup_2.
      assert (Hnin : cj ∉ p :: ps) by by eapply selected_not_in_tree.
      assert (Hdrop : cj ∈ drop 1 candidates).
      { apply elem_of_drop1. exists j. split; [lia|done]. }
      rewrite (decide_False (P := j = _)) by lia.
      rewrite Hcj.
      rewrite (selectable_step candidates (p :: ps) cj) in Hle by done.
      assert (Hjnew : j ∉ ids).
      { intros Hjin. apply Hnin. by eapply Hsel. }
      specialize (IH ((p :: ps) ++ [cj]) (ids ++ [j])).
      assert (H1 : (p :: ps) ++ [cj] ≠ []) by done.
      assert (H2 : forall q, q ∈ (p :: ps) ++ [cj] -> q ∈ others).
      { intros q Hq. apply elem_of_app in Hq as [Hq|Hq]; [by apply Hsp|].
        apply list_elem_of_singleton in Hq as ->. by apply Hsub. }
      assert (H3 : forall s c, s ∈ ids ++ [j] -> candidates !! s = Some c ->
                               c ∈ (p :: ps) ++ [cj]).
      { intros s c Hs' Hc. apply elem_of_app in Hs' as [Hs'|Hs'].
        - apply elem_of_app. left. by eapply Hsel.
        - apply list_elem_of_singleton in Hs' as ->.
          rewrite Hcj in Hc. injection Hc as <-.
          apply elem_of_app. right. by apply list_elem_of_singleton. }
      assert (H4 : NoDup (ids ++ [j])).
      { apply NoDup_app. split_and!; [done| |apply NoDup_singleton].
        intros x Hx Hx'. apply list_elem_of_singleton in Hx' as ->. done. }
      assert (H5 : count <= selectable candidates ((p :: ps) ++ [cj])).
      { by apply le_S_n. }
      specialize (IH H1 H2 H3 H4 H5). clear H1 H2 H3 H4 H5.
      destruct IH as (new & Heq & Hlen & Hnd' & Hrange & Hfar).
      exists (j :: new). split_and!.
      * rewrite <- app_assoc in Heq. exact Heq.
      * cbn. by rewrite Hlen.
      * by rewrite <- app_assoc in Hnd'.
      * intros j' Hj'. apply elem_of_cons in Hj' as [->|Hj'];
          [done|by apply Hrange].
      * intros [|n] j' Hn.
        -- cbn in Hn. injection Hn as <-.
           exists cj, (tree_query (p, ps) cj).
           cbn [take]. unfold points_at at 1 2. cbn [omap list_omap].
           rewrite app_nil_r.
           split_and!; [done|done|done|].
           intros i ci di Hi Hci [= <-]. by eapply Hall.
        -- cbn in Hn. destruct (Hfar n j' Hn) as (cj' & dj & H1 & H2 & H3 & H4).
           exists cj', dj. cbn [take].
           rewrite (points_at_cons candidates j cj) by done.
           replace ((p :: ps) ++ cj :: points_at candidates (take n new))
             with (((p :: ps) ++ [cj])
                   ++ points_at candidates (take n new))
             by by rewrite <- app_assoc.
           done.
Qed.

(** What the tree answers is the distance to a nearest point. *)
Lemma reported_nearest (sel : list point) (pos : point) (d : float) :
  reported sel pos = Some d -> nearest sel pos d.
Proof.
  destruct sel as [|p ps]; [done|]. intros [= <-].
  apply tree_query_nearest.
Qed.

(** ** The table of candidates *)

Lemma df_values_rows (df : DataFrame) (columns : list key)
  (raw : list (list scalar)) :
  df_values df columns = Ok raw ->
  length raw = length (df_rows df)
  /\ Forall (fun r => length r = length columns) raw.
Proof.
  unfold df_values.
  destruct (foldlM _ columns tt) as [[]|]; [|done]. rewrite bind_Ok.
  intros Hraw. apply mapM_Ok_Forall2 in Hraw. split.
  - symmetry. by eapply Forall2_length.
  - induction Hraw as [|row r rows raw Hr Hrows IH]; constructor; [|done].
    by apply mapM_Ok_length in Hr.
Qed.

Lemma asarray_dims (raw : list (list scalar)) (pts : list point) (n : nat) :
  asarray raw = Ok pts ->
  length pts = length raw
  /\ (Forall (fun r => length r = n) raw ->
      Forall (fun p => length p = n) pts).
Proof.
  unfold asarray. intros H. apply mapM_Ok_Forall2 in H. split.
  - symmetry. by eapply Forall2_length.
  - intros Hraw.
    induction H as [|r p raw pts Hr Hrest IH]; constructor.
    + apply Forall_cons in Hraw as [Hlen _].
      apply mapM_Ok_length in Hr. by rewrite Hr.
    + apply IH. by apply Forall_cons in Hraw as [_ ?].
Qed.

Lemma asarray_cons (r0 : list scalar) (raw : list (list scalar))
  (pts : list point) :
  asarray (r0 :: raw) = Ok pts ->
  exists c0 rest, pts = c0 :: rest /\ asarray [r0] = Ok [c0].
Proof.
  unfold asarray. rewrite !mapM_cons.
  destruct (mapM to_coordinate r0) as [c0|]; [|done]. rewrite !bind_Ok.
  destruct (mapM (mapM to_coordinate) raw) as [rest|]; [|done].
  rewrite bind_Ok. intros [= <-]. by exists c0, rest.
Qed.

(** The points that [asarray] returns have finite coordinates. *)
Lemma asarray_finite (raw : list (list scalar)) (pts : list point) :
  asarray raw = Ok pts ->
  Forall (Forall (fun x => isfinite x = true)) pts.
Proof.
  unfold asarray. intros H. apply mapM_Ok_Forall2 in H.
  induction H as [|r p raw pts Hr _ IH]; constructor; [|done].
  apply mapM_Ok_Forall2 in Hr. clear -Hr.
  induction Hr as [|v x r p Hv _ IH]; constructor; [|done].
  unfold to_coordinate in Hv. destruct (to_float v) as [y|]; [|done].
  rewrite bind_Ok in Hv. destruct (isfinite y) eqn:Hy; [|done].
  by injection Hv as <-.
Qed.

(** The different points of a pool are its first point and the points
    that can be selected after it. *)
Lemma distinct_seed (c0 : point) (rest : list point) :
  length (remove_dups (c0 :: rest)) = S (selectable (c0 :: rest) [c0]).
Proof.
  unfold selectable. cbn [drop].
  change (S (length ?l)) with (length (c0 :: l)).
  apply Permutation_length, NoDup_Permutation.
  - apply NoDup_remove_dups.
  - apply NoDup_cons. split; [|apply NoDup_remove_dups].
    rewrite elem_of_remove_dups, list_elem_of_filter.
    intros [H _]. apply H. by apply list_elem_of_singleton.
  - intros x.
    rewrite elem_of_remove_dups, !elem_of_cons, elem_of_remove_dups,
      list_elem_of_filter, list_elem_of_singleton.
    destruct (decide (x = c0)); tauto.
Qed.

Lemma iloc_all (samples : list sample) (ids : list nat) :
  (forall j, j ∈ ids -> j < length samples) ->
  mapM (iloc (from_dict samples)) ids
  = Ok ((fun j => df_record (df_columns (from_dict samples))
                            (default [] (samples !! j))) <$> ids).
Proof.
  intros Hlt. apply mapM_all_Ok. intros j Hj. unfold iloc.
  destruct (lookup_lt_is_Some_2 samples j (Hlt j Hj)) as [s Hs].
  change (df_rows (from_dict samples)) with samples.
  unfold sample, dict in *. by rewrite Hs.
Qed.

(** ** [downselect] *)

Lemma downselect_unfold (names : sampler -> list key)
  (pd_read_csv : string -> result (list sample)) (self : sampler)
  (samples : list sample) (raw sp_raw : list (list scalar))
  (candidates sp : list point) (ids0 : list nat) (n0 num_points : Z) :
  _samples self = Some samples ->
  df_values (from_dict samples) (names self) = Ok raw ->
  seed pd_read_csv self (names self) raw = Ok (sp_raw, ids0, n0) ->
  asarray raw = Ok candidates ->
  asarray sp_raw = Ok sp ->
  downselect names true pd_read_csv self num_points
  = (new_sample_ids ←
       select (Z.to_nat (num_points - n0)) candidates (length candidates)
              sp ids0;
     new_samples ← mapM (iloc (from_dict samples)) new_sample_ids;
     Ok (set_samples self new_samples)).
Proof.
  intros Hs Hraw Hseed Hpts Hsp. unfold downselect.
  rewrite Hs. cbn [negb default from_option id]. rewrite bind_Ok.
  rewrite Hraw, !bind_Ok, Hseed, bind_Ok. cbv beta iota zeta.
  rewrite Hpts, bind_Ok. by rewrite Hsp, bind_Ok.
Qed.


(** What the seed is: the first candidate under index 0 when there are no
    previous samples, and otherwise the previous points under no index.
    Either way the seed indices stand for seed points. *)
Lemma seed_spec (names : sampler -> list key)
  (pd_read_csv : string -> result (list sample)) (self : sampler)
  (raw sp_raw : list (list scalar)) (candidates sp : list point)
  (ids0 : list nat) (n0 : Z) :
  seed pd_read_csv self (names self) raw = Ok (sp_raw, ids0, n0) ->
  asarray raw = Ok candidates ->
  asarray sp_raw = Ok sp ->
  (forall s c, s ∈ ids0 -> candidates !! s = Some c -> c ∈ sp)
  /\ NoDup ids0
  /\ (d_previous_samples (_data self) = None ->
      exists c0 rest, candidates = c0 :: rest /\ sp = [c0]
                      /\ ids0 = [0] /\ n0 = 1%Z).
Proof.
  intros Hseed Hpts Hsp. unfold seed in Hseed.
  destruct (d_previous_samples (_data self)) as [path|].
  - destruct (pd_read_csv path) as [prev|e].
    2:{ by destruct e. }
    rewrite bind_Ok in Hseed. rename Hseed into Hseed'.
    destruct (df_values (from_dict prev) (names self)) as [spr|] eqn:Hv;
      [|done].
    rewrite bind_Ok in Hseed'. injection Hseed' as <- <- <-.
    split_and!.
    + intros s c Hs'. by apply elem_of_nil in Hs'.
    + apply NoDup_nil_2.
    + done.
  - destruct raw as [|r0 raw]; [done|]. injection Hseed as <- <- <-.
    destruct (asarray_cons _ _ _ Hpts) as (c0 & rest & -> & Hc0).
    rewrite Hc0 in Hsp. injection Hsp as <-.
    split_and!.
    + intros s c Hs' Hc. apply list_elem_of_singleton in Hs' as ->.
      cbn in Hc. injection Hc as <-. by apply list_elem_of_singleton.
    + apply NoDup_singleton.
    + intros _. by exists c0, rest.
Qed.

(** C2 (as amended).  For a sampler without ['previous_samples'] whose
    cached samples give the candidate points [candidates], with finite
    coordinates, over its parameter columns, and [num_points >= 1]:
    when [num_points] is at most the number of different candidate points
    and different candidate points are at a positive distance in floats,
    [downselect] selects exactly [num_points] indices, index 0 first and
    no index twice; every later index [j] names a candidate for which the
    tree of the points selected before it answers a distance, that to a
    nearest of those points, which the answer for no candidate not yet
    selected exceeds; and the cached samples become the rows of the
    selected indices, in order of selection.  When the pool is not empty
    and [num_points] is more than the number of different candidate
    points, [downselect] raises the search-exhaustion error. *)
Theorem downselect_farthest_points (names : sampler -> list key)
  (pd_read_csv : string -> result (list sample)) (self : sampler)
  (samples : list sample) (raw : list (list scalar))
  (candidates : list point) (num_points : Z) :
  _samples self = Some samples ->
  d_previous_samples (_data self) = None ->
  df_values (from_dict samples) (names self) = Ok raw ->
  asarray raw = Ok candidates ->
  (1 <= num_points)%Z ->
  ((num_points <= Z.of_nat (length (remove_dups candidates)))%Z ->
   apart candidates candidates = true ->
   exists ids,
     downselect names true pd_read_csv self num_points
     = Ok (set_samples self (selected_rows samples ids))
     /\ length ids = Z.to_nat num_points
     /\ ids !! 0 = Some 0
     /\ NoDup ids
     /\ (forall j, j ∈ ids -> j < length samples)
     /\ forall n j, 1 <= n -> ids !! n = Some j ->
          exists cj dj,
            candidates !! j = Some cj
            /\ reported (points_at candidates (take n ids)) cj = Some dj
            /\ nearest (points_at candidates (take n ids)) cj dj
            /\ forall i ci di,
                 i ∉ take n ids -> candidates !! i = Some ci ->
                 reported (points_at candidates (take n ids)) ci = Some di ->
                 float_lt dj di = false)
  /\ ((0 < Z.of_nat (length (remove_dups candidates)) < num_points)%Z ->
      downselect names true pd_read_csv self num_points
      = Raise (Exception exhausted)).
Proof.
  intros Hs Hprev Hraw Hpts Hone.
  destruct (df_values_rows _ _ _ Hraw) as [Hlenraw _].
  change (df_rows (from_dict samples)) with samples in Hlenraw.
  destruct (asarray_dims _ _ 0 Hpts) as [Hlenc _].
  pose proof (asarray_finite _ _ Hpts) as Hfin.
  destruct raw as [|r0 raw].
  { apply nil_length_inv in Hlenc. subst candidates. cbn.
    split; intros; lia. }
  destruct (asarray_cons _ _ _ Hpts) as (c0 & rest & -> & Hc0).
  assert (Hseed : seed pd_read_csv self (names self) (r0 :: raw)
                  = Ok ([r0], [0], 1%Z)).
  { unfold seed. by rewrite Hprev. }
  rewrite (downselect_unfold names pd_read_csv self samples (r0 :: raw) [r0]
             (c0 :: rest) [c0] [0] 1 num_points) by done.
  pose proof (distinct_seed c0 rest) as HD.
  split.
  - intros Hnum Hapart.
    destruct (select_selects (c0 :: rest) (c0 :: rest) Hfin Hapart
                (fun c H => H) (Z.to_nat (num_points - 1)) [c0] [0])
      as (new & Heq & Hlen & Hnd & Hrange & Hfar).
    + done.
    + intros q Hq. apply list_elem_of_singleton in Hq as ->.
      apply elem_of_cons. by left.
    + intros s c Hs' Hc. apply list_elem_of_singleton in Hs' as ->.
      cbn in Hc. injection Hc as <-. by apply list_elem_of_singleton.
    + apply NoDup_singleton.
    + unfold point in *. rewrite HD in Hnum. lia.
    + exists (0 :: new). split_and!.
      * unfold point in *. rewrite Heq, bind_Ok. cbn [app].
        rewrite iloc_all, bind_Ok; [done|].
        intros j Hj. apply elem_of_cons in Hj as [->|Hj].
        -- rewrite <- Hlenraw. cbn. lia.
        -- apply Hrange in Hj. rewrite <- Hlenraw, <- Hlenc. lia.
      * cbn. rewrite Hlen. lia.
      * done.
      * done.
      * intros j Hj. apply elem_of_cons in Hj as [->|Hj].
        -- rewrite <- Hlenraw. cbn. lia.
        -- apply Hrange in Hj. rewrite <- Hlenraw, <- Hlenc. lia.
      * intros [|n] j Hn Hj; [lia|]. cbn in Hj.
        destruct (Hfar n j Hj) as (cj & dj & Hcj & Hrep & _ & Hmax).
        exists cj, dj. cbn [take].
        rewrite (points_at_cons (c0 :: rest) 0 c0) by done.
        split_and!; [done|done|by apply reported_nearest|].
        intros i ci di Hi Hci Hdi. apply (Hmax i ci di); [|done|done].
        destruct i as [|i]; [|lia]. exfalso. apply Hi, elem_of_cons. by left.
  - intros Hnum.
    rewrite (select_exhausts (c0 :: rest) Hfin); [done|done|].
    unfold point in *. rewrite HD in Hnum. lia.
Qed.

Lemma downselect_farthest_points_witness :
  exists ids,
    downselect parameters true (fun _ => Raise ValueError)
               (set_samples (__init__ xy_data) spread_pool) 3
    = Ok (set_samples (set_samples (__init__ xy_data) spread_pool)
            (selected_rows spread_pool ids))
    /\ length ids = 3 /\ ids !! 0 = Some 0 /\ NoDup ids.
Proof.
  destruct (proj1 (downselect_farthest_points parameters
              (fun _ => Raise ValueError)
              (set_samples (__init__ xy_data) spread_pool) spread_pool
              [[SInt 0; SInt 0]; [SInt 1; SInt 0]; [SInt 5; SInt 5];
               [SInt 0; SInt 1]; [SInt 3; SInt 3]]
              [[float_of_Z 0; float_of_Z 0]; [float_of_Z 1; float_of_Z 0];
               [float_of_Z 5; float_of_Z 5]; [float_of_Z 0; float_of_Z 1];
               [float_of_Z 3; float_of_Z 3]] 3
              eq_refl eq_refl eq_refl eq_refl ltac:(lia)))
    as (ids & H1 & H2 & H3 & H4 & _).
  - by vm_compute.
  - by vm_compute.
  - exists ids. by split_and!.
Defined.

(** C2 as stated does not hold.  With a pool of two candidates at the
    same point, [num_points = 2] is between 1 and the size of the pool,
    and [downselect] raises instead of selecting two points.  Two
    different points do not help when they are so close that the squares
    of their coordinate differences round to zero: their distance in
    floats is zero, and [downselect] raises as well.  And the maximum is
    that of the distances in floats: in [tie_pool] the third point is
    farther from the first than the second is, by less than rounding
    keeps, both distances are 5 in floats, and [downselect] keeps the
    second. *)
Lemma downselect_twin_pool_raises :
  (length twin_pool = 2
   /\ downselect parameters true (fun _ => Raise ValueError)
                 (set_samples (__init__ xy_data) twin_pool) 2
      = Raise (Exception exhausted))
  /\ (length close_pool = 2
      /\ close_pool !! 0 ≠ close_pool !! 1
      /\ downselect parameters true (fun _ => Raise ValueError)
                    (set_samples (__init__ xy_data) close_pool) 2
         = Raise (Exception exhausted))
  /\ (downselect parameters true (fun _ => Raise ValueError)
                 (set_samples (__init__ xy_data) tie_pool) 2
      = Ok (set_samples (set_samples (__init__ xy_data) tie_pool)
              (selected_rows tie_pool [0; 1]))
      /\ distance [float_zero; float_zero] [float_of_Z 3; float_of_Z 4]
         = float_of_Z 5
      /\ distance [float_zero; float_zero]
                  [float_of_Z 5; float_of_dyadic 1 (-30)]
         = float_of_Z 5).
Proof. split_and!; try by vm_compute. Qed.

(** C6.  Whatever the seed of the selection, when the candidates and the
    seed points are tables of numbers over the parameter columns and there
    is a seed point, [downselect] with more points requested than there
    are seed indices and different candidate points, after the first and
    away from the seed points, raises the search-exhaustion error.
    Without ['previous_samples'] that bound is the number of different
    candidate points. *)
Theorem downselect_exhausted (names : sampler -> list key)
  (pd_read_csv : string -> result (list sample)) (self : sampler)
  (samples : list sample) (raw sp_raw : list (list scalar))
  (candidates sp : list point) (ids0 : list nat) (n0 num_points : Z) :
  _samples self = Some samples ->
  df_values (from_dict samples) (names self) = Ok raw ->
  asarray raw = Ok candidates ->
  seed pd_read_csv self (names self) raw = Ok (sp_raw, ids0, n0) ->
  asarray sp_raw = Ok sp ->
  sp ≠ [] ->
  (n0 + Z.of_nat (selectable candidates sp) < num_points)%Z ->
  downselect names true pd_read_csv self num_points
  = Raise (Exception exhausted)
  /\ (d_previous_samples (_data self) = None ->
      (n0 + Z.of_nat (selectable candidates sp))%Z
      = Z.of_nat (length (remove_dups candidates))).
Proof.
  intros Hs Hraw Hpts Hseed Hsp Hne Hnum.
  pose proof (asarray_finite _ _ Hpts) as Hfin.
  destruct (seed_spec names pd_read_csv self raw sp_raw candidates sp ids0 n0
              Hseed Hpts Hsp) as (Hids & Hnd & Hnone).
  split.
  - rewrite (downselect_unfold names pd_read_csv self samples raw sp_raw
               candidates sp ids0 n0 num_points) by done.
    rewrite (select_exhausts candidates Hfin); [done|done|].
    unfold point in *. lia.
  - intros Hprev. destruct (Hnone Hprev) as (c0 & rest & -> & -> & _ & ->).
    rewrite distinct_seed. lia.
Qed.

Lemma downselect_exhausted_witness :
  downselect parameters true (fun _ => Raise ValueError)
             (set_samples (__init__ xy_data) spread_pool) 6
  = Raise (Exception exhausted).
Proof.
  apply (downselect_exhausted parameters (fun _ => Raise ValueError)
           (set_samples (__init__ xy_data) spread_pool) spread_pool
           [[SInt 0; SInt 0]; [SInt 1; SInt 0]; [SInt 5; SInt 5];
            [SInt 0; SInt 1]; [SInt 3; SInt 3]]
           [[SInt 0; SInt 0]]
           [[float_of_Z 0; float_of_Z 0]; [float_of_Z 1; float_of_Z 0];
            [float_of_Z 5; float_of_Z 5]; [float_of_Z 0; float_of_Z 1];
            [float_of_Z 3; float_of_Z 3]]
           [[float_of_Z 0; float_of_Z 0]] [0] 1 6).
  - reflexivity.
  - reflexivity.
  - reflexivity.
  - reflexivity.
  - reflexivity.
  - discriminate.
  - by vm_compute.
Defined.

End SelectFacts.

(* ===================================================================== *)
(** * More on the helpers of [scisample/utils.py] *)
(* ===================================================================== *)

Module HelperFacts.
Import Props PyFacts UtilsFacts NamesFacts BlockFacts.
Local Open Scope list_scope.

(** ** [find_duplicates] *)

Lemma NoDup_count_occ_le (l : list key) :
  NoDup l <-> forall k, (count_occ key_eq_dec l k <= 1)%nat.
Proof.
  induction l as [|x l IH].
  - split; [intros _ k; cbn; lia|intros _; apply NoDup_nil_2].
  - rewrite NoDup_cons, IH. split.
    + intros [Hx Hl] k. cbn. destruct (key_eq_dec x k) as [->|Hne]; [|done].
      rewrite (proj1 (count_occ_not_In key_eq_dec l k)); [lia|].
      by rewrite <- list_elem_of_In.
    + intros Hocc. split.
      * rewrite list_elem_of_In, (count_occ_not_In key_eq_dec).
        specialize (Hocc x). cbn in Hocc.
        destruct (key_eq_dec x x); [lia|done].
      * intros k. specialize (Hocc k). cbn in Hocc.
        destruct (key_eq_dec x k); lia.
Qed.

(** X1.  [find_duplicates] returns exactly the elements that occur at
    least twice in its argument, each of them once; it returns the empty
    list exactly when no element is repeated. *)
Theorem find_duplicates_exact (lst : list key) :
  NoDup (find_duplicates lst)
  /\ (forall k, k ∈ find_duplicates lst
                <-> (2 <= count_occ key_eq_dec lst k)%nat)
  /\ (find_duplicates lst = [] <-> NoDup lst).
Proof.
  destruct (find_duplicates_spec lst) as [Hin Hnd].
  split_and!; [done|done|].
  rewrite NoDup_count_occ_le. split.
  - intros Hnil k. destruct (le_lt_dec (count_occ key_eq_dec lst k) 1) as [|Hlt];
      [done|].
    apply Hin in Hlt. rewrite Hnil in Hlt. by apply elem_of_nil in Hlt.
  - intros Hocc. apply elem_of_nil_inv. intros k Hk.
    apply Hin in Hk. specialize (Hocc k). lia.
Qed.

(** ** [transpose_tabular] *)

Lemma omap_lookup_total {A B} (f : A -> option B) (l : list A) i :
  Forall (fun a => is_Some (f a)) l ->
  omap f l !! i = l !! i ≫= f.
Proof.
  intros Hall. revert i. induction Hall as [|a l [b Hb] Hall IH]; intros i.
  - done.
  - rewrite (omap_cons_Some f a b l Hb). destruct i as [|i]; cbn.
    + by rewrite Hb.
    + apply IH.
Qed.

Lemma omap_length_total {A B} (f : A -> option B) (l : list A) :
  Forall (fun a => is_Some (f a)) l -> length (omap f l) = length l.
Proof.
  induction 1 as [|a l [b Hb] Hall IH]; [done|].
  rewrite (omap_cons_Some f a b l Hb). cbn. by rewrite IH.
Qed.

Lemma heads_rect {A} (rows : list (list A)) c :
  Forall (fun r => length r = S c) rows ->
  mapM (fun r => match r with
                 | x :: _ => Ok x
                 | [] => Raise IndexError
                 end) rows
  = Ok (omap (fun r => r !! 0) rows).
Proof.
  induction 1 as [|r rows Hr Hall IH]; [done|].
  destruct r as [|x r]; [done|].
  rewrite mapM_cons, IH. by rewrite (omap_cons_Some _ (x :: r) x rows).
Qed.

Lemma omap_lookup_drop {A} (rows : list (list A)) j :
  omap (fun r => r !! j) (drop 1 <$> rows) = omap (fun r => r !! S j) rows.
Proof.
  induction rows as [|r rows IH]; [done|].
  cbn. rewrite IH. destruct r as [|x r]; cbn; [|done].
  by rewrite lookup_nil.
Qed.

(** The transpose of a table whose rows have [c] cells: the columns
    [0 .. c-1]. *)
Lemma zip_star_rect {A} (c : nat) (rows : list (list A)) :
  Forall (fun r => length r = c) rows ->
  zip_star c rows = (fun j => omap (fun r => r !! j) rows) <$> seq 0 c.
Proof.
  revert rows. induction c as [|c IH]; intros rows Hall; [done|].
  cbn [zip_star]. rewrite (heads_rect rows c Hall).
  rewrite IH.
  2:{ apply Forall_fmap. eapply Forall_impl; [exact Hall|].
      intros r Hr. cbn in *. rewrite length_drop. lia. }
  cbn [seq fmap list_fmap]. f_equal.
  rewrite <- (fmap_S_seq 0 c), <- list_fmap_compose.
  apply list_fmap_ext. intros _ j _. cbn. apply omap_lookup_drop.
Qed.

Lemma transpose_rect {A} (rows : list (list A)) (c : nat) :
  rows ≠ [] -> Forall (fun r => length r = c) rows ->
  length (transpose_tabular rows) = c
  /\ Forall (fun col => length col = length rows) (transpose_tabular rows)
  /\ forall i j, transpose_tabular rows !! j ≫= (.!! i)
                 = rows !! i ≫= (.!! j).
Proof.
  intros Hne Hall. unfold transpose_tabular.
  destruct rows as [|r0 rows']; [done|]. set (rows := r0 :: rows') in *.
  assert (Hr0 : length r0 = c) by by apply Forall_cons in Hall as [? _].
  rewrite Hr0, (zip_star_rect c rows Hall).
  assert (Htot : forall j, j < c ->
                           Forall (fun r : list A => is_Some (r !! j)) rows).
  { intros j Hj. eapply Forall_impl; [exact Hall|]. intros r Hr. cbn in Hr.
    apply lookup_lt_is_Some. lia. }
  split_and!.
  - by rewrite length_fmap, length_seq.
  - apply Forall_fmap, Forall_forall. intros j Hj.
    change (length (omap (fun r : list A => r !! j) rows) = length rows).
    apply elem_of_seq in Hj. apply omap_length_total, Htot. lia.
  - intros i j. rewrite list_lookup_fmap.
    destruct (decide (j < c)) as [Hj|Hj].
    + rewrite lookup_seq_lt by done.
      change (omap (fun r : list A => r !! j) rows !! i
              = rows !! i ≫= (.!! j)).
      apply omap_lookup_total, Htot. done.
    + rewrite lookup_seq_ge by lia.
      change (None = rows !! i ≫= (.!! j)).
      destruct (rows !! i) as [r|] eqn:Hr; [|done].
      change (None = r !! j).
      symmetry. apply lookup_ge_None.
      assert (length r = c); [|lia].
      eapply (proj1 (Forall_forall _ _) Hall), list_elem_of_lookup_2, Hr.
Qed.

(** X2.  For a table of at least one row whose rows all have [c] cells,
    [transpose_tabular] returns [c] columns, each as long as the table has
    rows; cell [i] of column [j] is cell [j] of row [i]; and, when the
    rows have at least one cell, transposing twice gives the table back. *)
Theorem transpose_tabular_rectangular {A} (rows : list (list A)) (c : nat) :
  rows ≠ [] -> Forall (fun r => length r = c) rows ->
  length (transpose_tabular rows) = c
  /\ Forall (fun col => length col = length rows) (transpose_tabular rows)
  /\ (forall i j, transpose_tabular rows !! j ≫= (.!! i)
                  = rows !! i ≫= (.!! j))
  /\ (0 < c -> transpose_tabular (transpose_tabular rows) = rows).
Proof.
  intros Hne Hall.
  destruct (transpose_rect rows c Hne Hall) as (Hlen & Hcols & Hcell).
  split_and!; [done..|]. intros Hc.
  assert (Hne' : transpose_tabular rows ≠ []).
  { intros Hnil. rewrite Hnil in Hlen. cbn in Hlen. lia. }
  destruct (transpose_rect (transpose_tabular rows) (length rows) Hne' Hcols)
    as (Hlen2 & Hcols2 & Hcell2).
  apply list_eq. intros i.
  destruct (decide (i < length rows)) as [Hi|Hi].
  - destruct (lookup_lt_is_Some_2 rows i Hi) as [r Hr].
    destruct (lookup_lt_is_Some_2 (transpose_tabular (transpose_tabular rows))
                i) as [t Ht]; [lia|].
    rewrite Hr, Ht. f_equal. apply list_eq. intros j.
    specialize (Hcell2 j i). rewrite Ht, Hcell in Hcell2.
    by rewrite Hr in Hcell2.
  - rewrite !(proj2 (lookup_ge_None _ _)); [done|lia..].
Qed.

Lemma transpose_tabular_rectangular_witness :
  transpose_tabular (transpose_tabular [[1; 2; 3]; [4; 5; 6]])
  = [[1; 2; 3]; [4; 5; 6]].
Proof.
  apply (transpose_tabular_rectangular [[1; 2; 3]; [4; 5; 6]] 3).
  - discriminate.
  - repeat constructor.
  - lia.
Defined.

(** ** [read_csv] and [list_to_csv] *)

Lemma append_String c (a b : string) :
  (String c a ++ b)%string = String c (a ++ b)%string.
Proof. reflexivity. Qed.

Lemma split_nonempty sep s : split sep s ≠ [].
Proof.
  destruct s as [|c s]; cbn; [done|].
  destruct (Ascii.eqb c sep); [done|]. by destruct (split sep s).
Qed.

Lemma split_fields_no_comma s :
  Forall (fun f => no_comma f = true) (split comma s).
Proof.
  induction s as [|c s IH]; cbn [split].
  - by repeat constructor.
  - destruct (Ascii.eqb c comma) eqn:Hc.
    + by constructor.
    + destruct (split comma s) as [|h t]; constructor.
      * unfold no_comma. cbn. by rewrite Hc.
      * constructor.
      * apply Forall_cons in IH as [Hh _]. unfold no_comma in *. cbn.
        by rewrite Hc.
      * by apply Forall_cons in IH as [_ Ht].
Qed.

Lemma join_split s : join "," (split comma s) = s.
Proof.
  induction s as [|c s IH]; cbn [split]; [done|].
  pose proof (split_nonempty comma s) as Hne.
  destruct (Ascii.eqb c comma) eqn:Hc.
  - apply Ascii.eqb_eq in Hc as ->.
    destruct (split comma s) as [|h t]; [done|].
    change (join "," ("" :: h :: t)) with (String "," (join "," (h :: t))).
    by rewrite IH.
  - destruct (split comma s) as [|h t]; [done|].
    destruct t as [|h' t].
    + cbn in *. by rewrite IH.
    + change (join "," (String c h :: h' :: t))
        with (String c (join "," (h :: h' :: t))).
      by rewrite IH.
Qed.

Lemma list_to_csv_total (row : list string) :
  list_to_csv row = Ok (join "," row).
Proof.
  destruct row as [|a row]; [done|]. by apply list_to_csv_join.
Qed.

(** X3.  [read_csv] raises the error of [open] for a file that cannot be
    opened.  For a file that can, it returns one row per line of the
    file; every row has at least one field and no field holds a comma;
    and writing each row back with [list_to_csv] gives the lines of the
    file with the white space at their ends removed. *)
Theorem read_csv_rows (fs : string -> option string) (filename : string) :
  match fs filename with
  | None => read_csv fs filename = Raise (FileNotFoundError filename)
  | Some content =>
      exists rows,
        read_csv fs filename = Ok rows
        /\ length rows = length (readlines content)
        /\ Forall (fun row => row ≠ []
                              /\ Forall (fun f => no_comma f = true) row)
                  rows
        /\ mapM list_to_csv rows = Ok (strip <$> readlines content)
  end.
Proof.
  unfold read_csv, open_read. destruct (fs filename) as [content|]; [|done].
  eexists. split_and!.
  - reflexivity.
  - by rewrite length_map.
  - apply Forall_forall. intros row Hrow.
    apply list_elem_of_In, in_map_iff in Hrow as (line & <- & _).
    split; [apply split_nonempty|apply split_fields_no_comma].
  - rewrite (mapM_all_Ok list_to_csv (join ",")).
    + f_equal. rewrite <- list_fmap_compose. apply list_fmap_ext.
      intros _ line _. cbn. apply join_split.
    + intros row _. apply list_to_csv_total.
Qed.

(** X4.  [list_to_csv] never raises: for every row, the empty one
    included, it returns the fields joined by commas, each field as it
    is, whatever characters it holds; and the fields of any line split at
    its commas are written back as that line. *)
Theorem list_to_csv_joins_fields :
  (forall row : list string, list_to_csv row = Ok (join "," row))
  /\ list_to_csv [] = Ok ""
  /\ (forall line : string, list_to_csv (split comma line) = Ok line).
Proof.
  split_and!.
  - apply list_to_csv_total.
  - reflexivity.
  - intros line. by rewrite list_to_csv_total, join_split.
Qed.

(** ** [_convert_dict_to_maestro_params] *)

Lemma convert_fold (samples : list sample) (ks : list key)
  (acc : dict pentry) :
  NoDup (keys acc ++ ks) ->
  Forall (fun k => Forall (fun s => k ∈ keys s) samples) ks ->
  foldlM (fun parameters key =>
            vs ← mapM (fun sample => dict_index sample key) samples;
            Ok (dict_set parameters key
                  {| values := vs;
                     label := (str_of_key key ++ ".%%")%string |}))
         ks acc
  = Ok (acc ++ ((fun k => (k, block_entry samples k)) <$> ks)).
Proof.
  revert acc. induction ks as [|k ks IH]; intros acc Hnd Hall.
  - cbn. by rewrite app_nil_r.
  - apply Forall_cons in Hall as [Hk Hall].
    cbn [foldlM]. rewrite mapM_dict_index by done. rewrite !bind_Ok.
    apply NoDup_app in Hnd as Hnd'. destruct Hnd' as (_ & Hdis & _).
    rewrite dict_set_fresh.
    2:{ intros Hin. apply (Hdis k Hin), elem_of_cons. by left. }
    rewrite IH.
    + by rewrite <- app_assoc.
    + unfold keys. rewrite fmap_app. cbn. by rewrite <- app_assoc.
    + done.
Qed.

Lemma convert_fold_missing (samples : list sample) (pre post : list key)
  (k : key) (acc : dict pentry) :
  NoDup (keys acc ++ pre) ->
  Forall (fun k => Forall (fun s => k ∈ keys s) samples) pre ->
  ~ Forall (fun s => k ∈ keys s) samples ->
  foldlM (fun parameters key =>
            vs ← mapM (fun sample => dict_index sample key) samples;
            Ok (dict_set parameters key
                  {| values := vs;
                     label := (str_of_key key ++ ".%%")%string |}))
         (pre ++ k :: post) acc
  = Raise (KeyError (str_of_key k)).
Proof.
  revert acc. induction pre as [|k0 pre IH]; intros acc Hnd Hall Hmiss.
  - cbn [app foldlM].
    assert (Hm : mapM (fun sample => dict_index sample k) samples
                 = Raise (KeyError (str_of_key k))).
    { clear -Hmiss. induction samples as [|s samples IHs].
      - destruct Hmiss. constructor.
      - rewrite mapM_cons.
        destruct (dict_get s k) as [v|] eqn:Hv.
        2:{ replace (dict_index s k) with
              (Raise (KeyError (str_of_key k)) : result scalar); [done|].
            unfold dict_index. by rewrite Hv. }
        replace (dict_index s k) with (Ok v : result scalar).
        2:{ unfold dict_index. by rewrite Hv. }
        rewrite bind_Ok, IHs; [done|]. intros Hall. apply Hmiss. constructor; [|done].
        apply dict_get_is_Some. by exists v. }
    by rewrite Hm.
  - apply Forall_cons in Hall as [Hk0 Hall].
    cbn [app foldlM]. rewrite mapM_dict_index by done. rewrite !bind_Ok.
    apply NoDup_app in Hnd as Hnd'. destruct Hnd' as (_ & Hdis & _).
    rewrite dict_set_fresh.
    2:{ intros Hin. apply (Hdis k0 Hin), elem_of_cons. by left. }
    apply IH; [|done|done].
    unfold keys. rewrite fmap_app. cbn. by rewrite <- app_assoc.
Qed.

(** X5.  [_convert_dict_to_maestro_params] raises [IndexError] on an
    empty sample list.  Otherwise it goes by the keys of the first
    sample: when every sample has all of them, the result has exactly
    those keys, in that order, each with the values of all samples and
    the label [key.%%], and keys that only later samples have are left
    out; when some sample lacks one of them, it raises [KeyError] for the
    first such key. *)
Theorem convert_follows_first_sample :
  _convert_dict_to_maestro_params [] = Raise IndexError
  /\ (forall (s0 : sample) (rest : list sample),
         dict_wf s0 ->
         Forall (fun s => keys s0 ⊆ keys s) rest ->
         _convert_dict_to_maestro_params (s0 :: rest)
         = Ok ((fun k => (k, block_entry (s0 :: rest) k)) <$> keys s0))
  /\ (forall (s0 : sample) (rest : list sample) pre k post,
         dict_wf s0 ->
         keys s0 = pre ++ k :: post ->
         Forall (fun k' => Forall (fun s => k' ∈ keys s) rest) pre ->
         ~ Forall (fun s => k ∈ keys s) rest ->
         _convert_dict_to_maestro_params (s0 :: rest)
         = Raise (KeyError (str_of_key k))).
Proof.
  split_and!.
  - reflexivity.
  - intros s0 rest Hwf Hsup. unfold _convert_dict_to_maestro_params.
    rewrite bind_Ok. rewrite (convert_fold (s0 :: rest) (keys s0) []).
    + done.
    + done.
    + apply Forall_forall. intros k Hk. constructor; [done|].
      eapply Forall_impl; [exact Hsup|]. intros s Hs. by apply Hs.
  - intros s0 rest pre k post Hwf Hkeys Hpre Hmiss.
    unfold _convert_dict_to_maestro_params. rewrite bind_Ok, Hkeys.
    apply convert_fold_missing.
    + unfold dict_wf in Hwf. rewrite Hkeys in Hwf.
      by apply NoDup_app in Hwf as (? & _).
    + apply Forall_forall. intros k' Hk'. constructor.
      * rewrite Hkeys. apply elem_of_app. by left.
      * by apply (proj1 (Forall_forall _ _) Hpre).
    + intros Hall. apply Hmiss. by apply Forall_cons in Hall as [_ ?].
Qed.

Lemma convert_follows_first_sample_witness :
  _convert_dict_to_maestro_params
    [[(KStr "a", SInt 1)]; [(KStr "b", SInt 2); (KStr "a", SInt 3)]]
  = Ok [(KStr "a", {| values := [SInt 1; SInt 3]; label := "a.%%" |})]
  /\ _convert_dict_to_maestro_params
       [[(KStr "a", SInt 1); (KStr "b", SInt 2)]; [(KStr "a", SInt 3)]]
     = Raise (KeyError "b").
Proof.
  split.
  - apply (proj1 (proj2 convert_follows_first_sample)
             [(KStr "a", SInt 1)] [[(KStr "b", SInt 2); (KStr "a", SInt 3)]]).
    + by apply (bool_decide_unpack _).
    + apply Forall_singleton. intros k Hk.
      change (k ∈ [KStr "a"]) in Hk.
      apply list_elem_of_singleton in Hk as ->.
      by apply (bool_decide_unpack _).
  - apply (proj2 (proj2 convert_follows_first_sample)
             [(KStr "a", SInt 1); (KStr "b", SInt 2)] [[(KStr "a", SInt 3)]]
             [KStr "a"] (KStr "b") []).
    + by apply (bool_decide_unpack _).
    + reflexivity.
    + repeat constructor.
    + intros H. apply Forall_cons in H as [H _]. revert H.
      by apply (bool_decide_eq_false_1 _).
Defined.

End HelperFacts.

(* ===================================================================== *)
(** * More on the checks of names and bounds *)
(* ===================================================================== *)

Module ChecksFacts.
Import Props PyFacts NamesFacts.
Local Open Scope list_scope.

(** X6.  The shared checks of the names run in a fixed order, and the
    first that fails gives the error: a name that is not a string, then
    no name at all, then a repeated name.  They pass exactly when every
    name is a string, there is at least one name and no name is
    repeated. *)
Theorem check_variables_first_failure (names : sampler -> list key)
  (str_set : list key -> string) (self : sampler) :
  _check_variables names str_set self
  = (if decide (Forall (fun k => isinstance_str k = true) (names self)) then
       if decide (names self = []) then
         Raise (SamplingError existence_message)
       else if decide (NoDup (names self)) then Ok tt
       else Raise (SamplingError
                     (duplicates_prefix
                      ++ str_set (find_duplicates (names self)))%string)
     else Raise (SamplingError not_strings_message))
  /\ (_check_variables names str_set self = Ok tt
      <-> Forall (fun k => isinstance_str k = true) (names self)
          /\ names self ≠ [] /\ NoDup (names self)).
Proof.
  assert (Heq : _check_variables names str_set self
  = (if decide (Forall (fun k => isinstance_str k = true) (names self)) then
       if decide (names self = []) then
         Raise (SamplingError existence_message)
       else if decide (NoDup (names self)) then Ok tt
       else Raise (SamplingError
                     (duplicates_prefix
                      ++ str_set (find_duplicates (names self)))%string)
     else Raise (SamplingError not_strings_message))).
  { unfold _check_variables.
    destruct (decide (Forall (fun k => isinstance_str k = true) (names self)))
      as [Hstr|Hstr].
    2:{ by rewrite check_strings_raises. }
    rewrite check_strings_ok by done. rewrite bind_Ok.
    unfold _check_variables_existence, _check_variables_for_dups.
    destruct (decide (names self = [])) as [Hnil|Hne].
    { rewrite Hnil. reflexivity. }
    rewrite (decide_False (P := length (names self) = 0)).
    2:{ intros Hlen. by apply nil_length_inv in Hlen. }
    rewrite bind_Ok.
    destruct (decide (NoDup (names self))) as [Hnd|Hdup].
    - rewrite decide_False; [done|]. intros Hlen. apply Hlen. symmetry.
      by apply remove_dups_length_NoDup.
    - rewrite decide_True; [done|]. intros Hlen. apply Hdup.
      by apply remove_dups_length_NoDup. }
  split; [exact Heq|]. rewrite Heq.
  destruct (decide (Forall (fun k => isinstance_str k = true) (names self)));
    [|split; [done|tauto]].
  destruct (decide (names self = [])); [split; [done|tauto]|].
  destruct (decide (NoDup (names self))); [done|split; [done|tauto]].
Qed.

(** ** The bound checks *)

Lemma digits_of_uint (d : Decimal.uint) :
  all_chars is_digit (NilEmpty.string_of_uint d) = true.
Proof. induction d; [done|by cbn [NilEmpty.string_of_uint all_chars]; rewrite IHd..]. Qed.

Lemma isnumeric_of_uint (d : Decimal.uint) :
  isnumeric (NilZero.string_of_uint d) = true.
Proof.
  pose proof (digits_of_uint d) as H. by destruct d.
Qed.

(** [str(z).isnumeric()] holds exactly for the integers that are not
    negative: the sign is not a digit. *)
Lemma isnumeric_str_of_Z (z : Z) : isnumeric (str_of_Z z) = (0 <=? z)%Z.
Proof.
  unfold str_of_Z. destruct z as [|p|p]; cbn [Z.to_int NilZero.string_of_int].
  - reflexivity.
  - apply isnumeric_of_uint.
  - reflexivity.
Qed.

Lemma check_bounds_step (repr_float : float -> string) (value : dict scalar)
  (a b : scalar) :
  bounds_are value a b ->
  (mn ← dict_index value (KStr "min");
   _ ← (if negb (isnumeric (py_str repr_float mn)) then
          log_and_raise_exception "parameter must have a numeric minimum"
        else Ok tt);
   mx ← dict_index value (KStr "max");
   if negb (isnumeric (py_str repr_float mx)) then
     log_and_raise_exception "parameter must have a numeric maximum"
   else Ok tt)
  = if negb (numeric_text repr_float a) then
      Raise (SamplingError minimum_message)
    else if negb (numeric_text repr_float b) then
      Raise (SamplingError maximum_message)
    else Ok tt.
Proof.
  intros [Ha Hb]. unfold dict_index, numeric_text. rewrite Ha, Hb.
  rewrite bind_Ok. destruct (isnumeric (py_str repr_float a)); [|done].
  cbn [negb]. rewrite !bind_Ok.
  by destruct (isnumeric (py_str repr_float b)).
Qed.

(** X7.  The bound checks of [is_valid] go through ['parameters'] in
    order and stop at the first entry with a bound whose text is not all
    digits, the minimum being looked at before the maximum; without a
    ['parameters'] block they raise [KeyError].  An integer bound passes
    exactly when it is not negative, so the checks pass when all bounds
    are non-negative integers, and a negative minimum gives the error
    about the minimum. *)
Theorem check_bounds_first_failure (repr_float : float -> string)
  (self : sampler) :
  (d_parameters (_data self) = None ->
   check_bounds repr_float self = Raise (KeyError "parameters"))
  /\ (forall pre k value post a b,
         d_parameters (_data self) = Some (pre ++ (k, value) :: post) ->
         Forall (fun kv => exists a' b',
                     bounds_are kv.2 a' b'
                     /\ numeric_text repr_float a' = true
                     /\ numeric_text repr_float b' = true) pre ->
         bounds_are value a b ->
         (numeric_text repr_float a = false ->
          check_bounds repr_float self
          = Raise (SamplingError minimum_message))
         /\ (numeric_text repr_float a = true ->
             numeric_text repr_float b = false ->
             check_bounds repr_float self
             = Raise (SamplingError maximum_message)))
  /\ (forall params,
         d_parameters (_data self) = Some params ->
         Forall (fun kv => exists a' b',
                     bounds_are kv.2 a' b'
                     /\ numeric_text repr_float a' = true
                     /\ numeric_text repr_float b' = true) params ->
         check_bounds repr_float self = Ok tt)
  /\ (forall z, numeric_text repr_float (SInt z) = (0 <=? z)%Z).
Proof.
  set (body := fun (_ : unit) (kv : key * dict scalar) =>
                 let '(key, value) := kv in
                 mn ← dict_index value (KStr "min");
                 _ ← (if negb (isnumeric (py_str repr_float mn)) then
                        log_and_raise_exception
                          "parameter must have a numeric minimum"
                      else Ok tt);
                 mx ← dict_index value (KStr "max");
                 if negb (isnumeric (py_str repr_float mx)) then
                   log_and_raise_exception
                     "parameter must have a numeric maximum"
                 else Ok tt).
  assert (Hbody : forall k value a b,
             bounds_are value a b ->
             body tt (k, value)
             = if negb (numeric_text repr_float a) then
                 Raise (SamplingError minimum_message)
               else if negb (numeric_text repr_float b) then
                 Raise (SamplingError maximum_message)
               else Ok tt).
  { intros k value a b Hb. exact (check_bounds_step repr_float value a b Hb). }
  assert (Hcons : forall kv rest,
             foldlM body (kv :: rest) tt
             = body tt kv ≫= foldlM body rest) by reflexivity.
  assert (Hpass : forall pre rest,
             Forall (fun kv => exists a' b',
                         bounds_are kv.2 a' b'
                         /\ numeric_text repr_float a' = true
                         /\ numeric_text repr_float b' = true) pre ->
             foldlM body (pre ++ rest) tt = foldlM body rest tt).
  { induction pre as [|[k0 v0] pre IH]; intros rest Hall; [done|].
    apply Forall_cons in Hall as [(a' & b' & Hb & Ha' & Hb') Hall].
    cbn [app]. rewrite Hcons, (Hbody k0 v0 a' b' Hb), Ha', Hb'.
    cbn [negb]. rewrite bind_Ok. by apply IH. }
  assert (Hcb : forall params,
             d_parameters (_data self) = Some params ->
             check_bounds repr_float self = foldlM body params tt).
  { intros params Hp. unfold check_bounds. by rewrite Hp. }
  split_and!.
  - intros Hnone. unfold check_bounds. by rewrite Hnone.
  - intros pre k value post a b Hp Hpre Hb.
    rewrite (Hcb _ Hp), (Hpass pre _ Hpre), Hcons, (Hbody k value a b Hb).
    split.
    + intros Ha. by rewrite Ha.
    + intros Ha Hb'. by rewrite Ha, Hb'.
  - intros params Hp Hall. rewrite (Hcb _ Hp).
    rewrite <- (app_nil_r params). by rewrite (Hpass params [] Hall).
  - intros z. unfold numeric_text. cbn [py_str]. apply isnumeric_str_of_Z.
Qed.

Lemma check_bounds_first_failure_witness :
  check_bounds (fun _ => "") (__init__ negative_minimum_data)
  = Raise (SamplingError minimum_message).
Proof.
  destruct (proj1 (proj2 (check_bounds_first_failure
                            (fun _ => "") (__init__ negative_minimum_data)))
              [(KStr "X2", [(KStr "min", SInt 5); (KStr "max", SInt 10)])]
              (KStr "X3") [(KStr "min", SInt (-5)); (KStr "max", SInt 10)]
              [] (SInt (-5)) (SInt 10)) as [H _].
  - reflexivity.
  - repeat constructor. by exists (SInt 5), (SInt 10).
  - by split.
  - by apply H.
Defined.

End ChecksFacts.

(* ===================================================================== *)
(** * The cached attributes *)
(* ===================================================================== *)

Module CacheFacts.
Import Props PyFacts BlockFacts RandomFacts.
Local Open Scope list_scope.

(** [RandomSampler.get_samples] only assigns [_samples]. *)
Lemma get_samples_frame (rr : nat -> float) (self : sampler) (n : nat) :
  _data (get_samples rr self n).1.2 = _data self
  /\ _parameter_block (get_samples rr self n).1.2 = _parameter_block self
  /\ _pgen (get_samples rr self n).1.2 = _pgen self.
Proof.
  unfold get_samples. destruct (_samples self); [done|].
  cbv zeta.
  destruct (params ← data_index (d_parameters (_data (set_samples self [])))
                               "parameters";
            dicts ← bounds_dicts params;
            num ← data_index (d_num_samples (_data (set_samples self [])))
                             "num_samples";
            count ← py_range num;
            Ok (params, dicts, count))
    as [[[params [mn rg]] count]|e]; [|done].
  by destruct (draw_list rr count params mn rg [] n) as [[rl|e] n2].
Qed.

(** X8.  After any call of [RandomSampler.get_samples] the sampler holds
    a sample list, and every later call returns that list without drawing
    a fraction and without changing the sampler.  The list is the one the
    call returned; after a call that raised on a sampler without samples,
    it is the empty list, so the error is not raised again. *)
Theorem get_samples_cached (rr : nat -> float) (self self' : sampler)
  (n n' : nat) (r : result (list sample)) :
  get_samples rr self n = (r, self', n') ->
  exists s,
    _samples self' = Some s
    /\ (forall s0, r = Ok s0 -> s = s0)
    /\ (_samples self = None -> (exists e, r = Raise e) -> s = [])
    /\ forall (rr' : nat -> float) (m : nat),
         get_samples rr' self' m = (Ok s, self', m).
Proof.
  unfold get_samples at 1. destruct (_samples self) as [s|] eqn:Hs.
  - intros [= <- <- <-]. exists s. split_and!.
    + done.
    + by intros s0 [= <-].
    + done.
    + intros rr' m. unfold get_samples. by rewrite Hs.
  - cbv zeta.
    destruct (params ← data_index (d_parameters (_data (set_samples self [])))
                                 "parameters";
              dicts ← bounds_dicts params;
              num ← data_index (d_num_samples (_data (set_samples self [])))
                               "num_samples";
              count ← py_range num;
              Ok (params, dicts, count))
      as [[[params [mn rg]] count]|e].
    2:{ intros [= <- <- <-]. exists []. by split_and!. }
    destruct (draw_list rr count params mn rg [] n) as [[rl|e] n2].
    + intros [= <- <- <-]. eexists. split_and!.
      * reflexivity.
      * by intros s0 [= <-].
      * by intros _ [e [=]].
      * done.
    + intros [= <- <- <-]. exists []. by split_and!.
Qed.

Lemma get_samples_cached_witness :
  exists s,
    _samples (set_samples (__init__ constants_only_data) []) = Some s
    /\ forall (rr' : nat -> float) (m : nat),
         get_samples rr' (set_samples (__init__ constants_only_data) []) m
         = (Ok s, set_samples (__init__ constants_only_data) [], m).
Proof.
  destruct (get_samples_cached (fun _ => float_zero) (__init__ constants_only_data)
              (set_samples (__init__ constants_only_data) []) 0 0
              (Raise (KeyError "parameters")) eq_refl)
    as (s & H1 & _ & _ & H4).
  by exists s.
Defined.

(** X9.  After any call of [parameter_block], over a [get_samples] that
    leaves [_parameter_block] alone, the sampler holds a block and every
    later call returns it without asking for the samples again.  The block
    is the one the call returned; after a call in which [get_samples]
    raised on a sampler without a block, it is the empty block. *)
Theorem parameter_block_cached (get_samples : method (list sample))
  (self self' : sampler) (n n' : nat) (r : result (dict pentry)) :
  (forall s m, _parameter_block (get_samples s m).1.2 = _parameter_block s) ->
  parameter_block get_samples self n = (r, self', n') ->
  exists b,
    _parameter_block self' = Some b
    /\ (forall b0, r = Ok b0 -> b = b0)
    /\ (_parameter_block self = None -> (exists e, r = Raise e) -> b = [])
    /\ forall (get_samples' : method (list sample)) (m : nat),
         parameter_block get_samples' self' m = (Ok b, self', m).
Proof.
  intros Hframe. unfold parameter_block at 1.
  destruct (_parameter_block self) as [b|] eqn:Hb.
  - intros [= <- <- <-]. exists b. split_and!.
    + done.
    + by intros b0 [= <-].
    + done.
    + intros gs' m. unfold parameter_block. by rewrite Hb.
  - pose proof (Hframe (set_parameter_block self []) n) as Hf.
    destruct (get_samples (set_parameter_block self []) n)
      as [[[samples|e] self1] n1].
    + intros [= <- <- <-]. eexists. split_and!.
      * reflexivity.
      * by intros b0 [= <-].
      * by intros _ [e [=]].
      * done.
    + intros [= <- <- <-]. cbn in Hf. exists []. split_and!.
      * done.
      * done.
      * done.
      * intros gs' m. unfold parameter_block. by rewrite Hf.
Qed.

Lemma parameter_block_cached_witness :
  exists b,
    _parameter_block
      (set_parameter_block (set_samples (__init__ constants_only_data) []) [])
    = Some b
    /\ forall (get_samples' : method (list sample)) (m : nat),
         parameter_block get_samples'
           (set_parameter_block
              (set_samples (__init__ constants_only_data) []) []) m
         = (Ok b,
            set_parameter_block
              (set_samples (__init__ constants_only_data) []) [], m).
Proof.
  destruct (parameter_block_cached (get_samples (fun _ => float_zero))
              (__init__ constants_only_data)
              (set_parameter_block
                 (set_samples (__init__ constants_only_data) []) [])
              0 0 (Raise (KeyError "parameters"))
              (fun s m => proj1 (proj2 (get_samples_frame _ s m))) eq_refl)
    as (b & H1 & _ & _ & H4).
  by exists b.
Defined.

(** ** [maestro_pgen] *)

Lemma register_all (params : dict pentry) (g : pgen) :
  fold_left (fun (g : pgen) kv => g ++ [(kv.1, values kv.2, label kv.2)])
            params g
  = g ++ ((fun kv => (kv.1, values kv.2, label kv.2)) <$> params).
Proof.
  revert g. induction params as [|kv params IH]; intros g; cbn.
  - by rewrite app_nil_r.
  - by rewrite IH, <- app_assoc.
Qed.

(** X10.  [maestro_pgen] raises its own error when the orchestrator is
    not installed, also on a sampler that holds a generator, and then
    neither asks for samples nor changes the sampler.  With the
    orchestrator installed and no generator held, an error of
    [get_samples] is passed on, and an empty sample list raises
    [IndexError]; in both cases no generator is stored. *)
Theorem maestro_pgen_errors (get_samples : method (list sample))
  (self : sampler) (n : nat) :
  maestro_pgen get_samples false self n
  = (Raise (Exception not_installed_message), self, n)
  /\ (_pgen self = None ->
      forall e self1 n1,
        get_samples self n = (Raise e, self1, n1) ->
        maestro_pgen get_samples true self n = (Raise e, self1, n1))
  /\ (_pgen self = None ->
      forall self1 n1,
        get_samples self n = (Ok [], self1, n1) ->
        maestro_pgen get_samples true self n = (Raise IndexError, self1, n1)).
Proof.
  split_and!.
  - reflexivity.
  - intros Hg e self1 n1 Hget. unfold maestro_pgen. cbn [negb].
    by rewrite Hg, Hget.
  - intros Hg self1 n1 Hget. unfold maestro_pgen. cbn [negb].
    by rewrite Hg, Hget.
Qed.

Lemma maestro_pgen_errors_witness :
  maestro_pgen (get_samples (fun _ => float_zero)) true
               (__init__ no_samples_data) 0
  = (Raise IndexError, set_samples (__init__ no_samples_data) [], 0).
Proof.
  apply (proj2 (proj2 (maestro_pgen_errors (get_samples (fun _ => float_zero))
                         (__init__ no_samples_data) 0))).
  - reflexivity.
  - reflexivity.
Defined.

(** X11.  With the orchestrator installed, on a sampler that holds no
    generator and whose samples share their keys, [maestro_pgen] registers
    one parameter per key of the first sample, in that order, with the
    values the samples give to the key and the label [key.%%]; these are
    the entries of the parameter block.  It stores the generator, and
    every later call returns it without asking for samples. *)
Theorem maestro_pgen_registers (get_samples : method (list sample))
  (self self1 : sampler) (n n1 : nat) (s0 : sample) (rest : list sample) :
  _pgen self = None ->
  get_samples self n = (Ok (s0 :: rest), self1, n1) ->
  Forall dict_wf (s0 :: rest) ->
  Forall (fun s => keys s ≡ₚ keys s0) (s0 :: rest) ->
  let g := registered (s0 :: rest) <$> keys s0 in
  maestro_pgen get_samples true self n = (Ok g, set_pgen self1 g, n1)
  /\ g = (fun kv => (kv.1, values kv.2, label kv.2))
           <$> block_of_samples (s0 :: rest)
  /\ forall (get_samples' : method (list sample)) (m : nat),
       maestro_pgen get_samples' true (set_pgen self1 g) m
       = (Ok g, set_pgen self1 g, m).
Proof.
  intros Hg Hget Hwf Hall g. split_and!.
  - unfold maestro_pgen. cbn [negb]. rewrite Hg, Hget.
    rewrite (convert_shared s0 rest Hwf Hall), register_all.
    cbn [app]. rewrite <- list_fmap_compose. reflexivity.
  - rewrite (block_of_samples_shared s0 rest Hwf Hall).
    rewrite <- list_fmap_compose. reflexivity.
  - intros gs' m. reflexivity.
Qed.

Lemma maestro_pgen_registers_witness :
  maestro_pgen (fun self n => (Ok [xy 0 0; xy 1 0], self, n)) true
               (__init__ xy_data) 0
  = (Ok [(KStr "x", [SInt 0; SInt 1], "x.%%");
         (KStr "y", [SInt 0; SInt 0], "y.%%")],
     set_pgen (__init__ xy_data)
       [(KStr "x", [SInt 0; SInt 1], "x.%%");
        (KStr "y", [SInt 0; SInt 0], "y.%%")], 0).
Proof.
  apply (maestro_pgen_registers
           (fun self n => (Ok [xy 0 0; xy 1 0], self, n))
           (__init__ xy_data) (__init__ xy_data) 0 0 (xy 0 0) [xy 1 0]).
  - reflexivity.
  - reflexivity.
  - repeat constructor; by apply (bool_decide_unpack _).
  - repeat constructor.
Defined.

(** ** The block of samples that do not share their keys *)

Lemma first_seen_spec (ks seen : list key) :
  NoDup seen ->
  NoDup (first_seen ks seen)
  /\ forall k, k ∈ first_seen ks seen <-> k ∈ seen \/ k ∈ ks.
Proof.
  unfold first_seen. revert seen.
  induction ks as [|k0 ks IH]; intros seen Hnd; cbn [fold_left].
  - split; [done|]. intros k. rewrite elem_of_nil. tauto.
  - destruct (bool_decide (k0 ∈ seen)) eqn:Hk0.
    + apply bool_decide_eq_true in Hk0.
      destruct (IH seen Hnd) as [H1 H2]. split; [done|].
      intros k. rewrite H2, elem_of_cons.
      split; [tauto|]. intros [?|[->|?]]; tauto.
    + apply bool_decide_eq_false in Hk0.
      destruct (IH (seen ++ [k0])) as [H1 H2].
      { apply NoDup_app. split_and!; [done| |apply NoDup_singleton].
        intros x Hx Hx'. apply list_elem_of_singleton in Hx' as ->. done. }
      split; [done|]. intros k.
      rewrite H2, elem_of_app, list_elem_of_singleton, elem_of_cons. tauto.
Qed.

Lemma df_columns_spec (samples : list sample) :
  NoDup (df_columns (from_dict samples))
  /\ forall k, k ∈ df_columns (from_dict samples)
               <-> exists s, s ∈ samples /\ k ∈ keys s.
Proof.
  cbn [df_columns from_dict].
  change (fold_left _ samples [])
    with (fold_left (fun cols (r : sample) => first_seen (keys r) cols)
                    samples []).
  assert (Hgen : forall seen,
             NoDup seen ->
             NoDup (fold_left (fun cols (r : sample) =>
                                 first_seen (keys r) cols) samples seen)
             /\ forall k,
                 k ∈ fold_left (fun cols (r : sample) =>
                                  first_seen (keys r) cols) samples seen
                 <-> k ∈ seen \/ exists s, s ∈ samples /\ k ∈ keys s).
  { induction samples as [|s samples IH]; intros seen Hnd; cbn [fold_left].
    - split; [done|]. intros k. split; [tauto|].
      intros [?|(s & Hs & _)]; [done|]. by apply elem_of_nil in Hs.
    - destruct (first_seen_spec (keys s) seen Hnd) as [H1 H2].
      destruct (IH _ H1) as [H3 H4]. split; [done|]. intros k.
      rewrite H4, H2. split.
      + intros [[?|?]|(s' & Hs' & Hk)]; [by left| |].
        * right. exists s. split; [apply elem_of_cons; by left|done].
        * right. exists s'. split; [apply elem_of_cons; by right|done].
      + intros [?|(s' & Hs' & Hk)]; [tauto|].
        apply elem_of_cons in Hs' as [->|Hs']; [tauto|].
        right. by exists s'. }
  destruct (Hgen [] NoDup_nil_2) as [H1 H2]. split; [done|].
  intros k. rewrite H2, elem_of_nil. tauto.
Qed.

Lemma column_nonempty (samples : list sample) (k : key) :
  column samples k ≠ [] <-> exists s, s ∈ samples /\ k ∈ keys s.
Proof.
  unfold column. induction samples as [|s samples IH]; cbn [omap list_omap].
  - split; [done|]. intros (s & Hs & _). by apply elem_of_nil in Hs.
  - destruct (dict_get s k) as [v|] eqn:Hv.
    + split; [|done]. intros _. exists s. split; [apply elem_of_cons; by left|].
      apply dict_get_is_Some. by exists v.
    + rewrite IH. apply dict_get_None in Hv. split.
      * intros (s' & Hs' & Hk). exists s'. split; [|done].
        apply elem_of_cons. by right.
      * intros (s' & Hs' & Hk).
        apply elem_of_cons in Hs' as [->|Hs']; [done|]. by exists s'.
Qed.

(** X12.  For any list of samples, sharing their keys or not, the
    parameter block has one entry per key that some sample has, in the
    order in which the keys first appear, which is the order of the
    columns of the data frame made of the samples; the entry of a key
    lists the values of the samples that have the key, in sample order,
    so it is shorter than the sample list when a sample lacks the key. *)
Theorem block_of_ragged_samples (samples : list sample) :
  Forall dict_wf samples ->
  let block := block_of_samples samples in
  keys block = df_columns (from_dict samples)
  /\ dict_wf block
  /\ (forall k, k ∈ keys block <-> exists s, s ∈ samples /\ k ∈ keys s)
  /\ (forall k, k ∈ keys block ->
                dict_get block k = Some (block_entry samples k))
  /\ (forall k, length (column samples k)
                = length (filter (fun s => k ∈ keys s) samples)).
Proof.
  intros Hwf block.
  destruct (df_columns_spec samples) as [Hnd Hin].
  assert (Hk : keys block = df_columns (from_dict samples))
    by apply keys_block_of_samples.
  split_and!.
  - done.
  - unfold dict_wf. by rewrite Hk.
  - intros k. by rewrite Hk.
  - intros k Hkin. rewrite Hk, Hin in Hkin.
    apply column_nonempty in Hkin. unfold block.
    rewrite dict_get_block_of_samples by done. unfold block_get, block_entry.
    cbn [dict_get option_list]. rewrite app_nil_r.
    by destruct (column samples k).
  - intros k. unfold column. clear.
    induction samples as [|s samples IH]; [done|].
    destruct (decide (k ∈ keys s)) as [Hin|Hnin].
    + rewrite filter_cons_True by done.
      apply dict_get_is_Some in Hin as [v Hv].
      unfold sample in *.
      rewrite (omap_cons_Some (fun s : dict scalar => dict_get s k)
                 s v samples Hv).
      cbn [length]. by f_equal.
    + rewrite filter_cons_False by done.
      apply dict_get_None in Hnin. cbn [omap list_omap]. by rewrite Hnin.
Qed.

Lemma block_of_ragged_samples_witness :
  keys (block_of_samples
          [[(KStr "b", SInt 1)]; [(KStr "a", SInt 2); (KStr "b", SInt 3)]])
  = df_columns
      (from_dict
         [[(KStr "b", SInt 1)]; [(KStr "a", SInt 2); (KStr "b", SInt 3)]]).
Proof.
  apply (block_of_ragged_samples
           [[(KStr "b", SInt 1)]; [(KStr "a", SInt 2); (KStr "b", SInt 3)]]).
  repeat constructor; by apply (bool_decide_unpack _).
Defined.

End CacheFacts.

(* ===================================================================== *)
(** * More on [RandomSampler.get_samples] *)
(* ===================================================================== *)

Module DrawFacts.
Import Props PyFacts RandomFacts.
Local Open Scope list_scope.

(** [get_samples] on a sampler without samples, when every entry of
    ['parameters'] has numeric bounds. *)
Lemma get_samples_closed (rr : nat -> float) (self : sampler)
  (params : dict (dict scalar)) (z : Z) (n0 : nat) :
  _samples self = None ->
  d_num_samples (_data self) = Some (SInt z) ->
  d_parameters (_data self) = Some params ->
  dict_wf params ->
  Forall (fun kv => exists mn rg, has_bounds kv.2 mn rg) params ->
  get_samples rr self n0
  = (Ok (samples_at rr (_data self) params n0 (Z.to_nat z)),
     set_samples self (samples_at rr (_data self) params n0 (Z.to_nat z)),
     n0 + Z.to_nat z * length params).
Proof.
  intros Hs Hnum Hpar Hwf Hall. unfold get_samples. rewrite Hs.
  cbn [_samples _data set_samples].
  rewrite Hpar, Hnum. cbn [data_index]. rewrite !bind_Ok.
  rewrite bounds_dicts_closed by done. rewrite !bind_Ok.
  cbn [py_range]. rewrite !bind_Ok.
  rewrite draw_list_closed by done. cbn [app].
  unfold samples_at. rewrite <- list_fmap_compose. reflexivity.
Qed.

Lemma samples_at_lookup (rr : nat -> float) (d : data)
  (params : dict (dict scalar)) (n0 count i : nat) (s : sample) :
  samples_at rr d params n0 count !! i = Some s ->
  i < count /\ s = new_sample d (row_at rr params (n0 + i * length params)).
Proof.
  unfold samples_at. rewrite list_lookup_fmap.
  destruct (seq 0 count !! i) as [i'|] eqn:Hi; [|done].
  apply lookup_seq in Hi as [-> Hlt]. cbn. by intros [= <-].
Qed.

Lemma new_sample_update (d : data) (rd : dict scalar) :
  new_sample d rd
  = dict_update (match d_constants d with
                 | Some c => dict_update [] c
                 | None => []
                 end) rd.
Proof. reflexivity. Qed.

(** X13.  For a configuration whose ['parameters'] all have numeric
    bounds, whatever their order, and an integer [num_samples],
    [get_samples] on a new sampler returns [max(num_samples, 0)] samples
    and reads the stream of fractions in order: parameter [j] of sample
    [i] is the float [min + f * (max - min)], the product and the sum
    each rounded, for the fraction [f] at position [i * K + j] after the
    start, [K] being the number of parameters. *)
Theorem get_samples_reads_stream_in_order (rr : nat -> float) (d : data)
  (params : dict (dict scalar)) (z : Z) (n0 : nat) :
  d_num_samples d = Some (SInt z) ->
  d_parameters d = Some params ->
  dict_wf params ->
  Forall (fun kv => exists mn rg, has_bounds kv.2 mn rg) params ->
  exists samples,
    get_samples rr (__init__ d) n0
    = (Ok samples, set_samples (__init__ d) samples,
       n0 + Z.to_nat z * length params)
    /\ length samples = Z.to_nat z
    /\ forall i j s k value mn rg,
         samples !! i = Some s -> params !! j = Some (k, value) ->
         has_bounds value mn rg ->
         dict_get s k
         = Some (SFloat (draw mn rg (rr (n0 + i * length params + j)))).
Proof.
  intros Hnum Hpar Hwf Hall.
  exists (samples_at rr d params n0 (Z.to_nat z)). split_and!.
  - by apply (get_samples_closed rr (__init__ d)).
  - unfold samples_at. by rewrite length_fmap, length_seq.
  - intros i j s k value mn rg Hs Hj Hb.
    apply samples_at_lookup in Hs as [Hi ->].
    rewrite new_sample_update.
    rewrite (dict_get_update_in _ _ k
               (draw_of value (rr (n0 + i * length params + j)))).
    + destruct (has_bounds_facts _ _ _ Hb) as (_ & _ & Hmn & Hrg & _).
      unfold draw_of. by rewrite Hmn, Hrg.
    + unfold dict_wf. by rewrite keys_row_at.
    + apply list_elem_of_lookup. exists j. unfold row_at.
      rewrite list_lookup_imap. unfold dict in *. rewrite Hj. reflexivity.
Qed.

Lemma get_samples_reads_stream_in_order_witness :
  exists samples,
    get_samples eighths (__init__ two_samples_data) 1
    = (Ok samples, set_samples (__init__ two_samples_data) samples, 5)
    /\ length samples = 2
    /\ (samples !! 0 ≫= fun s => dict_get s (KStr "X2"))
       = Some (SFloat (float_of_dyadic 45 (-3)))
    /\ (samples !! 1 ≫= fun s => dict_get s (KStr "X3"))
       = Some (SFloat (float_of_Z 4)).
Proof.
  destruct (get_samples_reads_stream_in_order eighths two_samples_data
              [(KStr "X2", [(KStr "min", SInt 5); (KStr "max", SInt 10)]);
               (KStr "X3", [(KStr "min", SFloat (float_of_Z 8));
                            (KStr "max", SFloat (float_of_Z 0))])]
              2 1) as (samples & H1 & H2 & H3).
  - reflexivity.
  - reflexivity.
  - by apply (bool_decide_unpack _).
  - repeat constructor.
    + exists (float_of_Z 5), (float_of_Z 5).
      by exists (SInt 5), (SInt 10), (SInt 5).
    + exists (float_of_Z 8), (float_sub (float_of_Z 0) (float_of_Z 8)).
      by exists (SFloat (float_of_Z 8)), (SFloat (float_of_Z 0)),
                (SFloat (float_sub (float_of_Z 0) (float_of_Z 8))).
  - change (Z.to_nat 2) with 2 in H2.
    exists samples. split_and!; [exact H1|exact H2| |].
    + destruct (samples !! 0) as [s|] eqn:Hs;
        [|apply lookup_ge_None_1 in Hs; unfold sample, dict in *; lia].
      cbn [mbind option_bind].
      rewrite (H3 0 0 s (KStr "X2") _ (float_of_Z 5) (float_of_Z 5) Hs
                 eq_refl).
      * reflexivity.
      * by exists (SInt 5), (SInt 10), (SInt 5).
    + destruct (samples !! 1) as [s|] eqn:Hs;
        [|apply lookup_ge_None_1 in Hs; unfold sample, dict in *; lia].
      cbn [mbind option_bind].
      rewrite (H3 1 1 s (KStr "X3") _ (float_of_Z 8)
                 (float_sub (float_of_Z 0) (float_of_Z 8)) Hs eq_refl).
      * reflexivity.
      * by exists (SFloat (float_of_Z 8)), (SFloat (float_of_Z 0)),
                  (SFloat (float_sub (float_of_Z 0) (float_of_Z 8))).
Defined.

(** ** The keys of a sample *)

Lemma filter_ext_in {A} (P Q : A -> Prop) `{!forall x, Decision (P x)}
  `{!forall x, Decision (Q x)} (l : list A) :
  (forall x, x ∈ l -> P x <-> Q x) -> filter P l = filter Q l.
Proof.
  induction l as [|a l IH]; intros Hiff; [done|].
  assert (Ha : P a <-> Q a) by (apply Hiff, elem_of_cons; by left).
  assert (Hl : filter P l = filter Q l).
  { apply IH. intros x Hx. apply Hiff, elem_of_cons. by right. }
  destruct (decide (P a)) as [HP|HP].
  - rewrite !filter_cons_True by tauto. by rewrite Hl.
  - rewrite !filter_cons_False by tauto. done.
Qed.

Lemma keys_dict_update {V} (d e : dict V) :
  dict_wf e ->
  keys (dict_update d e) = keys d ++ filter (fun k => k ∉ keys d) (keys e).
Proof.
  unfold dict_update, dict_wf. revert d.
  induction e as [|[k v] e IH]; intros d Hnd.
  - cbn. by rewrite app_nil_r.
  - apply NoDup_cons in Hnd as [Hk Hnd]. cbn [fold_left fst snd].
    rewrite IH by done. rewrite keys_dict_set.
    change (keys ((k, v) :: e)) with (k :: keys e).
    destruct (decide (k ∈ keys d)) as [Hin|Hnin].
    + rewrite filter_cons_False by tauto. done.
    + rewrite filter_cons_True by done. rewrite <- app_assoc. cbn [app].
      do 2 f_equal. apply filter_ext_in. intros x Hx.
      rewrite elem_of_app, list_elem_of_singleton. split; [tauto|].
      intros Hxd [?| ->]; done.
Qed.

Lemma dict_get_update_nil {V} (c : dict V) (k : key) :
  dict_wf c -> dict_get (dict_update [] c) k = dict_get c k.
Proof.
  intros Hwf. destruct (dict_get c k) as [v|] eqn:Hv.
  - apply dict_get_update_in; [done|]. by apply dict_get_Some_elem_of.
  - rewrite dict_get_update_notin; [done|]. by apply dict_get_None.
Qed.

(** X14.  Each sample of [get_samples] has the names of the constants,
    in their order, followed by the ranged parameters that are not also
    constants, in their order; a constant that is not a ranged parameter
    keeps its value in every sample. *)
Theorem samples_keep_constants (rr : nat -> float) (d : data)
  (params : dict (dict scalar)) (z : Z) (n0 : nat) :
  d_num_samples d = Some (SInt z) ->
  d_parameters d = Some params ->
  dict_wf params ->
  Forall (fun kv => exists mn rg, has_bounds kv.2 mn rg) params ->
  dict_wf (default [] (d_constants d)) ->
  exists samples,
    (get_samples rr (__init__ d) n0).1.1 = Ok samples
    /\ forall s, s ∈ samples ->
         keys s = block_keys (d_constants d)
                  ++ filter (fun k => k ∉ block_keys (d_constants d))
                            (keys params)
         /\ forall k v, dict_get (default [] (d_constants d)) k = Some v ->
                        k ∉ keys params -> dict_get s k = Some v.
Proof.
  intros Hnum Hpar Hwf Hall Hc.
  exists (samples_at rr d params n0 (Z.to_nat z)). split.
  - by rewrite (get_samples_closed rr (__init__ d) params z n0).
  - intros s Hs. apply list_elem_of_lookup in Hs as [i Hs].
    apply samples_at_lookup in Hs as [_ ->].
    rewrite new_sample_update.
    assert (Hbase : keys (match d_constants d with
                          | Some c => dict_update [] c
                          | None => []
                          end) = block_keys (d_constants d)
                    /\ forall k, dict_get (match d_constants d with
                                           | Some c => dict_update [] c
                                           | None => []
                                           end) k
                                 = dict_get (default [] (d_constants d)) k).
    { destruct (d_constants d) as [c|]; cbn [default block_keys] in *;
        [|done].
      split.
      - rewrite keys_dict_update by done. cbn [keys fmap list_fmap app].
        clear. induction (keys c) as [|k l IH]; [done|].
        rewrite filter_cons_True by apply not_elem_of_nil. by rewrite IH.
      - intros k. by apply dict_get_update_nil. }
    destruct Hbase as [Hkeys Hget]. split.
    + rewrite keys_dict_update.
      * by rewrite Hkeys, keys_row_at.
      * unfold dict_wf. by rewrite keys_row_at.
    + intros k v Hv Hnin. rewrite dict_get_update_notin.
      * by rewrite Hget.
      * by rewrite keys_row_at.
Qed.

Lemma samples_keep_constants_witness :
  exists samples,
    (get_samples (fun i => float_of_dyadic 1 (-1)) (__init__ docstring_data) 0).1.1
    = Ok samples
    /\ forall s, s ∈ samples ->
         keys s = [KStr "X1"; KStr "X2"; KStr "X3"]
         /\ dict_get s (KStr "X1") = Some (SInt 20).
Proof.
  destruct (samples_keep_constants (fun i => float_of_dyadic 1 (-1)) docstring_data
              [(KStr "X2", [(KStr "min", SInt 5); (KStr "max", SInt 10)]);
               (KStr "X3", [(KStr "min", SInt 5); (KStr "max", SInt 10)])]
              30 0) as (samples & H1 & H2).
  - reflexivity.
  - reflexivity.
  - by apply (bool_decide_unpack _).
  - repeat constructor; exists (float_of_Z 5), (float_of_Z 5);
      by exists (SInt 5), (SInt 10), (SInt 5).
  - by apply (bool_decide_unpack _).
  - exists samples. split; [exact H1|]. intros s Hs.
    destruct (H2 s Hs) as [Hk Hv]. split.
    + exact Hk.
    + apply Hv; [reflexivity|]. by apply (bool_decide_eq_false_1 _).
Defined.

(** ** Errors *)

(** X15.  On a sampler without samples [get_samples] raises, before any
    fraction is drawn: [KeyError] when ['parameters'] is missing, when an
    entry lacks ['min'] or, having it, lacks ['max'], and when
    ['num_samples'] is missing; [TypeError] when a bound is a string and
    when ['num_samples'] is not an integer.  The entries are looked at in
    order and before ['num_samples'].  Each time the sampler is left with
    an empty sample list. *)
Theorem get_samples_errors (rr : nat -> float) (self : sampler) (n : nat) :
  _samples self = None ->
  (d_parameters (_data self) = None ->
   get_samples rr self n
   = (Raise (KeyError "parameters"), set_samples self [], n))
  /\ (forall pre k value post,
         d_parameters (_data self) = Some (pre ++ (k, value) :: post) ->
         Forall (fun kv => has_range kv.2) pre ->
         (dict_get value (KStr "min") = None ->
          get_samples rr self n
          = (Raise (KeyError "min"), set_samples self [], n))
         /\ (is_Some (dict_get value (KStr "min")) ->
             dict_get value (KStr "max") = None ->
             get_samples rr self n
             = (Raise (KeyError "max"), set_samples self [], n))
         /\ (forall a b,
                dict_get value (KStr "min") = Some a ->
                dict_get value (KStr "max") = Some b ->
                (exists t, a = SStr t \/ b = SStr t) ->
                get_samples rr self n
                = (Raise TypeError, set_samples self [], n)))
  /\ (forall params,
         d_parameters (_data self) = Some params ->
         dict_wf params ->
         Forall (fun kv => has_range kv.2) params ->
         (d_num_samples (_data self) = None ->
          get_samples rr self n
          = (Raise (KeyError "num_samples"), set_samples self [], n))
         /\ (forall v,
                d_num_samples (_data self) = Some v ->
                (forall z, v ≠ SInt z) ->
                get_samples rr self n
                = (Raise TypeError, set_samples self [], n))).
Proof.
  intros Hs.
  assert (Hfail : forall pre k value post e,
             Forall (fun kv => has_range kv.2) pre ->
             (mn ← dict_index value (KStr "min");
              mx ← dict_index value (KStr "max");
              mn' ← dict_index value (KStr "min");
              py_sub mx mn') = Raise e ->
             bounds_dicts (pre ++ (k, value) :: post) = Raise e).
  { intros pre k value post e Hpre He. unfold bounds_dicts.
    generalize (([], []) : dict scalar * dict scalar).
    induction Hpre as [|[k0 v0] pre Hb Hpre IH]; intros [md rd].
    - cbn [app foldlM]. cbv beta iota. revert He.
      destruct (dict_index value (KStr "min")) as [a|e1]; [|by intros [= ->]].
      rewrite !bind_Ok.
      destruct (dict_index value (KStr "max")) as [b|e1]; [|by intros [= ->]].
      rewrite !bind_Ok.
      destruct (py_sub b a) as [r|e1]; [done|by intros [= ->]].
    - destruct (has_range_facts _ Hb) as (Hmin & b & Hmax & Hsub).
      cbn [app foldlM]. cbv beta iota. cbn [snd] in Hmin, Hmax, Hsub.
      rewrite Hmin, Hmax. rewrite !bind_Ok. rewrite Hsub, !bind_Ok.
      apply IH. }
  assert (Hget : forall params e,
             d_parameters (_data self) = Some params ->
             bounds_dicts params = Raise e ->
             get_samples rr self n = (Raise e, set_samples self [], n)).
  { intros params e Hp Hb. unfold get_samples. rewrite Hs.
    cbn [_data set_samples]. rewrite Hp. cbn [data_index].
    by rewrite bind_Ok, Hb. }
  split_and!.
  - intros Hp. unfold get_samples. rewrite Hs. cbn [_data set_samples].
    by rewrite Hp.
  - intros pre k value post Hp Hpre. split_and!.
    + intros Hmin. apply (Hget _ _ Hp), Hfail; [done|].
      unfold dict_index. by rewrite Hmin.
    + intros [a Hmin] Hmax. apply (Hget _ _ Hp), Hfail; [done|].
      unfold dict_index. by rewrite Hmin, Hmax.
    + intros a b Hmin Hmax [t Ht]. apply (Hget _ _ Hp), Hfail; [done|].
      unfold dict_index. rewrite Hmin, Hmax. rewrite !bind_Ok.
      destruct Ht as [->| ->]; [by destruct b|by destruct a].
  - intros params Hp Hwf Hall. split.
    + intros Hnum. unfold get_samples. rewrite Hs. cbn [_data set_samples].
      rewrite Hp, Hnum. cbn [data_index].
      by rewrite bind_Ok, bounds_dicts_range.
    + intros v Hnum Hv. unfold get_samples. rewrite Hs.
      cbn [_data set_samples]. rewrite Hp, Hnum. cbn [data_index].
      rewrite bind_Ok, bounds_dicts_range by done. rewrite !bind_Ok.
      destruct v as [z'|q|t]; [by destruct (Hv z')|done|done].
Qed.

Lemma get_samples_errors_witness :
  get_samples (fun _ => float_zero) (__init__ constants_only_data) 0
  = (Raise (KeyError "parameters"),
     set_samples (__init__ constants_only_data) [], 0).
Proof.
  apply (proj1 (get_samples_errors (fun _ => float_zero)
                  (__init__ constants_only_data) 0 eq_refl)).
  reflexivity.
Defined.

(** X16.  A configuration that asks for no samples, its ['num_samples']
    being zero or negative, gives an empty sample list without drawing a
    fraction; the parameter block made of it is empty, while
    [maestro_pgen] raises [IndexError]. *)
Theorem no_samples_block_and_generator (rr : nat -> float) (d : data)
  (params : dict (dict scalar)) (z : Z) (n0 : nat) :
  d_num_samples d = Some (SInt z) -> (z <= 0)%Z ->
  d_parameters d = Some params ->
  dict_wf params ->
  Forall (fun kv => has_range kv.2) params ->
  get_samples rr (__init__ d) n0 = (Ok [], set_samples (__init__ d) [], n0)
  /\ parameter_block (get_samples rr) (__init__ d) n0
     = (Ok [], set_parameter_block (set_samples (__init__ d) []) [], n0)
  /\ maestro_pgen (get_samples rr) true (__init__ d) n0
     = (Raise IndexError, set_samples (__init__ d) [], n0).
Proof.
  intros Hnum Hz Hpar Hwf Hall.
  assert (Hget : forall self,
             _samples self = None -> _data self = d ->
             get_samples rr self n0 = (Ok [], set_samples self [], n0)).
  { intros self Hs Hd. unfold get_samples. rewrite Hs.
    cbn [_samples _data set_samples]. rewrite Hd, Hpar, Hnum.
    cbn [data_index]. rewrite !bind_Ok.
    rewrite bounds_dicts_range by done. rewrite !bind_Ok.
    cbn [py_range]. rewrite !bind_Ok.
    replace (Z.to_nat z) with 0 by lia. reflexivity. }
  split_and!.
  - by apply Hget.
  - unfold parameter_block. cbn [_parameter_block __init__].
    by rewrite Hget.
  - unfold maestro_pgen. cbn [negb _pgen __init__]. by rewrite Hget.
Qed.

Lemma no_samples_block_and_generator_witness :
  parameter_block (get_samples (fun _ => float_zero)) (__init__ no_samples_data) 0
  = (Ok [], set_parameter_block (set_samples (__init__ no_samples_data) []) [],
     0)
  /\ maestro_pgen (get_samples (fun _ => float_zero)) true
                  (__init__ no_samples_data) 0
     = (Raise IndexError, set_samples (__init__ no_samples_data) [], 0).
Proof.
  destruct (no_samples_block_and_generator (fun _ => float_zero) no_samples_data
              [(KStr "X2", [(KStr "min", SInt 5); (KStr "max", SInt 10)])]
              0 0) as (_ & H2 & H3).
  - reflexivity.
  - lia.
  - reflexivity.
  - by apply (bool_decide_unpack _).
  - repeat constructor. by exists (SInt 5), (SInt 10), (SInt 5).
  - by split.
Defined.

End DrawFacts.

(* ===================================================================== *)
(** * More on [downselect] *)
(* ===================================================================== *)

Module SeedFacts.
Import Props PyFacts DistFacts SelectFacts.
Local Open Scope list_scope.

(** ** The inner loop takes the first of the farthest candidates *)

(** X17.  When the inner loop of [downselect] finds a candidate, it is
    the first of the farthest: its distance to the tree is positive, no
    candidate after the first is farther, and every candidate after the
    first and before it is strictly nearer (the distance kept is not at
    most that candidate's, which then, when it is a number, is less). *)
Theorem scan_takes_first_farthest (tree : point * list point)
  (candidates : list point) (j : nat) (d : float) :
  scan tree candidates (length candidates) = (j, d) ->
  j ≠ length candidates ->
  exists c,
    candidates !! j = Some c
    /\ d = tree_query tree c /\ float_lt float_zero d = true
    /\ (forall i c', 1 <= i -> candidates !! i = Some c' ->
                     float_lt d (tree_query tree c') = false)
    /\ (forall i c', 1 <= i < j -> candidates !! i = Some c' ->
                     float_le d (tree_query tree c') = false
                     /\ (tree_query tree c' ≠ S754_nan ->
                         float_lt (tree_query tree c') d = true)).
Proof.
  intros Hscan Hj.
  destruct (scan_result tree candidates j d Hscan)
    as [[Heq _]|(Hrange & c & Hc & Hd & Hpos & Hmax & Hlow)]; [done|].
  exists c. split_and!; [done..|].
  intros i c' Hi Hc'. pose proof (Hlow i c' Hi Hc') as Hle.
  split; [done|]. intros Hnan. apply float_lt_total; [|done|done].
  intros ->. discriminate Hpos.
Qed.

Lemma scan_takes_first_farthest_witness :
  exists c,
    [[float_of_Z 0; float_of_Z 0]; [float_of_Z 1; float_of_Z 0];
     [float_of_Z 0; float_of_Z 1]; [float_of_Z 3; float_of_Z 4];
     [float_of_Z 4; float_of_Z 3]] !! 3 = Some c
    /\ (scan ([float_of_Z 0; float_of_Z 0], [])
             [[float_of_Z 0; float_of_Z 0]; [float_of_Z 1; float_of_Z 0];
              [float_of_Z 0; float_of_Z 1]; [float_of_Z 3; float_of_Z 4];
              [float_of_Z 4; float_of_Z 3]] 5).2
       = float_of_Z 5
    /\ float_lt (tree_query ([float_of_Z 0; float_of_Z 0], [])
                            [float_of_Z 1; float_of_Z 0])
                (float_of_Z 5) = true.
Proof.
  destruct (scan_takes_first_farthest ([float_of_Z 0; float_of_Z 0], [])
              [[float_of_Z 0; float_of_Z 0]; [float_of_Z 1; float_of_Z 0];
               [float_of_Z 0; float_of_Z 1]; [float_of_Z 3; float_of_Z 4];
               [float_of_Z 4; float_of_Z 3]]
              3 (float_of_Z 5)) as (c & H1 & _ & _ & _ & H5).
  - by vm_compute.
  - cbn. lia.
  - exists c. split_and!; [exact H1|by vm_compute|].
    destruct (H5 1 [float_of_Z 1; float_of_Z 0] ltac:(lia) eq_refl)
      as [_ Hlt].
    apply Hlt. by vm_compute.
Defined.

(** ** Errors before the selection *)

Lemma df_values_missing_column (df : DataFrame) (columns : list key)
  (c : key) :
  c ∈ columns -> c ∉ df_columns df ->
  exists msg, df_values df columns = Raise (KeyError msg).
Proof.
  intros Hc Hnin. unfold df_values.
  assert (H : exists msg,
             foldlM (fun (_ : unit) c =>
                       if bool_decide (c ∈ df_columns df) then Ok tt
                       else Raise (KeyError (str_of_key c)))
                    columns tt = Raise (KeyError msg)).
  { induction columns as [|c0 columns IH]; [by apply elem_of_nil in Hc|].
    cbn [foldlM].
    destruct (bool_decide (c0 ∈ df_columns df)) eqn:Hc0.
    - rewrite bind_Ok. apply IH.
      apply elem_of_cons in Hc as [->|Hc]; [|done].
      by apply bool_decide_eq_true in Hc0.
    - by eexists. }
  destruct H as [msg Hmsg]. exists msg. by rewrite Hmsg.
Qed.

(** X18.  [downselect] raises before it selects anything: without
    pandas, numpy and scipy, its own error, whatever the sampler holds;
    when a parameter is not a column of the samples, [KeyError]; and,
    with ['previous_samples'], when reading the file raises [ValueError],
    the error that names the file, any other exception of the reader
    being passed on as it is. *)
Theorem downselect_early_errors (names : sampler -> list key)
  (pd_read_csv : string -> result (list sample)) (self : sampler)
  (num_points : Z) :
  downselect names false pd_read_csv self num_points
  = Raise (SamplingError requires_pandas_message)
  /\ (forall samples c,
         _samples self = Some samples ->
         c ∈ names self -> c ∉ df_columns (from_dict samples) ->
         exists msg,
           downselect names true pd_read_csv self num_points
           = Raise (KeyError msg))
  /\ (forall samples raw path,
         _samples self = Some samples ->
         df_values (from_dict samples) (names self) = Ok raw ->
         d_previous_samples (_data self) = Some path ->
         (pd_read_csv path = Raise ValueError ->
          downselect names true pd_read_csv self num_points
          = Raise (Exception (previous_samples_message path)))
         /\ (forall e, pd_read_csv path = Raise e -> e ≠ ValueError ->
                       downselect names true pd_read_csv self num_points
                       = Raise e)).
Proof.
  split_and!.
  - reflexivity.
  - intros samples c Hs Hc Hnin.
    destruct (df_values_missing_column (from_dict samples) (names self) c
                Hc Hnin) as [msg Hmsg].
    exists msg. unfold downselect.
    rewrite Hs. cbn [negb default from_option id]. rewrite bind_Ok.
    by rewrite Hmsg.
  - intros samples raw path Hs Hraw Hprev.
    assert (Hseed : forall e,
               seed pd_read_csv self (names self) raw = Raise e ->
               downselect names true pd_read_csv self num_points = Raise e).
    { intros e He. unfold downselect.
      rewrite Hs. cbn [negb default from_option id]. rewrite bind_Ok.
      by rewrite Hraw, !bind_Ok, He. }
    split.
    + intros Hread. apply Hseed. unfold seed. by rewrite Hprev, Hread.
    + intros e Hread Hne. apply Hseed. unfold seed. rewrite Hprev, Hread.
      by destruct e.
Qed.

Lemma downselect_early_errors_witness :
  downselect parameters true (fun _ => Raise ValueError)
             (set_samples (__init__ xy_previous_data) spread_pool) 3
  = Raise (Exception (previous_samples_message "samples.csv")).
Proof.
  apply (proj1 (proj2 (proj2 (downselect_early_errors parameters
                                (fun _ => Raise ValueError)
                                (set_samples (__init__ xy_previous_data)
                                             spread_pool) 3))
                  spread_pool
                  [[SInt 0; SInt 0]; [SInt 1; SInt 0]; [SInt 5; SInt 5];
                   [SInt 0; SInt 1]; [SInt 3; SInt 3]]
                  "samples.csv" eq_refl eq_refl eq_refl)).
  reflexivity.
Defined.

(** ** Selection after previous samples *)

(** X19.  With ['previous_samples'], the points of the file seed the
    selection and no candidate is selected for them.  The first candidate
    is never looked at, however far it is: the loop starts at index 1.
    When different points are at a positive distance in floats, for
    [num_points] up to the number of different candidate points after the
    first that are not previous points, [downselect] selects exactly
    [num_points] indices, none twice and never index 0; each names a
    candidate that is not a previous point and for which the tree of the
    previous points and the candidates selected before it answers a
    distance, that to a nearest of those points, which the answer for no
    candidate after the first exceeds.  The cached sample list becomes
    the selected rows. *)
Theorem downselect_after_previous_samples (names : sampler -> list key)
  (pd_read_csv : string -> result (list sample)) (self : sampler)
  (samples prev : list sample) (raw sp_raw : list (list scalar))
  (candidates sp : list point) (path : string) (num_points : Z) :
  _samples self = Some samples ->
  d_previous_samples (_data self) = Some path ->
  pd_read_csv path = Ok prev ->
  df_values (from_dict samples) (names self) = Ok raw ->
  asarray raw = Ok candidates ->
  df_values (from_dict prev) (names self) = Ok sp_raw ->
  asarray sp_raw = Ok sp ->
  sp ≠ [] ->
  apart candidates (sp ++ candidates) = true ->
  (0 <= num_points <= Z.of_nat (selectable candidates sp))%Z ->
  exists ids,
    downselect names true pd_read_csv self num_points
    = Ok (set_samples self (selected_rows samples ids))
    /\ length ids = Z.to_nat num_points
    /\ NoDup ids
    /\ (forall j, j ∈ ids -> 1 <= j < length samples)
    /\ forall n j, ids !! n = Some j ->
         exists cj dj,
           candidates !! j = Some cj
           /\ (cj ∉ sp)
           /\ reported (sp ++ points_at candidates (take n ids)) cj
              = Some dj
           /\ nearest (sp ++ points_at candidates (take n ids)) cj dj
           /\ float_lt float_zero dj = true
           /\ forall i ci di,
                1 <= i -> candidates !! i = Some ci ->
                reported (sp ++ points_at candidates (take n ids)) ci
                = Some di ->
                float_lt dj di = false.
Proof.
  intros Hs Hprev Hread Hraw Hpts Hspraw Hsp Hne Hapart Hnum.
  destruct (df_values_rows _ _ _ Hraw) as [Hlenraw _].
  change (df_rows (from_dict samples)) with samples in Hlenraw.
  destruct (asarray_dims _ _ 0 Hpts) as [Hlenc _].
  pose proof (asarray_finite _ _ Hpts) as Hfin.
  assert (Hseed : seed pd_read_csv self (names self) raw
                  = Ok (sp_raw, [], 0%Z)).
  { unfold seed. by rewrite Hprev, Hread, bind_Ok, Hspraw. }
  rewrite (downselect_unfold names pd_read_csv self samples raw sp_raw
             candidates sp [] 0 num_points) by done.
  destruct (select_selects candidates (sp ++ candidates) Hfin Hapart
              (fun c H => proj2 (elem_of_app sp candidates c) (or_intror H))
              (Z.to_nat (num_points - 0)) sp [])
    as (new & Heq & Hlen & Hnd & Hrange & Hfar).
  - done.
  - intros q Hq. apply elem_of_app. by left.
  - intros s c Hin. by apply elem_of_nil in Hin.
  - apply NoDup_nil_2.
  - unfold point in *. lia.
  - cbn [app] in Heq, Hnd.
    exists new. split_and!.
    + unfold point in *. rewrite Heq, bind_Ok.
      rewrite iloc_all, bind_Ok; [done|].
      intros j Hj. apply Hrange in Hj. rewrite <- Hlenraw, <- Hlenc. lia.
    + rewrite Hlen. f_equal. lia.
    + done.
    + intros j Hj. apply Hrange in Hj. rewrite <- Hlenraw, <- Hlenc. lia.
    + intros n j Hj.
      destruct (Hfar n j Hj) as (cj & dj & Hcj & Hrep & Hpos & Hmax).
      exists cj, dj.
      split_and!; [done| |done|by apply reported_nearest|done|done].
      intros Hin. destruct sp as [|p ps]; [done|].
      cbn [app reported] in Hrep. injection Hrep as <-.
      apply (selected_not_in_tree candidates p
               (ps ++ points_at candidates (take n new)) j cj Hfin Hcj Hpos).
      change (cj ∈ (p :: ps) ++ points_at candidates (take n new)).
      apply elem_of_app. by left.
Qed.

Lemma downselect_after_previous_samples_witness :
  exists ids,
    downselect parameters true (fun _ => Ok [xy 0 0])
               (set_samples (__init__ xy_previous_data)
                            [xy 100 100; xy 1 0; xy 0 1]) 1
    = Ok (set_samples (set_samples (__init__ xy_previous_data)
                                   [xy 100 100; xy 1 0; xy 0 1])
            (selected_rows [xy 100 100; xy 1 0; xy 0 1] ids))
    /\ length ids = 1
    /\ (forall j, j ∈ ids -> 1 <= j < 3)
    /\ downselect parameters true (fun _ => Ok [xy 0 0])
                  (set_samples (__init__ xy_previous_data)
                               [xy 100 100; xy 1 0; xy 0 1]) 1
       = Ok (set_samples (set_samples (__init__ xy_previous_data)
                                      [xy 100 100; xy 1 0; xy 0 1])
               [xy 1 0]).
Proof.
  destruct (downselect_after_previous_samples parameters
              (fun _ => Ok [xy 0 0])
              (set_samples (__init__ xy_previous_data)
                           [xy 100 100; xy 1 0; xy 0 1])
              [xy 100 100; xy 1 0; xy 0 1] [xy 0 0]
              [[SInt 100; SInt 100]; [SInt 1; SInt 0]; [SInt 0; SInt 1]]
              [[SInt 0; SInt 0]]
              [[float_of_Z 100; float_of_Z 100];
               [float_of_Z 1; float_of_Z 0]; [float_of_Z 0; float_of_Z 1]]
              [[float_of_Z 0; float_of_Z 0]] "samples.csv" 1)
    as (ids & H1 & H2 & H3 & H4 & _).
  - reflexivity.
  - reflexivity.
  - reflexivity.
  - reflexivity.
  - reflexivity.
  - reflexivity.
  - reflexivity.
  - discriminate.
  - by vm_compute.
  - by vm_compute.
  - exists ids. split_and!; [exact H1|exact H2|exact H4|by vm_compute].
Defined.



End SeedFacts.

(* ===================================================================== *)
(** * More on [get_custom_generator] *)
(* ===================================================================== *)

Module AdapterFacts.
Import Props PyFacts.
Local Open Scope list_scope.

Lemma kwargs_get_absent (kwargs : list (string * data)) (name : string)
  (d0 : data) :
  (forall kv, kv ∈ kwargs -> kv.1 ≠ name) -> kwargs_get kwargs name d0 = d0.
Proof.
  unfold kwargs_get. induction kwargs as [|kv kwargs IH]; intros H; [done|].
  cbn [List.find].
  destruct (String.eqb kv.1 name) eqn:Heq.
  - apply String.eqb_eq in Heq. exfalso.
    apply (H kv); [apply elem_of_cons; by left|done].
  - apply IH. intros kv' Hkv'. apply H, elem_of_cons. by right.
Qed.

Lemma kwargs_get_present (pre rest : list (string * data)) (name : string)
  (d d0 : data) :
  (forall kv, kv ∈ pre -> kv.1 ≠ name) ->
  kwargs_get (pre ++ (name, d) :: rest) name d0 = d.
Proof.
  unfold kwargs_get. induction pre as [|kv pre IH]; intros H.
  - cbn [app List.find fst]. by rewrite String.eqb_refl.
  - cbn [app List.find].
    destruct (String.eqb kv.1 name) eqn:Heq.
    + apply String.eqb_eq in Heq. exfalso.
      apply (H kv); [apply elem_of_cons; by left|done].
    + apply IH. intros kv' Hkv'. apply H, elem_of_cons. by right.
Qed.

(** X21.  When the environment holds SAMPLE_DICTIONARY, the generator is
    built from the keyword argument [sample_dictionary] if it is given,
    wherever it stands among the keyword arguments, and from the value of
    the environment otherwise.  When the lookup raises, nothing is built
    whatever the keyword arguments: [ValueError] becomes the error that
    asks for SAMPLE_DICTIONARY, and any other exception is passed on. *)
Theorem custom_generator_dictionary (build : data -> result pgen)
  (env : environment) (kwargs : list (string * data)) :
  (forall d0,
      env "SAMPLE_DICTIONARY" = Ok (Some d0) ->
      (forall pre d rest,
          kwargs = pre ++ ("sample_dictionary", d) :: rest ->
          (forall kv, kv ∈ pre -> kv.1 ≠ "sample_dictionary") ->
          get_custom_generator build env kwargs = build d)
      /\ ((forall kv, kv ∈ kwargs -> kv.1 ≠ "sample_dictionary") ->
          get_custom_generator build env kwargs = build d0))
  /\ (env "SAMPLE_DICTIONARY" = Raise ValueError ->
      get_custom_generator build env kwargs = Raise (Exception required))
  /\ (forall e, env "SAMPLE_DICTIONARY" = Raise e -> e ≠ ValueError ->
                get_custom_generator build env kwargs = Raise e).
Proof.
  unfold get_custom_generator, resolve, find_value. split_and!.
  - intros d0 Henv. rewrite Henv, !bind_Ok. split.
    + intros pre d rest -> Hpre. by rewrite kwargs_get_present.
    + intros Habs. by rewrite kwargs_get_absent.
  - intros Henv. by rewrite Henv.
  - intros e Henv Hne. rewrite Henv. by destruct e.
Qed.

Lemma custom_generator_dictionary_witness :
  get_custom_generator num_samples_generator
                       (fun _ => Ok (Some docstring_data))
                       [("study", no_samples_data);
                        ("sample_dictionary", xy_data)]
  = Ok [(KStr "num_samples", [SInt 3], "")]
  /\ num_samples_generator docstring_data
     ≠ Ok [(KStr "num_samples", [SInt 3], "")].
Proof.
  split; [|by vm_compute].
  apply (proj1 (proj1 (custom_generator_dictionary
                         num_samples_generator
                         (fun _ => Ok (Some docstring_data))
                         [("study", no_samples_data);
                          ("sample_dictionary", xy_data)])
                  docstring_data eq_refl)
           [("study", no_samples_data)] xy_data [] eq_refl).
  intros kv Hkv. apply list_elem_of_singleton in Hkv as ->. discriminate.
Defined.

End AdapterFacts.

(* ===================================================================== *)
(** * Tables with rows of different lengths, and stale caches *)
(* ===================================================================== *)

Module EdgeFacts.
Import Props PyFacts BlockFacts RandomFacts SelectFacts HelperFacts
       CacheFacts DrawFacts.
Local Open Scope list_scope.

(** ** [transpose_tabular] on rows of different lengths *)

Lemma heads_total {A} (rows : list (list A)) :
  Forall (fun r => 1 <= length r) rows ->
  mapM (fun r => match r with
                 | x :: _ => Ok x
                 | [] => Raise IndexError
                 end) rows
  = Ok (omap (fun r => r !! 0) rows).
Proof.
  induction 1 as [|r rows Hr Hall IH]; [done|].
  destruct r as [|x r]; [cbn in Hr; lia|].
  rewrite mapM_cons, IH. by rewrite (omap_cons_Some _ (x :: r) x rows).
Qed.

Lemma heads_fail {A} (rows : list (list A)) :
  Exists (fun r => length r = 0) rows ->
  exists e,
    mapM (fun r => match r with
                   | x :: _ => Ok x
                   | [] => Raise IndexError
                   end) rows = Raise e.
Proof.
  induction 1 as [r rows Hr|r rows Hex [e IH]].
  - destruct r as [|x r]; [|done]. by exists IndexError.
  - rewrite mapM_cons. destruct r as [|x r]; [by exists IndexError|].
    rewrite bind_Ok, IH. by exists e.
Qed.

Lemma zip_star_ragged {A} (n m : nat) (rows : list (list A)) :
  m <= n ->
  Forall (fun r => m <= length r) rows ->
  Exists (fun r => length r = m) rows ->
  zip_star n rows = (fun j => omap (fun r => r !! j) rows) <$> seq 0 m.
Proof.
  revert m rows. induction n as [|n IH]; intros m rows Hm Hall Hex.
  - by replace m with 0 by lia.
  - cbn [zip_star]. destruct m as [|m].
    + destruct (heads_fail rows Hex) as [e He]. by rewrite He.
    + rewrite heads_total.
      2:{ eapply Forall_impl; [exact Hall|]. intros r Hr. cbn in Hr. lia. }
      rewrite (IH m).
      * cbn [seq fmap list_fmap]. f_equal.
        rewrite <- (fmap_S_seq 0 m), <- list_fmap_compose.
        apply list_fmap_ext. intros _ j _. cbn. apply omap_lookup_drop.
      * lia.
      * apply Forall_fmap. eapply Forall_impl; [exact Hall|].
        intros r Hr. cbn in *. rewrite length_drop. lia.
      * apply Exists_fmap. eapply Exists_impl; [exact Hex|].
        intros r Hr. cbn in *. rewrite length_drop. lia.
Qed.

(** X22.  On a table whose rows do not all have the same length,
    [transpose_tabular] does not raise: it returns as many columns as the
    shortest row has cells, each as long as the table has rows, cell [i]
    of column [j] being cell [j] of row [i]; the cells beyond the length
    of the shortest row are dropped. *)
Theorem transpose_tabular_ragged {A} (rows : list (list A)) (m : nat) :
  Forall (fun r => m <= length r) rows ->
  Exists (fun r => length r = m) rows ->
  length (transpose_tabular rows) = m
  /\ Forall (fun col => length col = length rows) (transpose_tabular rows)
  /\ forall i j, j < m ->
                 transpose_tabular rows !! j ≫= (.!! i)
                 = rows !! i ≫= (.!! j).
Proof.
  intros Hall Hex. unfold transpose_tabular.
  destruct rows as [|r0 rows']; [by apply Exists_nil in Hex|].
  set (rows := r0 :: rows') in *.
  assert (Hr0 : m <= length r0) by by apply Forall_cons in Hall as [? _].
  rewrite (zip_star_ragged (length r0) m rows Hr0 Hall Hex).
  assert (Htot : forall j, j < m ->
                           Forall (fun r : list A => is_Some (r !! j)) rows).
  { intros j Hj. eapply Forall_impl; [exact Hall|]. intros r Hr. cbn in Hr.
    apply lookup_lt_is_Some. lia. }
  split_and!.
  - by rewrite length_fmap, length_seq.
  - apply Forall_fmap, Forall_forall. intros j Hj.
    change (length (omap (fun r : list A => r !! j) rows) = length rows).
    apply elem_of_seq in Hj. apply omap_length_total, Htot. lia.
  - intros i j Hj. rewrite list_lookup_fmap, lookup_seq_lt by done.
    change (omap (fun r : list A => r !! j) rows !! i
            = rows !! i ≫= (.!! j)).
    by apply omap_lookup_total, Htot.
Qed.

Lemma transpose_tabular_ragged_witness :
  length (transpose_tabular [[1; 2; 3]; [4]; [5; 6]]) = 1.
Proof.
  apply (transpose_tabular_ragged [[1; 2; 3]; [4]; [5; 6]] 1).
  - repeat constructor.
  - apply Exists_cons_tl, Exists_cons_hd. reflexivity.
Defined.

(** ** [downselect] and the cached block *)

Lemma bind_Ok_inv {A B} (m : result A) (k : A -> result B) (b : B) :
  m ≫= k = Ok b -> exists a, m = Ok a /\ k a = Ok b.
Proof. destruct m as [a|e]; [|done]. intros H. by exists a. Qed.

(** X23.  [downselect] only replaces the sample list: the configuration,
    the parameter block and the generator that the sampler holds are left
    as they are.  So a parameter block or a generator made before the
    downselection is what [parameter_block] and [maestro_pgen] return
    after it, still listing all the samples. *)
Theorem downselect_keeps_block_and_generator (names : sampler -> list key)
  (PANDAS_PLUS : bool) (pd_read_csv : string -> result (list sample))
  (self self' : sampler) (num_points : Z) :
  downselect names PANDAS_PLUS pd_read_csv self num_points = Ok self' ->
  _data self' = _data self
  /\ _parameter_block self' = _parameter_block self
  /\ _pgen self' = _pgen self
  /\ (forall b (get_samples : method (list sample)) m,
         _parameter_block self = Some b ->
         parameter_block get_samples self' m = (Ok b, self', m))
  /\ (forall g (get_samples : method (list sample)) m,
         _pgen self = Some g ->
         maestro_pgen get_samples true self' m = (Ok g, self', m)).
Proof.
  intros Hd.
  assert (Hset : exists new_samples, self' = set_samples self new_samples).
  { unfold downselect in Hd.
    apply bind_Ok_inv in Hd as (_ & _ & Hd).
    cbv zeta in Hd.
    apply bind_Ok_inv in Hd as (raw & _ & Hd).
    apply bind_Ok_inv in Hd as ([[sp_raw ids0] n0] & _ & Hd).
    apply bind_Ok_inv in Hd as (cands & _ & Hd).
    apply bind_Ok_inv in Hd as (sp & _ & Hd).
    apply bind_Ok_inv in Hd as (ids & _ & Hd).
    apply bind_Ok_inv in Hd as (rows & _ & Hd).
    injection Hd as <-. by exists rows. }
  destruct Hset as [new_samples ->]. split_and!; [done..| |].
  - intros b gs m Hb. unfold parameter_block.
    cbn [_parameter_block set_samples]. by rewrite Hb.
  - intros g gs m Hg. unfold maestro_pgen. cbn [negb].
    cbn [_pgen set_samples]. by rewrite Hg.
Qed.

Lemma downselect_keeps_block_and_generator_witness :
  parameter_block (fun self n => (Ok [], self, n))
    (set_samples (set_parameter_block
                    (set_samples (__init__ xy_data) spread_pool)
                    (block_of_samples spread_pool))
                 [xy 0 0; xy 5 5; xy 3 3]) 0
  = (Ok (block_of_samples spread_pool),
     set_samples (set_parameter_block
                    (set_samples (__init__ xy_data) spread_pool)
                    (block_of_samples spread_pool))
                 [xy 0 0; xy 5 5; xy 3 3], 0).
Proof.
  apply (proj1 (proj2 (proj2 (proj2
           (downselect_keeps_block_and_generator parameters true
              (fun _ => Raise ValueError)
              (set_parameter_block
                 (set_samples (__init__ xy_data) spread_pool)
                 (block_of_samples spread_pool))
              (set_samples (set_parameter_block
                              (set_samples (__init__ xy_data) spread_pool)
                              (block_of_samples spread_pool))
                           [xy 0 0; xy 5 5; xy 3 3])
              3 eq_refl))))).
  reflexivity.
Defined.

(** ** The parameter block of the random sampler *)

Lemma keys_new_sample (rr : nat -> float) (d : data)
  (params : dict (dict scalar)) (m : nat) :
  dict_wf params -> dict_wf (default [] (d_constants d)) ->
  keys (new_sample d (row_at rr params m)) = sample_keys d params.
Proof.
  intros Hwf Hc. rewrite new_sample_update, keys_dict_update.
  2:{ unfold dict_wf. by rewrite keys_row_at. }
  rewrite keys_row_at. unfold sample_keys.
  assert (Hbase : keys (match d_constants d with
                        | Some c => dict_update [] c
                        | None => []
                        end) = block_keys (d_constants d)).
  { destruct (d_constants d) as [c|]; cbn [default block_keys] in *; [|done].
    rewrite keys_dict_update by done. cbn [keys fmap list_fmap app].
    clear. induction (keys c) as [|k l IH]; [done|].
    rewrite filter_cons_True by apply not_elem_of_nil. by rewrite IH. }
  by rewrite Hbase.
Qed.

Lemma sample_keys_NoDup (d : data) (params : dict (dict scalar)) :
  dict_wf params -> dict_wf (default [] (d_constants d)) ->
  NoDup (sample_keys d params).
Proof.
  intros Hwf Hc. unfold sample_keys. apply NoDup_app. split_and!.
  - destruct (d_constants d); [done|apply NoDup_nil_2].
  - intros k Hk Hk'. by apply list_elem_of_filter in Hk' as [Hnin _].
  - by apply NoDup_filter.
Qed.

(** X24.  For a configuration of the random sampler whose ['parameters']
    all have numeric bounds and whose [num_samples] is [N >= 1], the
    parameter block of a new sampler has one entry per constant and per
    ranged parameter, the constants first; each entry holds [N] values and
    the label [name.%%]; making it draws [N] fractions per ranged
    parameter, and it is stored in the sampler. *)
Theorem random_parameter_block (rr : nat -> float) (d : data)
  (params : dict (dict scalar)) (N n0 : nat) :
  d_num_samples d = Some (SInt (Z.of_nat (S N))) ->
  d_parameters d = Some params ->
  dict_wf params ->
  Forall (fun kv => exists mn rg, has_bounds kv.2 mn rg) params ->
  dict_wf (default [] (d_constants d)) ->
  exists block self',
    parameter_block (get_samples rr) (__init__ d) n0
    = (Ok block, self', n0 + S N * length params)
    /\ _parameter_block self' = Some block
    /\ keys block = sample_keys d params
    /\ forall k, k ∈ sample_keys d params ->
         exists e, dict_get block k = Some e
                   /\ length (values e) = S N
                   /\ label e = (str_of_key k ++ ".%%")%string.
Proof.
  intros Hnum Hpar Hwf Hall Hc.
  set (samples := samples_at rr d params n0 (S N)).
  assert (Hget : get_samples rr (set_parameter_block (__init__ d) []) n0
                 = (Ok samples,
                    set_samples (set_parameter_block (__init__ d) []) samples,
                    n0 + S N * length params)).
  { rewrite (get_samples_closed rr _ params (Z.of_nat (S N)) n0); try done.
    by rewrite Nat2Z.id. }
  assert (Hkeys : forall s, s ∈ samples -> keys s = sample_keys d params).
  { intros s Hs. apply list_elem_of_lookup in Hs as [i Hs].
    apply samples_at_lookup in Hs as [_ ->]. by apply keys_new_sample. }
  assert (Hlen : length samples = S N).
  { unfold samples, samples_at. by rewrite length_fmap, length_seq. }
  destruct samples as [|s0 rest] eqn:Hsamples; [done|].
  assert (Hs0 : keys s0 = sample_keys d params).
  { apply Hkeys, elem_of_cons. by left. }
  assert (Hwfs : Forall dict_wf (s0 :: rest)).
  { apply Forall_forall. intros s Hs. unfold dict_wf.
    rewrite (Hkeys s Hs). by apply sample_keys_NoDup. }
  assert (Hshared : Forall (fun s => keys s ≡ₚ keys s0) (s0 :: rest)).
  { apply Forall_forall. intros s Hs. by rewrite (Hkeys s Hs), Hs0. }
  exists (block_of_samples (s0 :: rest)). eexists. split_and!.
  - unfold parameter_block. cbn [_parameter_block __init__].
    rewrite Hget. reflexivity.
  - reflexivity.
  - rewrite (block_of_samples_shared s0 rest Hwfs Hshared), keys_tabulate.
    done.
  - intros k Hk. exists (block_entry (s0 :: rest) k).
    rewrite (block_of_samples_shared s0 rest Hwfs Hshared).
    rewrite dict_get_tabulate, decide_True by by rewrite Hs0.
    destruct (column_total (s0 :: rest) k) as [Hcol _].
    { eapply all_have_key; [exact Hshared|by rewrite Hs0]. }
    split_and!; [done| |done].
    cbn [block_entry values]. by rewrite Hcol.
Qed.

Lemma random_parameter_block_witness :
  exists block self',
    parameter_block (get_samples (fun _ => float_of_dyadic 1 (-1)))
                    (__init__ docstring_data) 0
    = (Ok block, self', 60)
    /\ keys block = [KStr "X1"; KStr "X2"; KStr "X3"].
Proof.
  destruct (random_parameter_block (fun _ => float_of_dyadic 1 (-1)) docstring_data
              [(KStr "X2", [(KStr "min", SInt 5); (KStr "max", SInt 10)]);
               (KStr "X3", [(KStr "min", SInt 5); (KStr "max", SInt 10)])]
              29 0) as (block & self' & H1 & _ & H3 & _).
  - reflexivity.
  - reflexivity.
  - by apply (bool_decide_unpack _).
  - repeat constructor; exists (float_of_Z 5), (float_of_Z 5);
      by exists (SInt 5), (SInt 10), (SInt 5).
  - by apply (bool_decide_unpack _).
  - exists block, self'. split; [exact H1|exact H3].
Defined.

End EdgeFacts.
